(* ===================================================================== *)
(*  mate-recommendation-algo: recall, hard filters, feature assembly,     *)
(*  calendar scorer and additive ranker, as a shallow embedding.          *)
(*                                                                        *)
(*  Conventions of the embedding                                          *)
(*   - Python floats are exact rationals (Q); equality of scores is Qeq.  *)
(*   - Python str is an ASCII string; strip/lower/split act on ASCII.     *)
(*   - A cell of a record obtained from df.to_dict(orient="records") is   *)
(*     a [pyval]: None, an int, text, or the float NaN pandas puts in an  *)
(*     empty CSV cell.                                                    *)
(*   - A Python exception is the [None] of an option (or the left        *)
(*     injection of a sum when the exception is named).                   *)
(* ===================================================================== *)

From Stdlib Require Import QArith Qabs Qminmax Lqa Lia ZArith Ascii.
From stdpp Require Import gmap strings list fin_maps pretty sorting.

Local Open Scope Z_scope.

(* --------------------------------------------------------------------- *)
(*  Python values and the string methods the sources call                *)
(* --------------------------------------------------------------------- *)
Module Py.

Inductive pyval : Type :=
  | PNone
  | PInt (z : Z)
  | PNaN
  | PStr (s : string).

(* A record of the dataframe: column name -> cell. *)
Abbreviation pydict := (gmap string pyval).

(* bool(x) *)
Definition truthy (v : pyval) : bool :=
  match v with
  | PNone => false
  | PInt z => negb (z =? 0)
  | PNaN => true
  | PStr s => negb (String.eqb s "")
  end.

(* d.get(k) and d.get(k, default) *)
Definition get (d : pydict) (k : string) : pyval := default PNone (d !! k).
Definition get_or (d : pydict) (k : string) (dflt : pyval) : pyval :=
  default dflt (d !! k).

(* x or y *)
Definition por (x y : pyval) : pyval := if truthy x then x else y.

(* str.isspace on one ASCII character: TAB..CR, FS..US and the blank. *)
Definition is_space (c : ascii) : bool :=
  let n := Ascii.nat_of_ascii c in
  ((9 <=? n)%nat && (n <=? 13)%nat) || ((28 <=? n)%nat && (n <=? 32)%nat).

Fixpoint lstrip (s : string) : string :=
  match s with
  | String c s' => if is_space c then lstrip s' else s
  | EmptyString => EmptyString
  end.

(* the text with its trailing blanks removed *)
Fixpoint rstrip (s : string) : string :=
  match s with
  | String c s' =>
      match rstrip s' with
      | EmptyString => if is_space c then EmptyString else String c EmptyString
      | r => String c r
      end
  | EmptyString => EmptyString
  end.

Definition strip (s : string) : string := rstrip (lstrip s).

Definition lower_char (c : ascii) : ascii :=
  let n := Ascii.nat_of_ascii c in
  if ((65 <=? n)%nat && (n <=? 90)%nat)%bool then Ascii.ascii_of_nat (n + 32) else c.

Fixpoint lower (s : string) : string :=
  match s with
  | String c s' => String (lower_char c) (lower s')
  | EmptyString => EmptyString
  end.

(* s.split(sep) for a one-character separator: always at least one piece *)
Fixpoint split_on (sep : ascii) (s : string) : list string :=
  match s with
  | EmptyString => [EmptyString]
  | String c s' =>
      if Ascii.eqb c sep then EmptyString :: split_on sep s'
      else match split_on sep s' with
           | p :: ps => String c p :: ps
           | [] => [String c EmptyString]
           end
  end.

(* tok in v *)
Fixpoint contains (tok v : string) : bool :=
  String.prefix tok v ||
  match v with
  | String _ v' => contains tok v'
  | EmptyString => false
  end.

Definition digit_of (c : ascii) : option Z :=
  let n := Ascii.nat_of_ascii c in
  if ((48 <=? n)%nat && (n <=? 57)%nat)%bool then Some (Z.of_nat n - 48) else None.

(* The digits of an int literal after the sign: groups of digits separated
   by single underscores.  [acc] is the value read so far, [prev_digit]
   tells whether the previous character was a digit. *)
Fixpoint int_digits (s : string) (acc : Z) (prev_digit : bool) : option Z :=
  match s with
  | EmptyString => if prev_digit then Some acc else None
  | String c s' =>
      match digit_of c with
      | Some d => int_digits s' (10 * acc + d) true
      | None =>
          if (Ascii.eqb c "_" && prev_digit)%bool then
            match s' with
            | String c' _ =>
                match digit_of c' with
                | Some _ => int_digits s' acc false
                | None => None
                end
            | EmptyString => None
            end
          else None
      end
  end.

(* The blanks int() skips around an ASCII literal: TAB..CR and the blank.
   It does not take FS..US, which str.strip removes. *)
Definition is_literal_space (c : ascii) : bool :=
  let n := Ascii.nat_of_ascii c in
  ((9 <=? n)%nat && (n <=? 13)%nat) || (n =? 32)%nat.

Fixpoint skip_leading (s : string) : string :=
  match s with
  | String c s' => if is_literal_space c then skip_leading s' else s
  | EmptyString => EmptyString
  end.

Fixpoint skip_trailing (s : string) : string :=
  match s with
  | String c s' =>
      match skip_trailing s' with
      | EmptyString =>
          if is_literal_space c then EmptyString else String c EmptyString
      | r => String c r
      end
  | EmptyString => EmptyString
  end.

(* int(s) for text: surrounding blanks, an optional sign, then digits.
   None stands for ValueError. *)
Definition int_of_string (s : string) : option Z :=
  match skip_trailing (skip_leading s) with
  | String "-" r => Z.opp <$> int_digits r 0 false
  | String "+" r => int_digits r 0 false
  | r => int_digits r 0 false
  end.

(* int(x); None stands for TypeError / ValueError *)
Definition int (v : pyval) : option Z :=
  match v with
  | PInt z => Some z
  | PStr s => int_of_string s
  | PNaN => None
  | PNone => None
  end.

(* str(x) *)
Definition str (v : pyval) : string :=
  match v with
  | PStr s => s
  | PInt z => pretty z
  | PNaN => "nan"
  | PNone => "None"
  end.

(* max(a, b) and min(a, b) of two floats, as the builtins pick *)
Definition Qltb (a b : Q) : bool := negb (Qle_bool b a).
Definition max (a b : Q) : Q := if Qltb a b then b else a.
Definition min (a b : Q) : Q := if Qltb b a then b else a.

End Py.

(* --------------------------------------------------------------------- *)
(*  src/vedic_calendar.py                                                *)
(* --------------------------------------------------------------------- *)
Module Calendar.

Record date : Type := mkdate { year : Z; month : Z; day : Z }.

Definition is_leap (y : Z) : bool :=
  ((y mod 4 =? 0) && negb (y mod 100 =? 0)) || (y mod 400 =? 0).

Definition days_in_month (y m : Z) : Z :=
  if m =? 2 then (if is_leap y then 29 else 28)
  else if (m =? 4) || (m =? 6) || (m =? 9) || (m =? 11) then 30
  else 31.

(* days of the year that precede the first of month [m] *)
Definition days_before_month (y m : Z) : Z :=
  foldr Z.add 0 (map (days_in_month y) (seqZ 1 (m - 1))).

(* the constructor datetime.date(y, m, d) with its range checks
   (MINYEAR = 1, MAXYEAR = 9999) *)
Definition make_date (y m d : Z) : option date :=
  if (1 <=? y) && (y <=? 9999) && (1 <=? m) && (m <=? 12)
     && (1 <=? d) && (d <=? days_in_month y m)
  then Some (mkdate y m d) else None.

(* dt.timetuple().tm_yday *)
Definition tm_yday (dt : date) : Z :=
  days_before_month (year dt) (month dt) + day dt.

Definition in_range (lo hi : Z) (c : ascii) : option Z :=
  match Py.digit_of c with
  | Some d => if (lo <=? d) && (d <=? hi) then Some d else None
  | None => None
  end.

(* The directive %m, the regular expression 1[0-2]|0[1-9]|[1-9], followed
   by the literal "-": the month and the text after the dash. *)
Definition match_month (s : string) : option (Z * string) :=
  let two :=
    match s with
    | String c1 (String c2 (String "-" r)) =>
        match in_range 1 1 c1, in_range 0 2 c2 with
        | Some _, Some d2 => Some (10 + d2, r)
        | _, _ =>
            match in_range 0 0 c1, in_range 1 9 c2 with
            | Some _, Some d2 => Some (d2, r)
            | _, _ => None
            end
        end
    | _ => None
    end in
  match two with
  | Some x => Some x
  | None =>
      match s with
      | String c1 (String "-" r) =>
          match in_range 1 9 c1 with
          | Some d1 => Some (d1, r)
          | None => None
          end
      | _ => None
      end
  end.

(* The directive %d, the regular expression
   3[0-1]|[1-2]\d|0[1-9]|[1-9]| [1-9]: the first alternative that matches
   a prefix, and the text it leaves. *)
Definition match_day (s : string) : option (Z * string) :=
  let two :=
    match s with
    | String c1 (String c2 r) =>
        match in_range 3 3 c1, in_range 0 1 c2 with
        | Some _, Some d2 => Some (30 + d2, r)
        | _, _ =>
            match in_range 1 2 c1, in_range 0 9 c2 with
            | Some d1, Some d2 => Some (10 * d1 + d2, r)
            | _, _ =>
                match in_range 0 0 c1, in_range 1 9 c2 with
                | Some _, Some d2 => Some (d2, r)
                | _, _ => None
                end
            end
        end
    | _ => None
    end in
  match two with
  | Some x => Some x
  | None =>
      match s with
      | String c1 r =>
          match in_range 1 9 c1 with
          | Some d1 => Some (d1, r)
          | None =>
              if Ascii.eqb c1 " " then
                match r with
                | String c2 r' =>
                    match in_range 1 9 c2 with
                    | Some d2 => Some (d2, r')
                    | None => None
                    end
                | EmptyString => None
                end
              else None
          end
      | EmptyString => None
      end
  end.

(* datetime.strptime(d, "%Y-%m-%d").date(); None stands for ValueError *)
Definition _parse_date (d : string) : option date :=
  match d with
  | String y1 (String y2 (String y3 (String y4 (String "-" r)))) =>
      match Py.digit_of y1, Py.digit_of y2, Py.digit_of y3, Py.digit_of y4 with
      | Some a, Some b, Some c, Some e =>
          match match_month r with
          | Some (m, r') =>
              match match_day r' with
              | Some (dd, EmptyString) =>
                  make_date (1000 * a + 100 * b + 10 * c + e) m dd
              | _ => None
              end
          | None => None
          end
      | _, _, _, _ => None
      end
  | _ => None
  end.

(* TITHIS, PAKSHAS, NAKSHATRAS, YOGAS *)
Definition TITHIS : list string :=
  map (fun i => String.append "Tithi_" (pretty i)) (seqZ 1 30).
Definition PAKSHAS : list string := ["Shukla"; "Krishna"]%string.
Definition NAKSHATRAS : list string :=
  map (fun i => String.append "Nakshatra_" (pretty i)) (seqZ 1 27).
Definition YOGAS : list string :=
  map (fun i => String.append "Yoga_" (pretty i)) (seqZ 1 27).

Record hindu_date : Type := mkhindu {
  tithi : string;
  paksha : string;
  nakshatra : string;
  yoga : string;
  confidence : Q
}.

(* table[i] for a non-negative index; None stands for IndexError *)
Definition item (table : list string) (i : Z) : option string :=
  table !! Z.to_nat i.

Definition lat_factor (latitude : Q) : Q :=
  Py.max 0.6 (1 - Qabs latitude / 180)%Q.

Definition equinox_band (doy : Z) : Q :=
  (1 - (inject_Z (Z.abs (doy mod 182 - 91)) / 91) * 0.2)%Q.

Definition confidence_of (latitude : Q) (doy : Z) : Q :=
  Py.max 0 (Py.min 1 (0.6 * lat_factor latitude * equinox_band doy + 0.2)%Q).

Definition hindu_date_from_date (d : string) (latitude longitude tz : Q)
  : option hindu_date :=
  dt ← _parse_date d;
  let doy := tm_yday dt in
  t ← item TITHIS ((doy * 3) mod 30);
  p ← item PAKSHAS ((doy / 15) mod 2);
  n ← item NAKSHATRAS (doy mod 27);
  y ← item YOGAS ((doy * 2) mod 27);
  Some (mkhindu t p n y (confidence_of latitude doy)).

(* diff = abs(dy_u - dy_c); diff = min(diff, 365 - diff) *)
Definition wrapped_diff (dy_u dy_c : Z) : Z :=
  let diff := Z.abs (dy_u - dy_c) in
  Z.min diff (365 - diff).

Definition kernel_score (diff : Z) : Q :=
  let same := (1 - inject_Z diff / 91.25)%Q in
  let opp := (1 - Qabs (inject_Z diff - 182.5) / 91.25)%Q in
  let score := Py.max 0 (0.6 * Py.max same 0 + 0.4 * Py.max opp 0)%Q in
  Py.min 1 score.

Definition vedic_lite_weighted_score (dob_user dob_cand : string) : Q :=
  match _parse_date dob_user, _parse_date dob_cand with
  | Some du, Some dc =>
      kernel_score (wrapped_diff (tm_yday du) (tm_yday dc))
  | _, _ => 0%Q
  end.

End Calendar.


(* --------------------------------------------------------------------- *)
(*  matchmaking_algo/src/features.py                                     *)
(* --------------------------------------------------------------------- *)
Module Features.
Import Py.

(* (x or "").strip().lower(); None stands for the AttributeError raised
   when the cell is a truthy value that is not text *)
Definition _normalize_text (x : pyval) : option string :=
  match por x (PStr "") with
  | PStr s => Some (lower (strip s))
  | _ => None
  end.

(* [t.strip().lower() for t in s.split(',') if t.strip()] *)
Definition tokens (s : string) : list string :=
  map (fun t => lower (strip t))
      (filter (fun t => strip t ≠ ""%string) (split_on "," s)).

Definition _tag_set (s : pyval) : gset string :=
  match s with
  | PStr t => list_to_set (tokens t)
  | _ => ∅
  end.

Definition member (x : string) (l : list string) : bool :=
  bool_decide (x ∈ l).

Definition _energy_bucket (v : pyval) : option Q :=
  v ← _normalize_text v;
  if member v ["introvert"; "low"]%string then Some 0%Q
  else if member v ["extrovert"; "high"; "extravert"]%string then Some 1%Q
  else Some 0.5%Q.

Definition _humor_is_dark (v : pyval) : option bool :=
  v ← _normalize_text v;
  Some (existsb (fun tok => contains tok v) ["dark"; "edgy"; "sarcastic"]%string).

Definition _humor_is_wholesome (v : pyval) : option bool :=
  v ← _normalize_text v;
  Some (existsb (fun tok => contains tok v) ["wholesome"; "clean"; "light"]%string).

Definition _risk_bucket (v : pyval) : option Q :=
  v ← _normalize_text v;
  if member v ["low"; "cautious"]%string then Some 0%Q
  else if member v ["high"; "bold"; "adventurous"]%string then Some 1%Q
  else Some 0.5%Q.

Definition _parse_gender_interest (v : pyval) : list string :=
  match v with
  | PStr s => if truthy v then tokens s else []
  | _ => []
  end.

(* name: (lat, lon, tz_offset_hours) *)
Definition INDIA_CITY_MAP : gmap string (Q * Q * Q) :=
  list_to_map
    [("delhi", (28.6139, 77.2090, 5.5));
     ("new delhi", (28.6139, 77.2090, 5.5));
     ("mumbai", (19.0760, 72.8777, 5.5));
     ("bengaluru", (12.9716, 77.5946, 5.5));
     ("bangalore", (12.9716, 77.5946, 5.5));
     ("chennai", (13.0827, 80.2707, 5.5));
     ("kolkata", (22.5726, 88.3639, 5.5));
     ("hyderabad", (17.3850, 78.4867, 5.5))]%string%Q.

Definition DELHI : Q * Q * Q := (28.6139, 77.2090, 5.5)%Q.

Definition _city_geocode (name : pyval) : option (Q * Q * Q) :=
  if negb (truthy name) then Some (default DELHI (INDIA_CITY_MAP !! "delhi"%string))
  else
    key ← _normalize_text name;
    Some (default (default DELHI (INDIA_CITY_MAP !! "delhi"%string))
                  (INDIA_CITY_MAP !! key)).

(* try: None if x is None or x == "" else int(x); except: None *)
Definition _int_or_none (x : pyval) : option Z :=
  match x with
  | PNone => None
  | PStr EmptyString => None
  | _ => match int x with
         | Some z => Some z
         | None => None
         end
  end.

Record flags : Type := mkflags { gender : bool; age : bool; city : bool }.

Definition toggle (filters : gmap string bool) (k : string) : bool :=
  default false (filters !! k).

Definition gender_flag (u c : pydict) (filters : gmap string bool) : option bool :=
  if toggle filters "gender" then
    let u_interest := _parse_gender_interest (get u "gender_interest") in
    if (negb (bool_decide (u_interest = [])) && negb (member "any" u_interest))%bool then
      g ← _normalize_text (get_or c "gender" (PStr ""));
      Some (member g u_interest)
    else Some true
  else Some true.

Definition age_flag (u c : pydict) (filters : gmap string bool) : bool :=
  if toggle filters "age" then
    let u_min := _int_or_none (get u "min_age_pref") in
    let u_max := _int_or_none (get u "max_age_pref") in
    let c_age := match _int_or_none (get c "age") with
                 | Some z => if z =? 0 then 0 else z
                 | None => 0
                 end in
    let age_ok := true in
    let age_ok := match u_min with
                  | Some m => if c_age <? m then false else age_ok
                  | None => age_ok
                  end in
    let age_ok := match u_max with
                  | Some m => if m <? c_age then false else age_ok
                  | None => age_ok
                  end in
    age_ok
  else true.

Definition city_flag (u c : pydict) (filters : gmap string bool) : option bool :=
  if toggle filters "city" then
    pref ← _normalize_text (get_or u "city_interest" (PStr "any"));
    if (negb (String.eqb pref "") && negb (String.eqb pref "any"))%bool then
      cc ← _normalize_text (get_or c "city" (PStr ""));
      Some (String.eqb cc pref)
    else Some true
  else Some true.

Definition _hard_filter_flags (u c : pydict) (filters : gmap string bool)
  : option flags :=
  g ← gender_flag u c filters;
  let a := age_flag u c filters in
  ci ← city_flag u c filters;
  Some (mkflags g a ci).

Record FeatureRow : Type := mkrow {
  user_id : Z;
  match_id : Z;
  base_sim : Q;
  tag_overlap : Z;
  age_gap : Z;
  energy_comp : Z;
  humor_comp : Z;
  risk_comp : Z;
  comp_index : Q;
  filter_gender : bool;
  filter_age : bool;
  filter_city : bool;
  vedic_lite_score : Q;
  vedic_confidence : Q
}.

(* 1 if (a <= 0.25 and b >= 0.75) or (a >= 0.75 and b <= 0.25) else 0 *)
Definition opposite (a b : Q) : Z :=
  if (Qle_bool a 0.25 && Qle_bool 0.75 b) || (Qle_bool 0.75 a && Qle_bool b 0.25)
  then 1 else 0.

(* the test on birth_time: _normalize_text(str(x.get("birth_time", ""))) *)
Definition has_birth_time (x : pydict) : option bool :=
  t ← _normalize_text (PStr (str (get_or x "birth_time" (PStr ""))));
  Some (negb (String.eqb t "")).

(* The body of the try block: both calendar lookups, the birth-time bonus
   and the clamp; None stands for any exception raised inside it. *)
Definition confidence_try (u c : pydict) (u_dob c_dob : string)
    (u_geo c_geo : Q * Q * Q) : option Q :=
  let '(u_lat, u_lon, u_tz) := u_geo in
  let '(c_lat, c_lon, c_tz) := c_geo in
  u_cal ← Calendar.hindu_date_from_date u_dob u_lat u_lon u_tz;
  c_cal ← Calendar.hindu_date_from_date c_dob c_lat c_lon c_tz;
  let u_conf := Calendar.confidence u_cal in
  let c_conf := Calendar.confidence c_cal in
  ut ← has_birth_time u;
  let u_conf := if (ut : bool) then Py.min 1 (u_conf + 0.15)%Q else u_conf in
  ct ← has_birth_time c;
  let c_conf := if (ct : bool) then Py.min 1 (c_conf + 0.15)%Q else c_conf in
  Some (Py.max 0 (Py.min 1 (Py.min u_conf c_conf))).

(* The "Vedic-lite scoring" block of build_features: the pair
   (vedic_lite_score, vedic_confidence); None stands for an exception that
   leaves the block (and so build_features). *)
Definition vedic_block (u c : pydict) : option (Q * Q) :=
  u_dob ← _normalize_text (PStr (str (get_or u "birth_date" (PStr ""))));
  c_dob ← _normalize_text (PStr (str (get_or c "birth_date" (PStr ""))));
  if negb (String.eqb u_dob "") && negb (String.eqb c_dob "")
     && (String.length u_dob =? 10)%nat && (String.length c_dob =? 10)%nat
  then
    let vedic_lite_score := Calendar.vedic_lite_weighted_score u_dob c_dob in
    u_geo ← _city_geocode (get u "birth_city");
    c_geo ← _city_geocode (get c "birth_city");
    match confidence_try u c u_dob c_dob u_geo c_geo with
    | Some vedic_confidence => Some (vedic_lite_score, vedic_confidence)
    | None => Some (0%Q, 0%Q)
    end
  else Some (0%Q, 0%Q).

(* what the outer loop computes once per user *)
Record user_side : Type := mkside {
  s_tags : gset string;
  s_age : Z;
  s_energy : Q;
  s_dark : bool;
  s_wholesome : bool;
  s_risk : Q
}.

Definition side_of (u : pydict) : option user_side :=
  let tags := _tag_set (get_or u "tags" (PStr "")) in
  a ← int (por (get_or u "age" (PInt 0)) (PInt 0));
  e ← _energy_bucket (get_or u "social_energy" (PStr ""));
  d ← _humor_is_dark (get_or u "humor_style" (PStr ""));
  w ← _humor_is_wholesome (get_or u "humor_style" (PStr ""));
  r ← _risk_bucket (get_or u "risk_taking" (PStr ""));
  Some (mkside tags a e d w r).

Definition mix (comp_mix : gmap string Q) (k : string) (dflt : Q) : Q :=
  default dflt (comp_mix !! k).

Definition all_pass (f : flags) : bool := gender f && age f && city f.

(* `not u` for the result of by_id.get *)
Definition falsy_record (r : option pydict) : bool :=
  match r with
  | None => true
  | Some d => bool_decide (d = ∅)
  end.

(* One turn of the inner loop once the candidate record is known: None is
   an exception, Some None a pair that is skipped, Some (Some row) a pair
   that is appended. *)
Definition pair_row (uid : Z) (u : pydict) (us : user_side)
    (cid : Z) (sim : Q) (c : pydict)
    (comp_mix : gmap string Q) (filters : gmap string bool)
  : option (option FeatureRow) :=
  fflags ← _hard_filter_flags u c filters;
  if negb (all_pass fflags) then Some None
  else
    cs ← side_of c;
    let tag_overlap := Z.of_nat (size (s_tags us ∩ s_tags cs)) in
    let age_gap := Z.abs (s_age us - s_age cs) in
    let energy_comp := opposite (s_energy us) (s_energy cs) in
    let humor_comp :=
      if (s_dark us && s_wholesome cs) || (s_wholesome us && s_dark cs)
      then 1 else 0 in
    let risk_comp := opposite (s_risk us) (s_risk cs) in
    let comp_index :=
      (mix comp_mix "energy" 0.34 * inject_Z energy_comp
       + mix comp_mix "humor" 0.33 * inject_Z humor_comp
       + mix comp_mix "risk" 0.33 * inject_Z risk_comp)%Q in
    '(vs, vc) ← vedic_block u c;
    Some (Some (mkrow uid cid sim tag_overlap age_gap energy_comp humor_comp
                      risk_comp comp_index (gender fflags) (age fflags)
                      (city fflags) vs vc)).

(* the inner loop over one user's candidates *)
Fixpoint candidate_rows (by_id : gmap Z pydict) (uid : Z) (u : pydict)
    (us : user_side) (cands : list (Z * Q))
    (comp_mix : gmap string Q) (filters : gmap string bool)
  : option (list FeatureRow) :=
  match cands with
  | [] => Some []
  | (cid, sim) :: rest =>
      here ←
        (if falsy_record (by_id !! cid) then Some None
         else match by_id !! cid with
              | Some c => pair_row uid u us cid sim c comp_mix filters
              | None => Some None
              end);
      more ← candidate_rows by_id uid u us rest comp_mix filters;
      Some (match here with
            | Some row => row :: more
            | None => more
            end)
  end.

(* the outer loop over candidates.items() *)
Fixpoint user_rows (by_id : gmap Z pydict)
    (candidates : list (Z * list (Z * Q)))
    (comp_mix : gmap string Q) (filters : gmap string bool)
  : option (list FeatureRow) :=
  match candidates with
  | [] => Some []
  | (uid, cands) :: rest =>
      here ←
        (if falsy_record (by_id !! uid) then Some []
         else match by_id !! uid with
              | Some u =>
                  us ← side_of u;
                  candidate_rows by_id uid u us cands comp_mix filters
              | None => Some []
              end);
      more ← user_rows by_id rest comp_mix filters;
      Some (here ++ more)
  end.

(* {int(r["user_id"]): r for r in df.to_dict(orient="records")} *)
Fixpoint index_records (records : list pydict) (acc : gmap Z pydict)
  : option (gmap Z pydict) :=
  match records with
  | [] => Some acc
  | r :: rest =>
      v ← r !! "user_id"%string;
      k ← int v;
      index_records rest (<[k := r]> acc)
  end.

(* build_features(df, candidates, comp_mix, filters); the dataframe is the
   list of its records, None as result stands for an exception. *)
Definition build_features (records : list pydict)
    (candidates : list (Z * list (Z * Q)))
    (comp_mix : gmap string Q) (filters : option (gmap string bool))
  : option (list FeatureRow) :=
  by_id ← index_records records ∅;
  let filters := default ∅ filters in
  user_rows by_id candidates comp_mix filters.

End Features.

(* --------------------------------------------------------------------- *)
(*  matchmaking_algo/src/ranker.py                                       *)
(* --------------------------------------------------------------------- *)
Module Ranker.

(* The JSON configuration document; an absent key is None. *)
Record Config : Type := mkconfig {
  cfg_weights : option (gmap string Q);
  cfg_vedic : option (gmap string Q);
  cfg_novelty_value : option Q;
  cfg_prior_value : option Q;
  cfg_age_penalty : option Q;
  cfg_comp_mix : option (gmap string Q);
  cfg_filters : option (gmap string bool);
  cfg_recall_k : option Z
}.

Record AdditiveRanker : Type := mkranker {
  w_sim : Q;
  w_comp : Q;
  w_vedic : Q;
  vedic_min_conf : Q;
  vedic_low_shrink : Q;
  w_nov : Q;
  w_pri : Q;
  novelty_value : Q;
  prior_value : Q;
  age_penalty : Q
}.

(* config.get(section, {}).get(key, dflt) *)
Definition nested (section : option (gmap string Q)) (k : string) (dflt : Q) : Q :=
  default dflt (default ∅ section !! k).

(* AdditiveRanker.__init__ *)
Definition init (config : Config) : AdditiveRanker :=
  {| w_sim := nested (cfg_weights config) "similarity" 0.30;
     w_comp := nested (cfg_weights config) "complementarity" 0.20;
     w_vedic := nested (cfg_weights config) "vedic_lite" 0.50;
     vedic_min_conf := nested (cfg_vedic config) "min_conf" 0.30;
     vedic_low_shrink := nested (cfg_vedic config) "low_conf_shrink" 0.5;
     w_nov := nested (cfg_weights config) "novelty" 0.0;
     w_pri := nested (cfg_weights config) "prior" 0.0;
     novelty_value := default 0.05%Q (cfg_novelty_value config);
     prior_value := default 0.0%Q (cfg_prior_value config);
     age_penalty := default 0.0%Q (cfg_age_penalty config) |}.

(* A dataframe of numbers: its column names and, per row, the cells.
   A boolean cell is 1 or 0. *)
Record Frame : Type := mkframe {
  columns : list string;
  rows : list (gmap string Q)
}.

Definition b2q (b : bool) : Q := if b then 1%Q else 0%Q.

Definition feature_columns : list string :=
  ["user_id"; "match_id"; "base_sim"; "tag_overlap"; "age_gap"; "energy_comp";
   "humor_comp"; "risk_comp"; "comp_index"; "filter_gender"; "filter_age";
   "filter_city"; "vedic_lite_score"; "vedic_confidence"]%string.

Definition cells (r : Features.FeatureRow) : gmap string Q :=
  list_to_map
    [("user_id", inject_Z (Features.user_id r));
     ("match_id", inject_Z (Features.match_id r));
     ("base_sim", Features.base_sim r);
     ("tag_overlap", inject_Z (Features.tag_overlap r));
     ("age_gap", inject_Z (Features.age_gap r));
     ("energy_comp", inject_Z (Features.energy_comp r));
     ("humor_comp", inject_Z (Features.humor_comp r));
     ("risk_comp", inject_Z (Features.risk_comp r));
     ("comp_index", Features.comp_index r);
     ("filter_gender", b2q (Features.filter_gender r));
     ("filter_age", b2q (Features.filter_age r));
     ("filter_city", b2q (Features.filter_city r));
     ("vedic_lite_score", Features.vedic_lite_score r);
     ("vedic_confidence", Features.vedic_confidence r)]%string.

(* pd.DataFrame(rows): no row, no column *)
Definition frame_of (l : list Features.FeatureRow) : Frame :=
  {| columns := match l with [] => [] | _ :: _ => feature_columns end;
     rows := map cells l |}.

Definition has_column (df : Frame) (name : string) : bool :=
  bool_decide (name ∈ columns df).

(* df[name] as a series *)
Definition series (df : Frame) (name : string) : list Q :=
  map (fun r => default 0%Q (r !! name)) (rows df).

(* df.get(name, dflt), the scalar default broadcast over the index *)
Definition get (df : Frame) (name : string) (dflt : Q) : list Q :=
  if has_column df name then series df name
  else map (fun _ => dflt) (rows df).

(* df[name] = values *)
Definition assign (df : Frame) (name : string) (values : list Q) : Frame :=
  {| columns := if has_column df name then columns df else columns df ++ [name];
     rows := zip_with (fun r v => <[name := v]> r) (rows df) values |}.

(* df[name] = scalar *)
Definition assign_scalar (df : Frame) (name : string) (v : Q) : Frame :=
  assign df name (map (fun _ => v) (rows df)).

Definition scale (k : Q) (s : list Q) : list Q := map (Qmult k) s.

(* AdditiveRanker.score *)
Definition score (self : AdditiveRanker) (feats : Frame) : Frame :=
  let df := feats in
  let df := assign_scalar df "novelty" (novelty_value self) in
  let df := assign_scalar df "prior" (prior_value self) in
  let conf :=
    if has_column df "vedic_confidence" then series df "vedic_confidence"
    else map (fun _ => 0%Q) (rows df) in
  let vedic_weight :=
    map (fun c => if Qle_bool (vedic_min_conf self) c then w_vedic self
                  else (w_vedic self * vedic_low_shrink self)%Q) conf in
  let final :=
    zip_with Qminus
      (zip_with Qplus
         (zip_with Qplus
            (scale (w_sim self) (get df "base_sim" 0.0))
            (scale (w_comp self) (get df "comp_index" 0.0)))
         (zip_with Qmult vedic_weight (get df "vedic_lite_score" 0.0)))
      (scale (age_penalty self) (get df "age_gap" 0)) in
  assign df "final_score" final.

(* the final_score cell of row i *)
Definition final_score_at (df : Frame) (i : nat) : option Q :=
  r ← rows df !! i; r !! "final_score"%string.

End Ranker.

(* --------------------------------------------------------------------- *)
(*  src/recall.py                                                        *)
(* --------------------------------------------------------------------- *)
Module Recall.

(* a similarity cell: a float or -inf *)
Inductive sim : Type :=
  | NegInf
  | Fin (q : Q).

Definition sim_le (a b : sim) : bool :=
  match a, b with
  | NegInf, _ => true
  | Fin _, NegInf => false
  | Fin x, Fin y => Qle_bool x y
  end.

Record CandidateGenerator : Type := mkgen {
  user_ids : list Z;
  id_to_idx : gmap Z nat;
  sim_matrix : list (list Q)
}.

(* {uid: i for i, uid in enumerate(user_ids)} *)
Definition index_ids (ids : list Z) : gmap Z nat :=
  foldl (fun m p => <[p.2 := p.1]> m) ∅ (imap (fun i uid => (i, uid)) ids).

(* a[idx] for a list of positions; None stands for IndexError *)
Definition take_at {A : Type} (a : list A) (idx : list nat) : option (list A) :=
  mapM (fun i => a !! i) idx.

Section numpy.
(* np.argpartition(a, kth) with kth already counted from the start, and
   np.argsort(a): the library routines the method calls. *)
Variable argpartition : list sim -> nat -> list nat.
Variable argsort : list sim -> list nat.

(* CandidateGenerator.topk_for_user; None stands for an exception *)
Definition topk_for_user (self : CandidateGenerator) (user_id : Z) (k : Z)
  : option (list (Z * sim)) :=
  match id_to_idx self !! user_id with
  | None => Some []
  | Some idx =>
      row ← sim_matrix self !! idx;
      if negb (idx <? length row)%nat then None else
      let sims := <[idx := NegInf]> (map Fin row) in
      let k_eff := Z.min k (Z.of_nat (length sims) - 1) in
      if k_eff <=? 0 then Some []
      else
        let ke := Z.to_nat k_eff in
        let part := argpartition sims (length sims - ke) in
        let top_idx := drop (length part - ke) part in
        vals ← take_at sims top_idx;
        top_sorted ← take_at top_idx (reverse (argsort vals));
        mapM (fun j => uid ← user_ids self !! j;
                       s ← sims !! j;
                       Some (uid, s)) top_sorted
  end.

(* CandidateGenerator.topk_for_all, over the rows in order *)
Definition topk_for_all (self : CandidateGenerator) (k : Z)
  : option (list (Z * list (Z * sim))) :=
  mapM (fun uid => r ← topk_for_user self uid k; Some (uid, r)) (user_ids self).
End numpy.

(* A reference for the two library routines: the positions sorted by their
   key with a stable sort, which is what numpy's sort does on short arrays;
   a full sort is in particular a partition around every position. *)
Definition key (a : list sim) (i : nat) : sim := default NegInf (a !! i).

Definition by_key (a : list sim) : relation nat :=
  fun i j => sim_le (key a i) (key a j) = true.

Definition sim_lt (x y : sim) : bool := negb (sim_le y x).

(* the insertion loop: the new position moves left past the positions whose
   key is greater, and stops behind the ones whose key is equal *)
Fixpoint insert_pos (a : list sim) (i : nat) (sorted : list nat) : list nat :=
  match sorted with
  | [] => [i]
  | j :: r =>
      if sim_lt (key a i) (key a j) then i :: sorted
      else j :: insert_pos a i r
  end.

Definition stable_argsort (a : list sim) : list nat :=
  foldl (fun acc i => insert_pos a i acc) [] (seq 0 (length a)).

Definition sorting_argpartition (a : list sim) (kth : nat) : list nat :=
  stable_argsort a.

(* ValueError is the exception of the code.  OutsideModel is no exception:
   it marks a frame that the model does not follow further. *)
Inductive exn : Type :=
  | ValueError (msg : string)
  | OutsideModel (what : string).

(* The dataframe read from the CSV file. *)
Record DataFrame : Type := mkdf {
  df_columns : list string;
  df_records : list Py.pydict
}.

Definition startswith (p s : string) : bool := String.prefix p s.

Fixpoint insert_sorted (c : string) (l : list string) : list string :=
  match l with
  | [] => [c]
  | x :: r => if String.leb c x then c :: l else x :: insert_sorted c r
  end.

(* sorted(cols) *)
Definition sorted (l : list string) : list string := foldr insert_sorted [] l.

Definition find_embedding_columns (df : DataFrame) : exn + list string :=
  let cols := filter (fun c => startswith "t_" c || startswith "e_" c) (df_columns df) in
  if bool_decide (cols = []) then
    inl (ValueError "No embedding columns found (expected t_* or e_* columns)")
  else inr (sorted cols).

Section sklearn.
(* StandardScaler().fit_transform followed by cosine_similarity, on the
   embedding columns of the frame; the left injection is the exception
   astype(float) raises on a cell that is not a number. *)
Variable similarity_table : DataFrame -> list string -> exn + list (list Q).

(* df[user_id_col].tolist(), for a column of ints.  The code takes any
   cell as an id and does not raise here; the generator of the model has
   integer ids, so a column with another cell is left outside the model. *)
Definition id_column (df : DataFrame) : exn + list Z :=
  match mapM (fun r => v ← r !! "user_id"%string;
                       match v with Py.PInt z => Some z | _ => None end)
             (df_records df) with
  | Some ids => inr ids
  | None => inl (OutsideModel "user_id cell is not an integer")
  end.

(* CandidateGenerator.__init__ *)
Definition init (df : DataFrame) (embed_cols : list string)
  : exn + CandidateGenerator :=
  if negb (bool_decide ("user_id"%string ∈ df_columns df)) then
    inl (ValueError "Expected 'user_id' column in dataframe")
  else
    match id_column df with
    | inl e => inl e
    | inr ids =>
        match similarity_table df embed_cols with
        | inl e => inl e
        | inr m => inr (mkgen ids (index_ids ids) m)
        end
    end.
End sklearn.

End Recall.

(* --------------------------------------------------------------------- *)
(*  matchmaking_algo/src/pipeline.py                                     *)
(* --------------------------------------------------------------------- *)
Module Pipeline.

Record RecommenderPipeline : Type := mkpipe {
  config : Ranker.Config;
  df : Recall.DataFrame;
  embed_cols : list string;
  cand_gen : Recall.CandidateGenerator;
  ranker : Ranker.AdditiveRanker;
  recall_k : Z
}.

Section init.
Variable similarity_table :
  Recall.DataFrame -> list string -> Recall.exn + list (list Q).

(* RecommenderPipeline.__init__, once the two files are read *)
Definition init (data : Recall.DataFrame) (cfg : Ranker.Config)
  : Recall.exn + RecommenderPipeline :=
  match Recall.find_embedding_columns data with
  | inl e => inl e
  | inr cols =>
      match Recall.init similarity_table data cols with
      | inl e => inl e
      | inr gen =>
          inr (mkpipe cfg data cols gen (Ranker.init cfg)
                      (default 100 (Ranker.cfg_recall_k cfg)))
      end
  end.
End init.

End Pipeline.

(* --------------------------------------------------------------------- *)
(*  matchmaking_algo/src/pipeline.py: the recommendations                *)
(* --------------------------------------------------------------------- *)
Module Recommender.

(* What a call comes to: a value, an exception, or a run that leaves the
   model: with floats as rationals the feature engine has no -inf, so a
   candidate list that holds one is not followed further. *)
Inductive outcome (A : Type) : Type :=
  | Returned (a : A)
  | Raised
  | Unmodelled.
Arguments Returned {A} a.
Arguments Raised {A}.
Arguments Unmodelled {A}.

(* the candidate list as the feature engine takes it *)
Definition finite (found : list (Z * Recall.sim)) : option (list (Z * Q)) :=
  mapM (fun p => match p.2 with
                 | Recall.Fin q => Some (p.1, q)
                 | Recall.NegInf => None
                 end) found.

(* df[df["user_id"] == user_id]; None stands for KeyError *)
Definition select_user (df : Ranker.Frame) (user_id : Z) : option Ranker.Frame :=
  if negb (Ranker.has_column df "user_id") then None
  else
    Some {| Ranker.columns := Ranker.columns df;
            Ranker.rows :=
              filter (fun r => Qeq_bool (default 0%Q (r !! "user_id"%string))
                                        (inject_Z user_id) = true)
                     (Ranker.rows df) |}.

(* df.head(n), that is df.iloc[:n]: a negative n counts from the end *)
Definition head (df : Ranker.Frame) (n : Z) : Ranker.Frame :=
  {| Ranker.columns := Ranker.columns df;
     Ranker.rows :=
       if (0 <=? n)%Z then take (Z.to_nat n) (Ranker.rows df)
       else take (length (Ranker.rows df) - Z.to_nat (- n)) (Ranker.rows df) |}.

(* df.rename(columns={old: new}) *)
Definition rename (df : Ranker.Frame) (old new : string) : Ranker.Frame :=
  {| Ranker.columns :=
       map (fun c => if String.eqb c old then new else c) (Ranker.columns df);
     Ranker.rows :=
       map (fun r => match r !! old with
                     | Some v => <[new := v]> (delete old r)
                     | None => r
                     end) (Ranker.rows df) |}.

(* the frame recommend_for_user returns when no pair is left *)
Definition no_recommendation : Ranker.Frame :=
  {| Ranker.columns :=
       ["user_id"; "match_id"; "compatibility_score"; "filter_gender";
        "filter_age"; "filter_city"; "vedic_lite_score";
        "vedic_confidence"]%string;
     Ranker.rows := [] |}.

Section pandas.
Variable argpartition : list Recall.sim -> nat -> list nat.
Variable argsort : list Recall.sim -> list nat.
(* the indexer of sort_values(by, ascending=False): the positions of the
   keys in the order of the sorted frame *)
Variable argsort_descending : list Q -> list nat.

(* df.sort_values(key, ascending=False); None stands for an exception *)
Definition sort_values (df : Ranker.Frame) (key : string) : option Ranker.Frame :=
  if negb (Ranker.has_column df key) then None
  else
    rs ← Recall.take_at (Ranker.rows df)
           (argsort_descending (Ranker.series df key));
    Some {| Ranker.columns := Ranker.columns df; Ranker.rows := rs |}.

(* RecommenderPipeline.recommend_for_user *)
Definition recommend_for_user (self : Pipeline.RecommenderPipeline)
    (user_id : Z) (topn : Z) : outcome Ranker.Frame :=
  match Recall.topk_for_user argpartition argsort (Pipeline.cand_gen self)
          user_id (Pipeline.recall_k self) with
  | None => Raised
  | Some found =>
      match finite found with
      | None => Unmodelled
      | Some cands =>
          match Features.build_features
                  (Recall.df_records (Pipeline.df self)) [(user_id, cands)]
                  (default ∅ (Ranker.cfg_comp_mix (Pipeline.config self)))
                  (Some (default ∅ (Ranker.cfg_filters (Pipeline.config self))))
          with
          | None => Raised
          | Some [] => Returned no_recommendation
          | Some feats =>
              let scored := Ranker.score (Pipeline.ranker self)
                              (Ranker.frame_of feats) in
              match mine ← select_user scored user_id;
                    sort_values mine "final_score" with
              | None => Raised
              | Some sorted =>
                  Returned (rename (head sorted topn)
                              "final_score" "compatibility_score")
              end
          end
      end
  end.
End pandas.

(* result[uid] = value on a dict: the key keeps the place of its first
   assignment and takes the last value *)
Fixpoint dict_set {A : Type} (d : list (Z * A)) (k : Z) (v : A) : list (Z * A) :=
  match d with
  | [] => [(k, v)]
  | (k', v') :: rest =>
      if (k =? k')%Z then (k, v) :: rest else (k', v') :: dict_set rest k v
  end.

(* the items of the dict that a run of assignments builds *)
Definition dict_items {A : Type} (assignments : list (Z * A)) : list (Z * A) :=
  foldl (fun d p => dict_set d p.1 p.2) [] assignments.

(* the rows kept by groupby(key).head(n), n not negative: a row is kept when
   fewer than n rows before it carry its key; seen holds the keys so far *)
Fixpoint first_of_each (key : string) (n : nat) (seen : list Q)
    (rs : list (gmap string Q)) : list (gmap string Q) :=
  match rs with
  | [] => []
  | r :: rest =>
      let k := default 0%Q (r !! key) in
      let before := length (filter (fun x => Qeq_bool x k = true) seen) in
      if (before <? n)%nat then r :: first_of_each key n (k :: seen) rest
      else first_of_each key n (k :: seen) rest
  end.

(* df[names]; None stands for KeyError *)
Definition select_columns (df : Ranker.Frame) (names : list string)
  : option Ranker.Frame :=
  if forallb (Ranker.has_column df) names then
    Some {| Ranker.columns := names;
            Ranker.rows :=
              map (fun r : gmap string Q =>
                     filter (fun kv : string * Q => kv.1 ∈ names) r)
                  (Ranker.rows df) |}
  else None.

Section pandas_groups.
Variable argpartition : list Recall.sim -> nat -> list nat.
Variable argsort : list Recall.sim -> list nat.
(* the indexer of sort_values([k1, k2], ascending=[True, False]), from the
   pairs of the two keys *)
Variable lexsort_indexer : list (Q * Q) -> list nat.
(* groupby(key).head(n) for a negative n, which the versions of pandas
   answer differently *)
Variable head_negative : Ranker.Frame -> string -> Z -> Ranker.Frame.

Definition sort_values_by_two (df : Ranker.Frame) (k1 k2 : string)
  : option Ranker.Frame :=
  if negb (Ranker.has_column df k1 && Ranker.has_column df k2) then None
  else
    rs ← Recall.take_at (Ranker.rows df)
           (lexsort_indexer (zip (Ranker.series df k1) (Ranker.series df k2)));
    Some {| Ranker.columns := Ranker.columns df; Ranker.rows := rs |}.

Definition groupby_head (df : Ranker.Frame) (key : string) (n : Z)
  : option Ranker.Frame :=
  if negb (Ranker.has_column df key) then None
  else if (0 <=? n)%Z then
    Some {| Ranker.columns := Ranker.columns df;
            Ranker.rows := first_of_each key (Z.to_nat n) [] (Ranker.rows df) |}
  else Some (head_negative df key n).

(* RecommenderPipeline.recommend_all *)
Definition recommend_all (self : Pipeline.RecommenderPipeline) (topn : Z)
  : outcome Ranker.Frame :=
  match Recall.topk_for_all argpartition argsort (Pipeline.cand_gen self)
          (Pipeline.recall_k self) with
  | None => Raised
  | Some assignments =>
      match mapM (fun p : Z * list (Z * Recall.sim) =>
                    c ← finite p.2; Some (p.1, c))
                 (dict_items assignments) with
      | None => Unmodelled
      | Some cands =>
          match Features.build_features
                  (Recall.df_records (Pipeline.df self)) cands
                  (default ∅ (Ranker.cfg_comp_mix (Pipeline.config self)))
                  (Some (default ∅ (Ranker.cfg_filters (Pipeline.config self))))
          with
          | None => Raised
          | Some feats =>
              let scored := Ranker.score (Pipeline.ranker self)
                              (Ranker.frame_of feats) in
              match sorted ← sort_values_by_two scored "user_id" "final_score";
                    topn_df ← groupby_head sorted "user_id" topn;
                    select_columns
                      (rename (rename topn_df "match_id" "match_id")
                         "final_score" "compatibility_score")
                      ["user_id"; "match_id"; "compatibility_score"]%string
              with
              | None => Raised
              | Some res => Returned res
              end
          end
      end
  end.
End pandas_groups.

End Recommender.

(* ===================================================================== *)
(*  Vocabulary of the properties                                         *)
(* ===================================================================== *)

Local Open Scope Q_scope.

Section feature_vocabulary.
Import Py Calendar Features.

(* The calendar score in the words of the specification: the distance of
   the two days on a circle of 365 days, two triangular kernels of width
   91.25 around 0 and 182.5, blended 0.6 / 0.4 and clamped to [0,1]. *)
Definition doy_distance (a b : Z) : Z :=
  Z.min ((a - b) mod 365) ((b - a) mod 365).
Definition triangular (peak d : Q) : Q :=
  Qmax 0 (1 - Qabs (d - peak) / 91.25).
Definition clamp01 (x : Q) : Q := Qmin 1 (Qmax 0 x).
Definition blended_score (da db : date) : Q :=
  let d := inject_Z (doy_distance (tm_yday da) (tm_yday db)) in
  clamp01 (0.6 * triangular 0 d + 0.4 * triangular 182.5 d).

(* the birth date as the feature engine reads it *)
Definition dob (x : pydict) : string :=
  lower (strip (str (get_or x "birth_date" (PStr "")))).

(* a 10-character text that strptime accepts *)
Definition valid_iso (s : string) : Prop :=
  String.length s = 10%nat /\ is_Some (_parse_date s).

(* a cell that holds text, or nothing *)
Definition text_cell (v : pyval) : Prop :=
  match v with
  | PStr _ | PNone => True
  | _ => False
  end.

(* a cell that holds an int, or nothing *)
Definition int_cell (v : pyval) : Prop :=
  match v with
  | PInt _ | PNone => True
  | _ => False
  end.

(* the birth_time cell is text, or the key is absent *)
Definition time_cell (x : pydict) : Prop :=
  match x !! "birth_time"%string with
  | Some (PStr _) | None => True
  | _ => False
  end.

(* A birth time is present when its cell holds a value: a text that is
   not blank, or a number; an absent key, None and NaN hold none. *)
Definition birth_time_present (x : pydict) : bool :=
  match x !! "birth_time"%string with
  | Some (PStr s) => negb (String.eqb (strip s) "")
  | Some (PInt _) => true
  | _ => false
  end.

Definition latitude_of (x : pydict) : Q :=
  match _city_geocode (get x "birth_city") with
  | Some (lat, _, _) => lat
  | None => 0
  end.

(* The confidence of one person and of the pair in the words of the
   specification: the baseline, raised by 0.15 and capped at 1 when the
   birth time is present; the pair takes the weaker side. *)
Definition person_confidence (x : pydict) (d : date) : Q :=
  let base := confidence_of (latitude_of x) (tm_yday d) in
  if birth_time_present x then Qmin 1 (base + 0.15) else base.

Definition claimed_pair_confidence (u c : pydict) (du dc : date) : Q :=
  Qmin (person_confidence u du) (person_confidence c dc).

(* the text columns the feature engine normalises *)
Definition text_columns : list string :=
  ["gender"; "city"; "city_interest"; "social_energy"; "humor_style";
   "risk_taking"; "birth_city"]%string.

(* a record whose cells have the types of the dataset schema *)
Definition typed_record (r : pydict) : Prop :=
  (exists z, r !! "user_id"%string = Some (PInt z))
  /\ Forall (fun k => text_cell (get r k)) text_columns
  /\ int_cell (get r "age").



(* A record as pandas yields it for a CSV row whose birth_time cell is
   empty: scripts/generate_profiles.py writes such rows. *)
Definition nan_time_user (uid : Z) : pydict :=
  list_to_map
    [("user_id", PInt uid); ("birth_date", PStr "2000-01-01");
     ("birth_city", PStr "Delhi"); ("birth_time", PNaN)]%string.

(* A record as pandas yields it for a CSV row whose birth_city cell is
   empty, with a birth date that parses. *)
Definition nan_city_user (uid : Z) : pydict :=
  list_to_map
    [("user_id", PInt uid); ("birth_date", PStr "2000-01-01");
     ("birth_city", PNaN)]%string.

(* a user whose minimum age preference is 0, a candidate without age, and
   the age filter alone switched on *)
Definition zero_min_user : pydict := {[ "min_age_pref"%string := PInt 0 ]}.
Definition ageless_candidate : pydict := ∅.
Definition age_only : gmap string bool := {[ "age"%string := true ]}.

(* two complete records of the sample dataset *)
Definition liam : pydict :=
  list_to_map
    [("user_id", PInt 1); ("name", PStr "Liam X."); ("age", PInt 29);
     ("gender", PStr "M"); ("city", PStr "Miami");
     ("tags", PStr "climbing, music, tech"); ("humor_style", PStr "wholesome");
     ("social_energy", PStr "introvert"); ("risk_taking", PStr "low");
     ("gender_interest", PStr "F"); ("min_age_pref", PInt 26);
     ("max_age_pref", PInt 32); ("city_interest", PStr "Miami");
     ("birth_date", PStr "1996-05-10"); ("birth_city", PStr "Miami")]%string.

Definition emma : pydict :=
  list_to_map
    [("user_id", PInt 2); ("name", PStr "Emma K."); ("age", PInt 27);
     ("gender", PStr "F"); ("city", PStr "Miami");
     ("tags", PStr "music, yoga"); ("humor_style", PStr "dark");
     ("social_energy", PStr "extrovert"); ("risk_taking", PStr "high");
     ("gender_interest", PStr "M"); ("min_age_pref", PInt 25);
     ("max_age_pref", PInt 35); ("city_interest", PStr "Any");
     ("birth_date", PStr "1998-11-08"); ("birth_city", PStr "Mumbai");
     ("birth_time", PStr "13:45")]%string.

Definition sample_records : list pydict := [liam; emma].
Definition sample_candidates : list (Z * list (Z * Q)) := [(1%Z, [(2%Z, 0.9)])].
Definition sample_filters : gmap string bool :=
  list_to_map [("gender", true); ("age", true); ("city", true)]%string.
Definition sample_rows : list FeatureRow :=
  default [] (build_features sample_records sample_candidates ∅ (Some sample_filters)).

End feature_vocabulary.

Section ranker_vocabulary.
Import Features Ranker.

(* w_cal: the calendar weight, shrunk under the confidence threshold *)
Definition calendar_weight (self : AdditiveRanker) (conf : Q) : Q :=
  if Qle_bool (vedic_min_conf self) conf then w_vedic self
  else w_vedic self * vedic_low_shrink self.

Definition empty_config : Config :=
  mkconfig None None None None None None None None.

Definition sample_row : FeatureRow :=
  mkrow 1 2 0.9 1 2 1 1 1 1 true true true 0.5 0.25.

End ranker_vocabulary.

Section recall_vocabulary.
Import Recall.

(* what the numpy documentation promises of the two routines: a
   permutation of the positions, split around kth, respectively sorted *)
Definition argpartition_contract (argpartition : list sim -> nat -> list nat) : Prop :=
  forall a kth, (kth < length a)%nat ->
    argpartition a kth ≡ₚ seq 0 (length a)
    /\ forall i j pi pj x y, (i < kth)%nat -> (kth <= j)%nat ->
         argpartition a kth !! i = Some pi -> argpartition a kth !! j = Some pj ->
         a !! pi = Some x -> a !! pj = Some y -> sim_le x y = true.

Definition argsort_contract (argsort : list sim -> list nat) : Prop :=
  forall a,
    argsort a ≡ₚ seq 0 (length a)
    /\ forall i j pi pj x y, (i <= j)%nat ->
         argsort a !! i = Some pi -> argsort a !! j = Some pj ->
         a !! pi = Some x -> a !! pj = Some y -> sim_le x y = true.

(* the state __init__ leaves: the index of the ids and a square table *)
Definition wf_generator (g : CandidateGenerator) : Prop :=
  id_to_idx g = index_ids (user_ids g)
  /\ length (sim_matrix g) = length (user_ids g)
  /\ Forall (fun row => length row = length (user_ids g)) (sim_matrix g).

(* ordered by descending similarity *)
Definition descending (res : list (Z * sim)) : Prop :=
  forall i j x y, (i <= j)%nat -> res !! i = Some x -> res !! j = Some y ->
    sim_le y.2 x.2 = true.

(* candidates of equal similarity come in ascending order of their id *)
Definition ties_by_ascending_id (res : list (Z * sim)) : Prop :=
  forall i j x y, (i < j)%nat -> res !! i = Some x -> res !! j = Some y ->
    sim_le x.2 y.2 = true -> sim_le y.2 x.2 = true -> (x.1 < y.1)%Z.

Definition is_embedding_column (c : string) : bool :=
  startswith "t_" c || startswith "e_" c.

(* three users, the second and third equally similar to the first *)
Definition three_users : CandidateGenerator :=
  let ids := [1; 2; 3]%Z in
  mkgen ids (index_ids ids)
        [[1; 0.5; 0.5]; [0.5; 1; 0.25]; [0.5; 0.25; 1]].

(* a frame without the user_id column *)
Definition no_id_frame : DataFrame :=
  mkdf ["name"; "t_0"; "e_0"]%string [].

Definition no_table (df : DataFrame) (cols : list string)
  : exn + list (list Q) := inr [].

End recall_vocabulary.

Section calendar_text_vocabulary.
Import Py Calendar.

(* the character of a decimal digit *)
Definition digit_char (n : Z) : ascii :=
  Ascii.ascii_of_nat (Z.to_nat (48 + n)%Z).

Definition two_digits (n : Z) : string :=
  String (digit_char (n / 10)%Z) (String (digit_char (n mod 10)%Z) EmptyString).

(* the ISO text of a date, YYYY-MM-DD with leading zeros, as
   date.isoformat() writes it *)
Definition iso_text (dt : date) : string :=
  String (digit_char (year dt / 1000)%Z)
    (String (digit_char (year dt / 100 mod 10)%Z)
       (String (digit_char (year dt / 10 mod 10)%Z)
          (String (digit_char (year dt mod 10)%Z)
             (String "-" (String.append (two_digits (month dt))
                            (String "-" (two_digits (day dt)))))))).

Definition may_10_1996 : date := mkdate 1996 5 10.

End calendar_text_vocabulary.

Section rows_vocabulary.
Import Py Calendar Features.

(* the weighted blend of the three indicators *)
Definition blend (mix : gmap string Q) (e h r : Z) : Q :=
  Features.mix mix "energy" 0.34 * inject_Z e
  + Features.mix mix "humor" 0.33 * inject_Z h
  + Features.mix mix "risk" 0.33 * inject_Z r.

(* the number of pairs of a candidate mapping *)
Definition pair_count (candidates : list (Z * list (Z * Q))) : nat :=
  sum_list (map (fun p => length p.2) candidates).

(* the two sample users, each a candidate of the other *)
Definition mutual_candidates : list (Z * list (Z * Q)) :=
  [(1%Z, [(2%Z, 0.9)]); (2%Z, [(1%Z, 0.9)])].
Definition mutual_rows : list FeatureRow :=
  default [] (build_features sample_records mutual_candidates ∅ (Some sample_filters)).

End rows_vocabulary.

Section frame_vocabulary.
Import Features Ranker.

(* what df.get(name, dflt) holds for a row: the cell of the column when the
   frame has it, the default otherwise *)
Definition cell_or (df : Frame) (r : gmap string Q) (name : string) (dflt : Q) : Q :=
  if has_column df name then default 0 (r !! name) else dflt.

(* the sample row with a confidence above the default threshold *)
Definition confident_row : FeatureRow :=
  mkrow 1 2 0.9 1 2 1 1 1 1 true true true 0.5 0.5.

(* a frame that has the similarity column only *)
Definition bare_row : gmap string Q := {[ "base_sim"%string := 0.5 ]}.
Definition bare_frame : Frame := mkframe ["base_sim"%string] [bare_row].

End frame_vocabulary.

Section columns_vocabulary.
Import Recall.

Definition mixed_frame : DataFrame :=
  mkdf ["user_id"; "t_1"; "name"; "e_0"; "t_0"]%string [].

End columns_vocabulary.

Section recommend_vocabulary.
Import Features Ranker Recall Pipeline Recommender.

(* what pandas promises of the indexer of a descending sort: a permutation
   of the positions along which the keys do not increase *)
Definition argsort_descending_contract (f : list Q -> list nat) : Prop :=
  forall a,
    f a ≡ₚ seq 0 (length a)
    /\ forall i j pi pj x y, (i <= j)%nat ->
         f a !! i = Some pi -> f a !! j = Some pj ->
         a !! pi = Some x -> a !! pj = Some y -> y <= x.

(* a reference for it: the stable ascending sort, reversed *)
Definition reference_descending (a : list Q) : list nat :=
  reverse (stable_argsort (map Fin a)).

(* the cell of a row, 0 when the row has none *)
Definition cell (r : gmap string Q) (name : string) : Q := default 0 (r !! name).

(* the additive score of a feature row *)
Definition row_score (self : AdditiveRanker) (row : FeatureRow) : Q :=
  w_sim self * base_sim row + w_comp self * comp_index row
  + calendar_weight self (vedic_confidence row) * vedic_lite_score row
  - age_penalty self * inject_Z (age_gap row).

(* a feature row after AdditiveRanker.score, and as recommend_for_user
   returns it, the score under its new name *)
Definition scored_cells (self : AdditiveRanker) (row : FeatureRow)
  : gmap string Q :=
  <["final_score"%string := row_score self row]>
    (<["prior"%string := prior_value self]>
       (<["novelty"%string := novelty_value self]> (cells row))).

Definition recommended_cells (self : AdditiveRanker) (row : FeatureRow)
  : gmap string Q :=
  <["compatibility_score"%string := row_score self row]>
    (delete "final_score"%string (scored_cells self row)).

(* the two sample users as a pipeline, with the default configuration *)
Definition sample_frame : DataFrame :=
  mkdf ["user_id"; "name"; "age"; "gender"; "city"; "tags"; "humor_style";
        "social_energy"; "risk_taking"; "gender_interest"; "min_age_pref";
        "max_age_pref"; "city_interest"; "birth_date"; "birth_city";
        "birth_time"; "t_0"]%string
       sample_records.

Definition sample_pipeline : RecommenderPipeline :=
  mkpipe empty_config sample_frame ["t_0"%string]
         (mkgen [1; 2]%Z (index_ids [1; 2]%Z) [[1; 0.9]; [0.9; 1]])
         (Ranker.init empty_config) 100.

End recommend_vocabulary.

Section groups_vocabulary.
Import Features Ranker Recall Pipeline Recommender.

(* what pandas promises of the indexer of a sort by two keys, the first
   ascending and the second descending *)
Definition lexsort_contract (f : list (Q * Q) -> list nat) : Prop :=
  forall a,
    f a ≡ₚ seq 0 (length a)
    /\ forall i j pi pj x y, (i <= j)%nat ->
         f a !! i = Some pi -> f a !! j = Some pj ->
         a !! pi = Some x -> a !! pj = Some y ->
         x.1 <= y.1 /\ (x.1 == y.1 -> y.2 <= x.2).

(* the three cells of a row of recommend_all *)
Definition pair_cells (self : AdditiveRanker) (row : FeatureRow)
  : gmap string Q :=
  list_to_map
    [("user_id", inject_Z (user_id row));
     ("match_id", inject_Z (match_id row));
     ("compatibility_score", row_score self row)]%string.

(* the order recommend_all sorts by: the user ascending, then the score
   descending *)
Definition by_user_then_score (self : AdditiveRanker) (x y : FeatureRow) : Prop :=
  (user_id x <= user_id y)%Z
  /\ (user_id x = user_id y -> row_score self y <= row_score self x).

(* a reference for the two-key indexer: the positions sorted by the
   pair of their keys *)
Definition pair_key (a : list (Q * Q)) (i : nat) : Q * Q := default (0, 0) (a !! i).

Definition user_then_score_leb (x y : Q * Q) : bool :=
  negb (Qle_bool y.1 x.1) || (Qeq_bool x.1 y.1 && Qle_bool y.2 x.2).

Definition reference_lexsort (a : list (Q * Q)) : list nat :=
  @merge_sort nat
    (fun i j => user_then_score_leb (pair_key a i) (pair_key a j) = true)
    (fun i j => decide (user_then_score_leb (pair_key a i) (pair_key a j) = true))
    (seq 0 (length a)).

Definition same_frame (df : Frame) (key : string) (n : Z) : Frame := df.

(* a pipeline over the first sample user alone *)
Definition lonely_frame : DataFrame :=
  mkdf (df_columns sample_frame) [liam].

Definition lonely_pipeline : RecommenderPipeline :=
  mkpipe empty_config lonely_frame ["t_0"%string]
         (mkgen [1]%Z (index_ids [1]%Z) [[1]])
         (Ranker.init empty_config) 100.

End groups_vocabulary.

Section calendar_facts.
Import Py Calendar.

Lemma Qltb_true a b : Py.Qltb a b = true <-> a < b.
Proof.
  unfold Py.Qltb. rewrite negb_true_iff. split; intros H.
  - apply Qnot_le_lt. intros Hle. apply Qle_bool_iff in Hle. congruence.
  - destruct (Qle_bool b a) eqn:E; [|done]. apply Qle_bool_iff in E. lra.
Qed.

Lemma Qltb_false a b : Py.Qltb a b = false <-> b <= a.
Proof.
  unfold Py.Qltb. rewrite negb_false_iff. apply Qle_bool_iff.
Qed.

Lemma py_max_spec a b : (a < b /\ Py.max a b = b) \/ (b <= a /\ Py.max a b = a).
Proof.
  unfold Py.max. destruct (Py.Qltb a b) eqn:E.
  - left. by apply Qltb_true in E.
  - right. by apply Qltb_false in E.
Qed.

Lemma py_min_spec a b : (b < a /\ Py.min a b = b) \/ (a <= b /\ Py.min a b = a).
Proof.
  unfold Py.min. destruct (Py.Qltb b a) eqn:E.
  - left. by apply Qltb_true in E.
  - right. by apply Qltb_false in E.
Qed.

Lemma py_max_Qmax a b : Py.max a b == Qmax a b.
Proof.
  destruct (py_max_spec a b) as [[H ->]|[H ->]].
  - symmetry. apply Q.max_r. lra.
  - symmetry. apply Q.max_l. lra.
Qed.

Lemma py_min_Qmin a b : Py.min a b == Qmin a b.
Proof.
  destruct (py_min_spec a b) as [[H ->]|[H ->]].
  - symmetry. apply Q.min_r. lra.
  - symmetry. apply Q.min_l. lra.
Qed.


Lemma days_before_month_bounds y m :
  (1 <= m <= 12)%Z ->
  (0 <= days_before_month y m
   /\ days_before_month y m + days_in_month y m <= 366)%Z.
Proof.
  intros Hm.
  assert (Hc : m = 1%Z \/ m = 2%Z \/ m = 3%Z \/ m = 4%Z \/ m = 5%Z \/ m = 6%Z
               \/ m = 7%Z \/ m = 8%Z \/ m = 9%Z \/ m = 10%Z \/ m = 11%Z \/ m = 12%Z) by lia.
  unfold days_before_month, days_in_month.
  destruct (is_leap y);
    repeat (destruct Hc as [->|Hc]; [vm_compute; split; discriminate|]);
    subst; vm_compute; split; discriminate.
Qed.

Lemma make_date_yday y m d dt :
  make_date y m d = Some dt -> (1 <= tm_yday dt <= 366)%Z.
Proof.
  unfold make_date. intros H.
  destruct ((1 <=? y)%Z && (y <=? 9999)%Z && (1 <=? m)%Z && (m <=? 12)%Z
            && (1 <=? d)%Z && (d <=? days_in_month y m)%Z) eqn:E; [|done].
  inversion H; subst; clear H.
  repeat (apply andb_prop in E as [E ?]).
  unfold tm_yday; simpl.
  pose proof (days_before_month_bounds y m). lia.
Qed.

Lemma parse_date_made s dt :
  _parse_date s = Some dt -> exists y m d, make_date y m d = Some dt.
Proof.
  unfold _parse_date. intros H.
  repeat case_match; try discriminate; eauto.
Qed.

Lemma parse_date_yday s dt :
  _parse_date s = Some dt -> (1 <= tm_yday dt <= 366)%Z.
Proof.
  intros H. apply parse_date_made in H as (y & m & d & H).
  by eapply make_date_yday.
Qed.

Lemma wrapped_diff_distance a b :
  (1 <= a <= 366)%Z -> (1 <= b <= 366)%Z ->
  wrapped_diff a b = doy_distance a b.
Proof.
  unfold wrapped_diff, doy_distance. intros Ha Hb.
  Z.to_euclidean_division_equations. lia.
Qed.

Lemma wrapped_diff_range a b :
  (1 <= a <= 366)%Z -> (1 <= b <= 366)%Z -> (0 <= wrapped_diff a b <= 182)%Z.
Proof. unfold wrapped_diff. lia. Qed.

Lemma kernel_score_blend (d : Z) :
  (0 <= d)%Z ->
  kernel_score d
  == clamp01 (0.6 * triangular 0 (inject_Z d) + 0.4 * triangular 182.5 (inject_Z d)).
Proof.
  intros Hd. unfold kernel_score, clamp01, triangular.
  rewrite py_min_Qmin, py_max_Qmax.
  assert (Hq : 0 <= inject_Z d) by (change 0 with (inject_Z 0); by rewrite <- Zle_Qle).
  assert (Hs : Py.max (1 - inject_Z d / 91.25) 0
               == Qmax 0 (1 - Qabs (inject_Z d - 0) / 91.25)).
  { rewrite py_max_Qmax, Q.max_comm.
    assert (Ha : Qabs (inject_Z d - 0) == inject_Z d)
      by (rewrite Qabs_pos; lra).
    by rewrite Ha. }
  assert (Ho : Py.max (1 - Qabs (inject_Z d - 182.5) / 91.25) 0
               == Qmax 0 (1 - Qabs (inject_Z d - 182.5) / 91.25)).
  { by rewrite py_max_Qmax, Q.max_comm. }
  by rewrite Hs, Ho.
Qed.

(** C4: for two dates that parse, the calendar score is the clamp to [0,1]
    of 0.6 times the triangular kernel around distance 0 plus 0.4 times
    the one around 182.5, the distance of the two days of the year taken
    on a circle of 365 days; for the two identical dates "2000-01-01" the
    score is 0.6, all of it from the same-season kernel. *)
Theorem calendar_score_kernels (a b : string) (da db : date) :
  _parse_date a = Some da -> _parse_date b = Some db ->
  vedic_lite_weighted_score a b == blended_score da db
  /\ vedic_lite_weighted_score "2000-01-01" "2000-01-01" == 0.6
  /\ 0.6 * triangular 0 0 == 0.6
  /\ 0.4 * triangular 182.5 0 == 0.
Proof.
  intros Ha Hb. split; [|repeat split; reflexivity].
  unfold vedic_lite_weighted_score, blended_score. rewrite Ha, Hb.
  pose proof (parse_date_yday _ _ Ha). pose proof (parse_date_yday _ _ Hb).
  rewrite <- wrapped_diff_distance by done.
  apply kernel_score_blend. pose proof (wrapped_diff_range (tm_yday da) (tm_yday db)). lia.
Qed.

Lemma calendar_score_kernels_witness :
  vedic_lite_weighted_score "1996-05-10" "1998-11-08"
  == blended_score (mkdate 1996 5 10) (mkdate 1998 11 8).
Proof.
  exact (proj1 (calendar_score_kernels "1996-05-10" "1998-11-08"
                  (mkdate 1996 5 10) (mkdate 1998 11 8) eq_refl eq_refl)).
Defined.

(** C9: the calendar score of two texts does not depend on their order,
    whether they parse as dates or not. *)
Theorem calendar_score_symmetric (a b : string) :
  vedic_lite_weighted_score a b = vedic_lite_weighted_score b a.
Proof.
  unfold vedic_lite_weighted_score.
  destruct (_parse_date a) as [da|], (_parse_date b) as [db|]; try reflexivity.
  f_equal. unfold wrapped_diff.
  replace (Z.abs (tm_yday db - tm_yday da)) with (Z.abs (tm_yday da - tm_yday db)) by lia.
  reflexivity.
Qed.
End calendar_facts.

Section features_calendar.
Import Py Calendar Features.

Lemma clamp_bounds x : 0 <= Py.max 0 (Py.min 1 x) <= 1.
Proof.
  destruct (py_min_spec 1 x) as [[? ->]|[? ->]];
    [destruct (py_max_spec 0 x) as [[? ->]|[? ->]]
    |destruct (py_max_spec 0 1) as [[? ->]|[? ->]]]; lra.
Qed.

Lemma kernel_score_bounds d : 0 <= kernel_score d <= 1.
Proof.
  unfold kernel_score.
  set (x := 0.6 * _ + 0.4 * _).
  destruct (py_max_spec 0 x) as [[? ->]|[? ->]];
    [destruct (py_min_spec 1 x) as [[? ->]|[? ->]]
    |destruct (py_min_spec 1 0) as [[? ->]|[? ->]]]; lra.
Qed.

Lemma score_bounds a b : 0 <= vedic_lite_weighted_score a b <= 1.
Proof.
  unfold vedic_lite_weighted_score.
  destruct (_parse_date a), (_parse_date b); try lra; apply kernel_score_bounds.
Qed.

Lemma score_malformed a b :
  _parse_date a = None \/ _parse_date b = None ->
  vedic_lite_weighted_score a b = 0.
Proof.
  unfold vedic_lite_weighted_score. intros [-> | ->]; [done|].
  by destruct (_parse_date a).
Qed.

Lemma item_in_range table i :
  (0 <= i < Z.of_nat (length table))%Z -> is_Some (item table i).
Proof. intros H. unfold item. apply lookup_lt_is_Some. lia. Qed.

Lemma hindu_date_total d lat lon tz dt :
  _parse_date d = Some dt ->
  exists h, hindu_date_from_date d lat lon tz = Some h
            /\ confidence h = confidence_of lat (tm_yday dt).
Proof.
  intros H. unfold hindu_date_from_date. rewrite H; simpl.
  destruct (item_in_range TITHIS ((tm_yday dt * 3) mod 30)) as [t ->].
  { change (length TITHIS) with 30%nat. Z.to_euclidean_division_equations; lia. }
  destruct (item_in_range PAKSHAS ((tm_yday dt / 15) mod 2)) as [p ->].
  { change (length PAKSHAS) with 2%nat. Z.to_euclidean_division_equations; lia. }
  destruct (item_in_range NAKSHATRAS (tm_yday dt mod 27)) as [n ->].
  { change (length NAKSHATRAS) with 27%nat. Z.to_euclidean_division_equations; lia. }
  destruct (item_in_range YOGAS ((tm_yday dt * 2) mod 27)) as [y ->].
  { change (length YOGAS) with 27%nat. Z.to_euclidean_division_equations; lia. }
  simpl. eauto.
Qed.

Lemma hindu_date_malformed d lat lon tz :
  _parse_date d = None -> hindu_date_from_date d lat lon tz = None.
Proof. intros H. unfold hindu_date_from_date. by rewrite H. Qed.

Lemma normalize_str s : _normalize_text (PStr s) = Some (lower (strip s)).
Proof. unfold _normalize_text, por; simpl. by destruct s. Qed.




Lemma geocode_text v : text_cell v -> is_Some (_city_geocode v).
Proof.
  destruct v as [| | |s]; simpl; try done.
  intros _. unfold _city_geocode.
  destruct (negb (truthy (PStr s))); [by eexists|].
  rewrite normalize_str; simpl. by eexists.
Qed.

Lemma has_birth_time_total x : is_Some (has_birth_time x).
Proof. unfold has_birth_time. rewrite normalize_str; simpl. by eexists. Qed.

Lemma confidence_try_bounds u c ud cd ug cg k :
  confidence_try u c ud cd ug cg = Some k -> 0 <= k <= 1.
Proof.
  unfold confidence_try. destruct ug as [[? ?] ?], cg as [[? ?] ?].
  intros H. repeat (simplify_option_eq; try case_match).
  all: apply clamp_bounds.
Qed.

Lemma confidence_try_malformed u c ud cd ug cg :
  _parse_date ud = None \/ _parse_date cd = None ->
  confidence_try u c ud cd ug cg = None.
Proof.
  unfold confidence_try. destruct ug as [[? ?] ?], cg as [[? ?] ?].
  intros [H|H].
  - rewrite (hindu_date_malformed ud _ _ _ H). reflexivity.
  - destruct (hindu_date_from_date ud _ _ _); simpl; [|reflexivity].
    rewrite (hindu_date_malformed cd _ _ _ H). reflexivity.
Qed.

Lemma vedic_block_total (u c : pydict) :
  text_cell (get u "birth_city") -> text_cell (get c "birth_city") ->
  exists s k,
    vedic_block u c = Some (s, k)
    /\ 0 <= s <= 1 /\ 0 <= k <= 1
    /\ (~ (valid_iso (dob u) /\ valid_iso (dob c)) -> s = 0 /\ k = 0).
Proof.
  intros Hu Hc.
  destruct (geocode_text _ Hu) as [ug Hug], (geocode_text _ Hc) as [cg Hcg].
  unfold vedic_block. rewrite !normalize_str; simpl.
  fold (dob u); fold (dob c).
  destruct (negb (String.eqb (dob u) "") && negb (String.eqb (dob c) "")
            && (String.length (dob u) =? 10)%nat
            && (String.length (dob c) =? 10)%nat) eqn:E.
  - rewrite Hug, Hcg; simpl.
    repeat (apply andb_prop in E as [E ?]).
    destruct (confidence_try u c (dob u) (dob c) ug cg) as [k|] eqn:Ek.
    + exists (vedic_lite_weighted_score (dob u) (dob c)), k.
      split; [done|]. split; [apply score_bounds|].
      split; [by eapply confidence_try_bounds|].
      intros Hn. exfalso. apply Hn.
      destruct (_parse_date (dob u)) eqn:Pu, (_parse_date (dob c)) eqn:Pc;
        try (rewrite confidence_try_malformed in Ek by auto; discriminate).
      unfold valid_iso. rewrite Pu, Pc.
      repeat split; try done; by apply Nat.eqb_eq.
    + exists 0, 0. repeat split; lra.
  - exists 0, 0. repeat split; lra.
Qed.
(* With birth-place cells that are text or absent the calendar path does
   not raise: the score function returns a value in [0,1], which is 0 when
   a text does not parse, and the calendar block returns a score and a
   confidence in [0,1], both 0 unless both dates are 10-character texts
   that strptime accepts. *)
Lemma calendar_path_on_text_cities (u c : pydict) (a b : string) :
  text_cell (get u "birth_city") -> text_cell (get c "birth_city") ->
  (0 <= vedic_lite_weighted_score a b <= 1
   /\ (_parse_date a = None \/ _parse_date b = None ->
       vedic_lite_weighted_score a b = 0))
  /\ exists s k,
       vedic_block u c = Some (s, k)
       /\ 0 <= s <= 1 /\ 0 <= k <= 1
       /\ (~ (valid_iso (dob u) /\ valid_iso (dob c)) -> s = 0 /\ k = 0).
Proof.
  intros Hu Hc. split.
  - split; [apply score_bounds|apply score_malformed].
  - by apply vedic_block_total.
Qed.

(* a NaN cell is truthy, and has no strip method *)
Lemma geocode_nan : _city_geocode PNaN = None.
Proof. reflexivity. Qed.

(** C5, evaluated where the code departs from it: two users with the valid
    birth date 2000-01-01 and a birth_city cell that is NaN (an empty cell
    of the CSV file).  The place lookup _city_geocode is called before the
    try block and raises on the NaN cell, so the calendar block raises and
    build_features with it, where the claim has a score and a confidence in
    [0,1]; with the birth_city key absent the same pair gets its row.
    Besides, the 10-character text 2000-01- 1 is not an ISO date, yet
    strptime accepts it and the score is 0.6, not 0. *)
Theorem calendar_path_raises_on_nan_city :
  let u := nan_city_user 1 in
  let c := nan_city_user 2 in
  let candidates := [(1%Z, [(2%Z, 0.9)])] in
  (valid_iso (dob u) /\ valid_iso (dob c)
   /\ vedic_lite_weighted_score (dob u) (dob c) == 0.6)
  /\ (_city_geocode (get u "birth_city") = None
      /\ vedic_block u c = None
      /\ build_features [u; c] candidates ∅ None = None)
  /\ (exists row,
        build_features [delete "birth_city"%string u; delete "birth_city"%string c]
          candidates ∅ None = Some [row]
        /\ vedic_lite_score row == 0.6 /\ 0 <= vedic_confidence row <= 1)
  /\ (String.length "2000-01- 1" = 10%nat
      /\ _parse_date "2000-01- 1" = Some (mkdate 2000 1 1)
      /\ vedic_lite_weighted_score "2000-01- 1" "2000-01- 1" == 0.6).
Proof.
  cbv zeta. split; [|split; [|split]].
  - split; [split; [reflexivity|by eexists]|].
    split; [split; [reflexivity|by eexists]|]. by vm_compute.
  - split; [apply geocode_nan|]. split; by vm_compute.
  - eexists. split; [vm_compute; reflexivity|].
    split; [by vm_compute|]. split; vm_compute; congruence.
  - split; [reflexivity|]. split; by vm_compute.
Qed.

End features_calendar.

Section confidence_facts.
Import Py Calendar Features.






Lemma lower_empty s : lower s = ""%string <-> s = ""%string.
Proof. by destruct s. Qed.

Lemma has_birth_time_present x :
  time_cell x -> has_birth_time x = Some (birth_time_present x).
Proof.
  unfold time_cell, has_birth_time, birth_time_present, get_or.
  destruct (x !! "birth_time"%string) as [[| | |s]|]; simpl; try done.
  intros _. rewrite normalize_str. simpl. f_equal. f_equal.
  destruct (strip s); reflexivity.
Qed.

Lemma confidence_of_bounds lat doy : 0 <= confidence_of lat doy <= 1.
Proof. unfold confidence_of. apply clamp_bounds. Qed.

Lemma clamp_id x : 0 <= x <= 1 -> Py.max 0 (Py.min 1 x) == x.
Proof.
  intros Hx.
  destruct (py_min_spec 1 x) as [[? ->]|[? ->]];
    [destruct (py_max_spec 0 x) as [[? ->]|[? ->]]
    |destruct (py_max_spec 0 1) as [[? ->]|[? ->]]]; lra.
Qed.

Lemma boosted_bounds b x :
  0 <= x <= 1 -> 0 <= (if b : bool then Py.min 1 (x + 0.15) else x) <= 1.
Proof.
  intros Hx. destruct b; [|done].
  destruct (py_min_spec 1 (x + 0.15)) as [[? ->]|[? ->]]; lra.
Qed.

Lemma boosted_Qmin b x :
  (if b : bool then Py.min 1 (x + 0.15) else x)
  == (if b then Qmin 1 (x + 0.15) else x).
Proof. destruct b; [apply py_min_Qmin|reflexivity]. Qed.

Lemma pair_confidence_is_min (u c : pydict) (du dc : date) :
  text_cell (get u "birth_city") -> text_cell (get c "birth_city") ->
  time_cell u -> time_cell c ->
  String.length (dob u) = 10%nat -> String.length (dob c) = 10%nat ->
  _parse_date (dob u) = Some du -> _parse_date (dob c) = Some dc ->
  exists s k, vedic_block u c = Some (s, k)
    /\ k == claimed_pair_confidence u c du dc
    /\ 0 <= k <= 1.
Proof.
  intros Hu Hc Tu Tc Lu Lc Pu Pc.
  destruct (geocode_text _ Hu) as [[[ulat ulon] utz] Hug].
  destruct (geocode_text _ Hc) as [[[clat clon] ctz] Hcg].
  unfold vedic_block. rewrite !normalize_str; simpl.
  fold (dob u); fold (dob c).
  assert (Eu : String.eqb (dob u) "" = false) by (by destruct (dob u)).
  assert (Ec : String.eqb (dob c) "" = false) by (by destruct (dob c)).
  rewrite Eu, Ec, Lu, Lc. simpl. rewrite Hug, Hcg. simpl.
  unfold confidence_try.
  destruct (hindu_date_total (dob u) ulat ulon utz du Pu) as (hu & -> & Cu).
  destruct (hindu_date_total (dob c) clat clon ctz dc Pc) as (hc & -> & Cc).
  simpl. rewrite (has_birth_time_present u Tu), (has_birth_time_present c Tc).
  simpl. eexists _, _. split; [reflexivity|].
  rewrite Cu, Cc.
  unfold claimed_pair_confidence, person_confidence, latitude_of.
  rewrite Hug, Hcg.
  set (bu := confidence_of ulat (tm_yday du)).
  set (bc := confidence_of clat (tm_yday dc)).
  pose proof (boosted_bounds (birth_time_present u) bu (confidence_of_bounds _ _)) as Bu.
  pose proof (boosted_bounds (birth_time_present c) bc (confidence_of_bounds _ _)) as Bc.
  rewrite <- (boosted_Qmin (birth_time_present u) bu).
  rewrite <- (boosted_Qmin (birth_time_present c) bc).
  set (pu := if birth_time_present u then _ else _) in *.
  set (pc := if birth_time_present c then _ else _) in *.
  rewrite <- (py_min_Qmin pu pc).
  assert (Bm : 0 <= Py.min pu pc <= 1)
    by (destruct (py_min_spec pu pc) as [[? ->]|[? ->]]; lra).
  split; [by apply clamp_id|apply clamp_bounds].
Qed.


(** C6, evaluated where the code departs from it: two users whose
    birth_time cell is NaN (an empty cell of the CSV file) have no birth
    time, yet the feature engine adds the bonus of 0.15 to both, so the
    confidence of the pair is not the minimum of the two confidences the
    claim describes. *)
Theorem birth_time_nan_gets_bonus :
  let u := nan_time_user 1 in
  let c := nan_time_user 2 in
  let d := mkdate 2000 1 1 in
  _parse_date (dob u) = Some d /\ _parse_date (dob c) = Some d
  /\ birth_time_present u = false /\ birth_time_present c = false
  /\ exists s k, vedic_block u c = Some (s, k)
       /\ k == confidence_of (latitude_of u) (tm_yday d) + 0.15
       /\ claimed_pair_confidence u c d d == confidence_of (latitude_of u) (tm_yday d)
       /\ ~ k == claimed_pair_confidence u c d d.
Proof.
  cbv zeta. repeat split; try reflexivity.
  eexists _, _. split; [vm_compute; reflexivity|].
  split; [|split]; vm_compute; congruence.
Qed.
End confidence_facts.

Section features_filters.
Import Py Features.






Lemma pair_row_inv uid u us cid sim c mix f row :
  pair_row uid u us cid sim c mix f = Some (Some row) ->
  user_id row = uid /\ match_id row = cid /\ base_sim row = sim
  /\ exists fl, _hard_filter_flags u c f = Some fl /\ all_pass fl = true.
Proof.
  unfold pair_row. intros H.
  destruct (_hard_filter_flags u c f) as [fl|]; [|done]. simpl in H.
  destruct (all_pass fl) eqn:Ep; simpl in H; [|done].
  destruct (side_of c) as [cs|]; [|done]. simpl in H.
  destruct (vedic_block u c) as [[vs vc]|]; [|done]. simpl in H.
  inversion H; subst; simpl. eauto 10.
Qed.


Lemma candidate_rows_sound by_id uid u us cands mix f rows row :
  candidate_rows by_id uid u us cands mix f = Some rows ->
  row ∈ rows ->
  exists cid sim c, (cid, sim) ∈ cands /\ by_id !! cid = Some c
    /\ pair_row uid u us cid sim c mix f = Some (Some row).
Proof.
  revert rows. induction cands as [|[cid sim] rest IH]; intros rows H Hin.
  - inversion H; subst. by apply elem_of_nil in Hin.
  - simpl in H.
    destruct (candidate_rows by_id uid u us rest mix f) as [more|] eqn:Em;
      [|by destruct (if falsy_record (by_id !! cid) then _ else _)].
    assert (Hrest : row ∈ more ->
              exists cid0 sim0 c, (cid0, sim0) ∈ (cid, sim) :: rest
                /\ by_id !! cid0 = Some c
                /\ pair_row uid u us cid0 sim0 c mix f = Some (Some row)).
    { intros Hm. destruct (IH more eq_refl Hm) as (a & b & c & ? & ? & ?).
      exists a, b, c. split; [by apply list_elem_of_further|done]. }
    destruct (falsy_record (by_id !! cid)).
    + simpl in H. inversion H; subst. auto.
    + destruct (by_id !! cid) as [c|] eqn:Ec.
      * destruct (pair_row uid u us cid sim c mix f) as [[r|]|] eqn:Ep;
          simpl in H; inversion H; subst; auto.
        apply elem_of_cons in Hin as [->|Hin]; auto.
        exists cid, sim, c. split; [apply list_elem_of_here|done].
      * simpl in H. inversion H; subst. auto.
Qed.


Lemma user_rows_sound by_id candidates mix f rows row :
  user_rows by_id candidates mix f = Some rows ->
  row ∈ rows ->
  exists uid cands u us rs, (uid, cands) ∈ candidates /\ by_id !! uid = Some u
    /\ side_of u = Some us
    /\ candidate_rows by_id uid u us cands mix f = Some rs /\ row ∈ rs.
Proof.
  revert rows. induction candidates as [|[uid cands] rest IH]; intros rows H Hin.
  - inversion H; subst. by apply elem_of_nil in Hin.
  - simpl in H.
    destruct (user_rows by_id rest mix f) as [more|] eqn:Em;
      [|by destruct (if falsy_record (by_id !! uid) then _ else _)].
    assert (Hrest : row ∈ more ->
      exists uid0 cands0 u us rs, (uid0, cands0) ∈ (uid, cands) :: rest
        /\ by_id !! uid0 = Some u /\ side_of u = Some us
        /\ candidate_rows by_id uid0 u us cands0 mix f = Some rs /\ row ∈ rs).
    { intros Hm. destruct (IH more eq_refl Hm) as (a & b & u & us & rs & ? & ?).
      exists a, b, u, us, rs. split; [by apply list_elem_of_further|done]. }
    destruct (falsy_record (by_id !! uid)).
    + simpl in H. inversion H; subst. auto.
    + destruct (by_id !! uid) as [u|] eqn:Eu.
      * destruct (side_of u) as [us|] eqn:Es; [|done]. simpl in H.
        destruct (candidate_rows by_id uid u us cands mix f) as [here|] eqn:Eh; [|done].
        simpl in H. inversion H; subst.
        apply elem_of_app in Hin as [Hin|Hin]; auto.
        exists uid, cands, u, us, here. split; [apply list_elem_of_here|done].
      * simpl in H. inversion H; subst. auto.
Qed.





End features_filters.

Section age_filter_facts.
Import Py Features.
Local Open Scope Z_scope.

(* the cells _int_or_none turns into None: nothing, NaN, and a text that
   int() rejects *)
Lemma missing_age_is_none (c : pydict) :
  match c !! "age"%string with
  | None | Some PNone | Some PNaN => True
  | Some (PStr s) => int_of_string s = None
  | Some (PInt _) => False
  end ->
  _int_or_none (get c "age") = None.
Proof.
  unfold get. destruct (c !! "age"%string) as [[| | |s]|]; simpl; try done.
  intros H. destruct s; [done|]. simpl. by rewrite H.
Qed.

(** C10, amended: with the age filter on, a candidate whose age is missing
    or not a number counts as age 0: the pair passes the age filter exactly
    when the minimum-age preference is absent or at most 0 and the
    maximum-age preference is absent or at least 0; for a user whose
    minimum is above 0 the flag is false and the pair yields no row. *)
Theorem age_filter_missing_age (u c : pydict) (filters : gmap string bool) :
  toggle filters "age" = true ->
  _int_or_none (get c "age") = None ->
  (age_flag u c filters = true
   <-> (forall m, _int_or_none (get u "min_age_pref") = Some m -> m <= 0)
       /\ (forall m, _int_or_none (get u "max_age_pref") = Some m -> 0 <= m))
  /\ (forall m, _int_or_none (get u "min_age_pref") = Some m -> 0 < m ->
        age_flag u c filters = false
        /\ forall uid us cid sim mix row,
             pair_row uid u us cid sim c mix filters <> Some (Some row)).
Proof.
  intros Ht Hc.
  assert (Hflag : age_flag u c filters = true
   <-> (forall m, _int_or_none (get u "min_age_pref") = Some m -> m <= 0)
       /\ (forall m, _int_or_none (get u "max_age_pref") = Some m -> 0 <= m)).
  { unfold age_flag. rewrite Ht, Hc.
    destruct (_int_or_none (get u "min_age_pref")) as [mn|],
             (_int_or_none (get u "max_age_pref")) as [mx|]; simpl;
      repeat match goal with
             | |- context [(?a <? ?b)] => destruct (Z.ltb_spec a b)
             end;
      (split;
       [ intros Hx; try discriminate Hx;
         split; intros ? Hy; try discriminate Hy; inversion Hy; subst; lia
       | intros [H1 H2]; try reflexivity;
         try (specialize (H1 _ eq_refl); lia);
         try (specialize (H2 _ eq_refl); lia) ]). }
  split; [done|]. intros m Hm Hpos.
  assert (Hf : age_flag u c filters = false).
  { apply not_true_is_false. intros E.
    apply Hflag in E as [H1 _]. specialize (H1 _ Hm). lia. }
  split; [done|]. intros uid us cid sim mix row Hrow.
  apply pair_row_inv in Hrow as (_ & _ & _ & fl & Hfl & Hp).
  unfold _hard_filter_flags in Hfl.
  destruct (gender_flag u c filters); [|done]. simpl in Hfl.
  destruct (city_flag u c filters); [|done]. simpl in Hfl.
  inversion Hfl; subst. unfold all_pass in Hp. simpl in Hp.
  rewrite Hf in Hp. by rewrite andb_false_r in Hp.
Qed.


Lemma age_filter_missing_age_witness :
  age_flag liam ageless_candidate age_only = false.
Proof.
  exact (proj1 (proj2 (age_filter_missing_age liam ageless_candidate age_only
                         eq_refl eq_refl) 26%Z eq_refl eq_refl)).
Defined.

(* C10 as stated fails for a user whose minimum-age preference is 0: the
   pair passes although the user has a minimum-age preference. *)
Lemma age_filter_zero_minimum :
  toggle age_only "age" = true
  /\ _int_or_none (get ageless_candidate "age") = None
  /\ ~ (age_flag zero_min_user ageless_candidate age_only = true
        <-> _int_or_none (get zero_min_user "min_age_pref") = None
            /\ forall m, _int_or_none (get zero_min_user "max_age_pref") = Some m -> 0 <= m).
Proof.
  split; [reflexivity|]. split; [reflexivity|].
  intros [H _]. specialize (H eq_refl) as [H _]. discriminate H.
Qed.
End age_filter_facts.

Section features_total.
Import Py Features.




Lemma text_get_or r k d : text_cell (get r k) -> text_cell (get_or r k (PStr d)).
Proof. unfold get, get_or. by destruct (r !! k). Qed.

Lemma normalize_text_total v : text_cell v -> is_Some (_normalize_text v).
Proof.
  destruct v as [| | |s]; intros H; [|destruct H|destruct H|].
  - eexists; reflexivity.
  - rewrite normalize_str. eexists; reflexivity.
Qed.

Ltac text_column := unfold text_columns; set_solver.

Lemma typed_text r k : typed_record r -> k ∈ text_columns -> text_cell (get r k).
Proof. intros (_ & H & _) Hk. rewrite Forall_forall in H. by apply H. Qed.


Lemma side_of_total r : typed_record r -> is_Some (side_of r).
Proof.
  intros Ht. unfold side_of.
  assert (Ha : is_Some (int (por (get_or r "age" (PInt 0)) (PInt 0)))).
  { destruct Ht as (_ & _ & Ha). unfold get, get_or in *.
    destruct (r !! "age"%string) as [[| | |]|]; simpl in *; try done;
      unfold por; simpl; try ((eexists; reflexivity)).
    destruct (negb _); eexists; reflexivity. }
  destruct Ha as [a ->]. simpl.
  assert (He : is_Some (_normalize_text (get_or r "social_energy" (PStr "")))).
  { apply normalize_text_total, text_get_or, typed_text; [done|text_column]. }
  assert (Hh : is_Some (_normalize_text (get_or r "humor_style" (PStr "")))).
  { apply normalize_text_total, text_get_or, typed_text; [done|text_column]. }
  assert (Hr : is_Some (_normalize_text (get_or r "risk_taking" (PStr "")))).
  { apply normalize_text_total, text_get_or, typed_text; [done|text_column]. }
  destruct He as [e He], Hh as [h Hh], Hr as [k Hr].
  unfold _energy_bucket, _humor_is_dark, _humor_is_wholesome, _risk_bucket.
  rewrite He, Hh, Hr. simpl.
  repeat case_match; (eexists; reflexivity).
Qed.

Lemma flags_total u c f :
  typed_record u -> typed_record c -> is_Some (_hard_filter_flags u c f).
Proof.
  intros Hu Hc. unfold _hard_filter_flags.
  assert (Hg : is_Some (gender_flag u c f)).
  { unfold gender_flag. repeat case_match; try (eexists; reflexivity).
    destruct (normalize_text_total (get_or c "gender" (PStr ""))) as [g ->];
      [apply text_get_or, typed_text; [done|text_column]|]. (eexists; reflexivity). }
  assert (Hci : is_Some (city_flag u c f)).
  { unfold city_flag. destruct (toggle f "city"); [|(eexists; reflexivity)].
    destruct (normalize_text_total (get_or u "city_interest" (PStr "any"))) as [p ->];
      [apply text_get_or, typed_text; [done|text_column]|]. simpl.
    destruct (_ && _); [|(eexists; reflexivity)].
    destruct (normalize_text_total (get_or c "city" (PStr ""))) as [cc ->];
      [apply text_get_or, typed_text; [done|text_column]|]. (eexists; reflexivity). }
  destruct Hg as [g ->], Hci as [ci ->]. (eexists; reflexivity).
Qed.

Lemma pair_row_total uid u us cid sim c mix f :
  typed_record u -> typed_record c ->
  is_Some (pair_row uid u us cid sim c mix f).
Proof.
  intros Hu Hc. unfold pair_row.
  destruct (flags_total u c f Hu Hc) as [fl ->]. simpl.
  destruct (negb (all_pass fl)); [(eexists; reflexivity)|].
  destruct (side_of_total c Hc) as [cs ->]. simpl.
  destruct (vedic_block_total u c) as (s & k & -> & _).
  - apply typed_text; [done|text_column].
  - apply typed_text; [done|text_column].
  - (eexists; reflexivity).
Qed.

Lemma candidate_rows_total by_id uid u us cands mix f :
  typed_record u -> (forall k r, by_id !! k = Some r -> typed_record r) ->
  is_Some (candidate_rows by_id uid u us cands mix f).
Proof.
  intros Hu Hall. induction cands as [|[cid sim] rest [more IH]]; simpl; [(eexists; reflexivity)|].
  rewrite IH. destruct (falsy_record (by_id !! cid)); [(eexists; reflexivity)|].
  destruct (by_id !! cid) as [c|] eqn:Ec; [|(eexists; reflexivity)].
  destruct (pair_row_total uid u us cid sim c mix f Hu (Hall _ _ Ec)) as [o ->].
  (eexists; reflexivity).
Qed.

Lemma user_rows_total by_id candidates mix f :
  (forall k r, by_id !! k = Some r -> typed_record r) ->
  is_Some (user_rows by_id candidates mix f).
Proof.
  intros Hall. induction candidates as [|[uid cands] rest [more IH]]; simpl; [(eexists; reflexivity)|].
  rewrite IH. destruct (falsy_record (by_id !! uid)); [(eexists; reflexivity)|].
  destruct (by_id !! uid) as [u|] eqn:Eu; [|(eexists; reflexivity)].
  destruct (side_of_total u (Hall _ _ Eu)) as [us ->]. simpl.
  destruct (candidate_rows_total by_id uid u us cands mix f (Hall _ _ Eu) Hall) as [rs ->].
  (eexists; reflexivity).
Qed.

Lemma index_records_total records acc :
  Forall typed_record records ->
  (forall k r, acc !! k = Some r -> typed_record r) ->
  exists by_id, index_records records acc = Some by_id
    /\ forall k r, by_id !! k = Some r -> typed_record r.
Proof.
  intros Hr. revert acc. induction Hr as [|r rest Ht _ IH]; intros acc Hacc; simpl.
  - eauto.
  - destruct Ht as ((z & Hz) & Hrest). rewrite Hz. simpl.
    apply IH. intros k r' Hk. destruct (decide (z = k)) as [->|Hne].
    + rewrite lookup_insert_eq in Hk. inversion Hk; subst. split; eauto.
    + rewrite lookup_insert_ne in Hk by done. eauto.
Qed.

Lemma build_features_total records candidates mix filters :
  Forall typed_record records ->
  is_Some (build_features records candidates mix filters).
Proof.
  intros Hr. unfold build_features.
  destruct (index_records_total records ∅ Hr) as (by_id & -> & Hall).
  { intros k r. by rewrite lookup_empty. }
  simpl. by apply user_rows_total.
Qed.
End features_total.

Section ranker_facts.
Import Features Ranker.

Lemma lookup_map {A B} (f : A -> B) (l : list A) (i : nat) :
  map f l !! i = f <$> (l !! i).
Proof. exact (list_lookup_fmap f l i). Qed.

Lemma assign_lookup df name vals i r v :
  rows df !! i = Some r -> vals !! i = Some v ->
  rows (assign df name vals) !! i = Some (<[name := v]> r).
Proof.
  intros Hr Hv. unfold assign; simpl.
  rewrite lookup_zip_with, Hr; simpl. by rewrite Hv.
Qed.

Lemma assign_scalar_lookup df name v i r :
  rows df !! i = Some r ->
  rows (assign_scalar df name v) !! i = Some (<[name := v]> r).
Proof.
  intros Hr. unfold assign_scalar. apply assign_lookup; [done|].
  by rewrite lookup_map, Hr.
Qed.

Lemma series_lookup df name i r :
  rows df !! i = Some r ->
  series df name !! i = Some (default 0 (r !! name)).
Proof. intros Hr. unfold series. by rewrite lookup_map, Hr. Qed.

Lemma get_lookup df name d i r :
  rows df !! i = Some r ->
  get df name d !! i
  = Some (if has_column df name then default 0 (r !! name) else d).
Proof.
  intros Hr. unfold get. destruct (has_column df name).
  - by apply series_lookup.
  - by rewrite lookup_map, Hr.
Qed.


Lemma final_score_at_row df i r :
  rows df !! i = Some r -> final_score_at df i = r !! "final_score"%string.
Proof. intros H. unfold final_score_at. rewrite H. reflexivity. Qed.

(** C1: for every feature row, the final score the ranker writes is
    w_sim * base_sim + w_comp * comp_index + w_cal * vedic_lite_score
    - age_penalty * age_gap, where w_cal is the calendar weight when the
    confidence of the row reaches the threshold and the calendar weight
    times the shrink factor otherwise. *)
Theorem ranker_final_score (self : AdditiveRanker) (l : list FeatureRow)
    (i : nat) (r : FeatureRow) :
  l !! i = Some r ->
  exists v w_cal,
    final_score_at (score self (frame_of l)) i = Some v
    /\ v == w_sim self * base_sim r + w_comp self * comp_index r
            + w_cal * vedic_lite_score r
            - age_penalty self * inject_Z (age_gap r)
    /\ (vedic_min_conf self <= vedic_confidence r -> w_cal = w_vedic self)
    /\ (vedic_confidence r < vedic_min_conf self ->
        w_cal = w_vedic self * vedic_low_shrink self).
Proof.
  intros Hl.
  destruct l as [|r0 l']; [by rewrite lookup_nil in Hl|].
  set (df0 := frame_of (r0 :: l')).
  assert (H0 : rows df0 !! i = Some (cells r))
    by (change (rows df0) with (map cells (r0 :: l')); by rewrite lookup_map, Hl).
  set (df1 := assign_scalar df0 "novelty" (novelty_value self)).
  set (df2 := assign_scalar df1 "prior" (prior_value self)).
  pose proof (assign_scalar_lookup df0 "novelty" (novelty_value self) i _ H0) as H1.
  fold df1 in H1.
  pose proof (assign_scalar_lookup df1 "prior" (prior_value self) i _ H1) as H2.
  fold df2 in H2.
  exists (w_sim self * base_sim r + w_comp self * comp_index r
          + calendar_weight self (vedic_confidence r) * vedic_lite_score r
          - age_penalty self * inject_Z (age_gap r)),
         (calendar_weight self (vedic_confidence r)).
  split; [|split; [reflexivity|]].
  - erewrite final_score_at_row; [apply lookup_insert_eq|].
    unfold score. fold df0; fold df1; fold df2.
    apply assign_lookup; [exact H2|].
    + replace (has_column df2 "vedic_confidence") with true by reflexivity.
      rewrite !lookup_zip_with. unfold scale. rewrite !lookup_map.
      rewrite !(get_lookup _ _ _ _ _ H2), (series_lookup _ _ _ _ H2).
      reflexivity.
  - unfold calendar_weight. split; intros H.
    + apply Qle_bool_iff in H. by rewrite H.
    + destruct (Qle_bool (vedic_min_conf self) (vedic_confidence r)) eqn:E; [|done].
      apply Qle_bool_iff in E. lra.
Qed.
Lemma ranker_final_score_witness :
  exists v,
    final_score_at (score (init empty_config) (frame_of [sample_row])) 0 = Some v
    /\ v == 0.30 * 0.9 + 0.20 * 1 + (0.50 * 0.5) * 0.5 - 0.0 * inject_Z 2.
Proof.
  destruct (ranker_final_score (init empty_config) [sample_row] 0 sample_row eq_refl)
    as (v & w & Hv & Heq & _ & Hlow).
  exists v. split; [exact Hv|].
  rewrite Heq, (Hlow eq_refl). reflexivity.
Defined.

End ranker_facts.

Section recall_reference.
Import Recall.

Lemma sim_le_refl x : sim_le x x = true.
Proof. destruct x; simpl; [done|]. apply Qle_bool_iff. apply Qle_refl. Qed.

Lemma sim_le_trans x y z :
  sim_le x y = true -> sim_le y z = true -> sim_le x z = true.
Proof.
  destruct x, y, z; simpl; try done.
  rewrite !Qle_bool_iff. apply Qle_trans.
Qed.

Lemma sim_le_total x y : sim_le x y = true \/ sim_le y x = true.
Proof.
  destruct x, y; simpl; auto.
  rewrite !Qle_bool_iff. destruct (Qlt_le_dec q q0); [left|right]; lra.
Qed.

Lemma sim_lt_le x y : sim_lt x y = true -> sim_le x y = true.
Proof.
  unfold sim_lt. rewrite negb_true_iff. intros H.
  destruct (sim_le_total x y); congruence.
Qed.

Lemma sim_lt_false x y : sim_lt x y = false -> sim_le y x = true.
Proof. unfold sim_lt. by rewrite negb_false_iff. Qed.

Lemma insert_pos_perm a i l : insert_pos a i l ≡ₚ i :: l.
Proof.
  induction l as [|j r IH]; simpl; [done|].
  destruct (sim_lt (key a i) (key a j)); [done|].
  rewrite IH. apply Permutation_swap.
Qed.

Lemma insert_pos_sorted a i l :
  StronglySorted (by_key a) l -> StronglySorted (by_key a) (insert_pos a i l).
Proof.
  induction 1 as [|j r Hr IH Hj]; simpl.
  - repeat constructor.
  - destruct (sim_lt (key a i) (key a j)) eqn:E.
    + constructor; [by constructor|].
      apply sim_lt_le in E. constructor; [done|].
      eapply Forall_impl; [exact Hj|]. intros k Hk. unfold by_key in *.
      by eapply sim_le_trans.
    + constructor; [done|]. apply sim_lt_false in E.
      rewrite insert_pos_perm. by constructor.
Qed.

Lemma insertion_fold a l acc :
  StronglySorted (by_key a) acc ->
  foldl (fun acc i => insert_pos a i acc) acc l ≡ₚ acc ++ l
  /\ StronglySorted (by_key a) (foldl (fun acc i => insert_pos a i acc) acc l).
Proof.
  revert acc. induction l as [|i l IH]; intros acc Hs; simpl.
  - by rewrite app_nil_r.
  - destruct (IH (insert_pos a i acc) (insert_pos_sorted a i acc Hs)) as [Hp Hs'].
    split; [|done]. rewrite Hp, insert_pos_perm. simpl. apply Permutation_middle.
Qed.

Lemma stable_argsort_perm a : stable_argsort a ≡ₚ seq 0 (length a).
Proof. apply (insertion_fold a _ []). constructor. Qed.

Lemma stable_argsort_strongly a : StronglySorted (by_key a) (stable_argsort a).
Proof. apply (insertion_fold a _ []). constructor. Qed.

Lemma strongly_sorted_lookup {A} (R : relation A) (l : list A) i j x y :
  StronglySorted R l -> (i < j)%nat -> l !! i = Some x -> l !! j = Some y -> R x y.
Proof.
  intros Hs. revert i j. induction Hs as [|z l Hs IH Hz]; intros i j Hij Hi Hj.
  - by rewrite lookup_nil in Hi.
  - destruct j as [|j]; [lia|]. simpl in Hj. destruct i as [|i]; simpl in Hi.
    + inversion Hi; subst. rewrite Forall_forall in Hz. apply Hz.
      by eapply list_elem_of_lookup_2.
    + eapply (IH i j); [lia|done..].
Qed.

Lemma stable_argsort_sorted a i j pi pj x y :
  (i <= j)%nat ->
  stable_argsort a !! i = Some pi -> stable_argsort a !! j = Some pj ->
  a !! pi = Some x -> a !! pj = Some y -> sim_le x y = true.
Proof.
  intros Hij Hi Hj Hx Hy.
  destruct (decide (i = j)) as [->|Hne].
  - assert (pi = pj) by congruence. subst.
    assert (x = y) by congruence. subst. apply sim_le_refl.
  - pose proof (strongly_sorted_lookup _ _ i j pi pj (stable_argsort_strongly a)
                  ltac:(lia) Hi Hj) as H.
    unfold by_key, key in H. by rewrite Hx, Hy in H.
Qed.
Lemma reference_argsort_contract : argsort_contract stable_argsort.
Proof.
  intros a. split; [apply stable_argsort_perm|].
  intros i j pi pj x y. apply stable_argsort_sorted.
Qed.

Lemma reference_argpartition_contract : argpartition_contract sorting_argpartition.
Proof.
  intros a kth _. split; [apply stable_argsort_perm|].
  intros i j pi pj x y Hi Hj. unfold sorting_argpartition.
  apply stable_argsort_sorted. lia.
Qed.

Lemma three_users_wf : wf_generator three_users.
Proof. repeat split. repeat constructor. Qed.

End recall_reference.

Section recall_facts.
Import Recall.





Lemma index_fold (l : list (nat * Z)) (m : gmap Z nat) uid i :
  foldl (fun m p => <[p.2 := p.1]> m) m l !! uid = Some i ->
  m !! uid = Some i \/ (i, uid) ∈ l.
Proof.
  revert m. induction l as [|[i0 u0] l IH]; intros m H; simpl in *; [auto|].
  destruct (IH _ H) as [Hm|Hin]; [|right; by apply list_elem_of_further].
  destruct (decide (u0 = uid)) as [->|Hne].
  - rewrite lookup_insert_eq in Hm. inversion Hm; subst. right. apply list_elem_of_here.
  - rewrite lookup_insert_ne in Hm by done. auto.
Qed.

Lemma index_ids_lookup ids uid i :
  index_ids ids !! uid = Some i -> ids !! i = Some uid.
Proof.
  unfold index_ids. intros H. apply index_fold in H as [H|H].
  - by rewrite lookup_empty in H.
  - apply elem_of_lookup_imap in H as (i' & y & Heq & Hl). by inversion Heq; subst.
Qed.

Section with_numpy.
Variable argpartition : list sim -> nat -> list nat.
Variable argsort : list sim -> list nat.
Hypothesis Hpart : argpartition_contract argpartition.
Hypothesis Hsort : argsort_contract argsort.

Lemma topk_known g uid k idx :
  wf_generator g -> id_to_idx g !! uid = Some idx ->
  exists res,
    topk_for_user argpartition argsort g uid k = Some res
    /\ length res = Z.to_nat (Z.min k (Z.of_nat (length (user_ids g)) - 1))
    /\ descending res
    /\ forall p, p ∈ res -> exists j, j <> idx /\ user_ids g !! j = Some p.1.
Proof.
  intros (Hidx & Hlen & Hrows) Hk.
  set (N := length (user_ids g)) in *.
  assert (Hid : user_ids g !! idx = Some uid)
    by (apply index_ids_lookup; by rewrite <- Hidx).
  assert (HidxN : (idx < N)%nat) by (by eapply lookup_lt_Some).
  destruct (lookup_lt_is_Some_2 (sim_matrix g) idx) as [row Hrow]; [lia|].
  assert (Hrowlen : length row = N).
  { rewrite Forall_forall in Hrows. apply Hrows. by eapply list_elem_of_lookup_2. }
  unfold topk_for_user. rewrite Hk, Hrow. simpl.
  assert (Hlt : (idx <? length row)%nat = true) by (apply Nat.ltb_lt; lia).
  rewrite Hlt. simpl.
  set (sims := <[idx := NegInf]> (map Fin row)).
  assert (Hsl : length sims = N) by (subst sims; by rewrite length_insert, length_map).
  rewrite Hsl. fold N.
  destruct (Z.min k (Z.of_nat N - 1) <=? 0)%Z eqn:Ek.
  { apply Z.leb_le in Ek. exists []. repeat split.
    - simpl. lia.
    - intros i j x y _ Hi. by rewrite lookup_nil in Hi.
    - intros p Hp. by apply elem_of_nil in Hp. }
  apply Z.leb_gt in Ek.
  set (ke := Z.to_nat (Z.min k (Z.of_nat N - 1))).
  assert (Hke : (1 <= ke <= N - 1)%nat) by lia.
  destruct (Hpart sims (N - ke)%nat) as [Pperm Psplit]; [lia|].
  set (part := argpartition sims (N - ke)) in *.
  assert (Hpl : length part = N) by (by rewrite Pperm, length_seq).
  rewrite Hpl.
  set (top_idx := drop (N - ke) part).
  assert (Htl : length top_idx = ke) by (subst top_idx; rewrite length_drop; lia).
  assert (Hpart_lt : forall i t, part !! i = Some t -> (t < N)%nat).
  { intros i t Ht. apply list_elem_of_lookup_2 in Ht. rewrite Pperm in Ht.
    apply elem_of_seq in Ht. lia. }
  assert (Hsims_self : sims !! idx = Some NegInf)
    by (subst sims; apply list_lookup_insert_eq; rewrite length_map; lia).
  assert (Hsims_other : forall t, t <> idx -> (t < N)%nat -> exists q, sims !! t = Some (Fin q)).
  { intros t Hne Ht. subst sims. rewrite list_lookup_insert_ne by done.
    destruct (lookup_lt_is_Some_2 row t) as [q Hq]; [lia|].
    exists q. change (map Fin row) with (Fin <$> row). by rewrite list_lookup_fmap, Hq. }
  assert (Htop : forall r t, top_idx !! r = Some t -> (t < N)%nat /\ t <> idx).
  { intros r t Ht. subst top_idx. rewrite lookup_drop in Ht.
    split; [by eapply Hpart_lt|]. intros ->.
    destruct (lookup_lt_is_Some_2 part 0) as [p0 Hp0]; [lia|].
    assert (p0 <> idx).
    { intros ->. assert (0 = N - ke + r)%nat; [|lia].
      eapply NoDup_lookup; [|exact Hp0|exact Ht].
      rewrite Pperm. apply NoDup_seq. }
    destruct (Hsims_other p0) as [q Hq]; [done|by eapply Hpart_lt|].
    pose proof (Psplit 0%nat (N - ke + r)%nat p0 idx (Fin q) NegInf
                  ltac:(lia) ltac:(lia) Hp0 Ht Hq Hsims_self) as Hle.
    done. }
  assert (Hv0 : is_Some (take_at sims top_idx)).
  { unfold take_at. apply mapM_is_Some_2. apply Forall_forall. intros t Ht. apply list_elem_of_lookup in Ht as [r Hr].
    apply lookup_lt_is_Some. rewrite Hsl. by apply (Htop r). }
  destruct Hv0 as [vals Hvals]. rewrite Hvals. simpl.
  pose proof (Hvals' := Hvals). unfold take_at in Hvals'. apply mapM_Some in Hvals'.
  assert (Hvl : length vals = ke) by (by rewrite <- (Forall2_length _ _ _ Hvals')).
  destruct (Hsort vals) as [Sperm Ssorted].
  assert (Hal : length (argsort vals) = ke) by (by rewrite Sperm, length_seq).
  assert (Ht0 : is_Some (take_at top_idx (reverse (argsort vals)))).
  { unfold take_at. apply mapM_is_Some_2. apply Forall_forall. intros r Hr.
    assert (Hr' : r ∈ seq 0 (length vals))
      by (rewrite <- Sperm; by apply elem_of_reverse).
    apply elem_of_seq in Hr'. apply lookup_lt_is_Some. lia. }
  destruct Ht0 as [top_sorted Hts]. rewrite Hts. simpl.
  pose proof (Hts' := Hts). unfold take_at in Hts'. apply mapM_Some in Hts'.
  assert (Htsl : length top_sorted = ke)
    by (by rewrite <- (Forall2_length _ _ _ Hts'), length_reverse).
  set (f := fun j : nat => user_ids g !! j ≫= fun uid0 => sims !! j ≫= fun s => Some (uid0, s)).
  destruct (mapM_is_Some_2 f top_sorted) as [res Hres].
  { apply Forall_forall. intros t Ht. apply list_elem_of_lookup in Ht as [i Hi].
    destruct (Forall2_lookup_r _ _ _ _ _ Hts' Hi) as (r & _ & Hr).
    destruct (Htop r t Hr) as [HtN Hne].
    destruct (lookup_lt_is_Some_2 (user_ids g) t) as [u Hu]; [done|].
    destruct (Hsims_other t Hne HtN) as [q Hq].
    exists (u, Fin q). unfold f; simpl. by rewrite Hu, Hq. }
  exists res. split; [exact Hres|].
  pose proof (Hres' := Hres). apply mapM_Some in Hres'.
  split; [by rewrite <- (Forall2_length _ _ _ Hres')|].
  assert (Hat : forall i x, res !! i = Some x ->
            exists t r, top_sorted !! i = Some t /\ top_idx !! r = Some t
              /\ reverse (argsort vals) !! i = Some r
              /\ vals !! r = Some x.2 /\ user_ids g !! t = Some x.1).
  { intros i x Hx.
    destruct (Forall2_lookup_r _ _ _ _ _ Hres' Hx) as (t & Ht & Hf).
    destruct (Forall2_lookup_r _ _ _ _ _ Hts' Ht) as (r & Hr & Htr).
    destruct (Forall2_lookup_l _ _ _ _ _ Hvals' Htr) as (v & Hv & Hsv).
    unfold f in Hf. destruct (user_ids g !! t) as [u|] eqn:Eu; [|done]. simpl in Hf.
    rewrite Hsv in Hf. simpl in Hf. inversion Hf; subst x. simpl.
    exists t, r. done. }
  split.
  - intros i j x y Hij Hx Hy.
    destruct (Hat i x Hx) as (ti & ri & _ & _ & Hri & Hvi & _).
    destruct (Hat j y Hy) as (tj & rj & _ & _ & Hrj & Hvj & _).
    assert (Hi : (i < ke)%nat)
      by (rewrite <- Hal, <- length_reverse; by eapply lookup_lt_Some).
    assert (Hj : (j < ke)%nat)
      by (rewrite <- Hal, <- length_reverse; by eapply lookup_lt_Some).
    rewrite reverse_lookup in Hri by lia. rewrite reverse_lookup in Hrj by lia.
    eapply (Ssorted (length (argsort vals) - S j)%nat (length (argsort vals) - S i)%nat);
      [lia|done..].
  - intros p Hp. apply list_elem_of_lookup in Hp as [i Hi].
    destruct (Hat i p Hi) as (t & r & _ & Htr & _ & _ & Hu).
    exists t. split; [by apply (Htop r)|done].
Qed.

Lemma index_fold_known (l : list (nat * Z)) (m : gmap Z nat) uid :
  is_Some (m !! uid) \/ (exists i, (i, uid) ∈ l) ->
  is_Some (foldl (fun m p => <[p.2 := p.1]> m) m l !! uid).
Proof.
  revert m. induction l as [|[i0 u0] l IH]; intros m H; simpl.
  - destruct H as [H|[i H]]; [done|by apply elem_of_nil in H].
  - apply IH. destruct H as [H|[i H]].
    + left. destruct (decide (u0 = uid)) as [->|Hne].
      * rewrite lookup_insert_eq. by eexists.
      * by rewrite lookup_insert_ne.
    + apply elem_of_cons in H as [Heq|H]; [|right; eauto].
      inversion Heq; subst. left. rewrite lookup_insert_eq. by eexists.
Qed.

Lemma index_ids_unknown ids uid :
  uid ∉ ids -> index_ids ids !! uid = None.
Proof.
  intros Hn. destruct (index_ids ids !! uid) as [i|] eqn:E; [|done].
  apply index_ids_lookup in E. exfalso. apply Hn. by eapply list_elem_of_lookup_2.
Qed.

Lemma index_ids_known ids uid :
  uid ∈ ids -> is_Some (index_ids ids !! uid).
Proof.
  intros Hin. apply list_elem_of_lookup in Hin as [i Hi].
  unfold index_ids. apply index_fold_known. right. exists i.
  apply elem_of_lookup_imap. eauto.
Qed.

(** C3, amended: for a known user id and every k, topk_for_user returns at
    most min(k, N-1) entries, ordered by descending similarity; the order
    among candidates of equal similarity is left to the library sort. *)
Theorem topk_length_and_order (g : CandidateGenerator) (uid k : Z) :
  wf_generator g -> uid ∈ user_ids g ->
  exists res,
    topk_for_user argpartition argsort g uid k = Some res
    /\ (length res <= Z.to_nat (Z.min k (Z.of_nat (length (user_ids g)) - 1)))%nat
    /\ descending res.
Proof.
  intros Hwf Hin.
  destruct (index_ids_known _ _ Hin) as [idx Hidx].
  destruct Hwf as (Hi & Hrest). rewrite <- Hi in Hidx.
  destruct (topk_known g uid k idx (conj Hi Hrest) Hidx) as (res & Hr & Hl & Hd & _).
  exists res. repeat split; [done|lia|done].
Qed.

(** C7: with unique user ids, the queried user is not among the candidates
    topk_for_user returns, and the result is empty when the user id is
    unknown or the population has fewer than 2 users. *)
Theorem topk_excludes_self (g : CandidateGenerator) (uid k : Z) :
  wf_generator g -> NoDup (user_ids g) ->
  (uid ∈ user_ids g ->
     exists res, topk_for_user argpartition argsort g uid k = Some res
                 /\ forall p, p ∈ res -> p.1 <> uid)
  /\ (uid ∉ user_ids g -> topk_for_user argpartition argsort g uid k = Some [])
  /\ ((length (user_ids g) < 2)%nat ->
       topk_for_user argpartition argsort g uid k = Some []).
Proof.
  intros Hwf Hnd.
  assert (Hunk : uid ∉ user_ids g ->
                 topk_for_user argpartition argsort g uid k = Some []).
  { intros Hn. unfold topk_for_user. destruct Hwf as (-> & _).
    by rewrite index_ids_unknown. }
  assert (Hkn : uid ∈ user_ids g ->
     exists res idx, topk_for_user argpartition argsort g uid k = Some res
       /\ length res = Z.to_nat (Z.min k (Z.of_nat (length (user_ids g)) - 1))
       /\ user_ids g !! idx = Some uid
       /\ forall p, p ∈ res -> exists j, j <> idx /\ user_ids g !! j = Some p.1).
  { intros Hin. destruct (index_ids_known _ _ Hin) as [idx Hidx].
    pose proof (index_ids_lookup _ _ _ Hidx) as Hid.
    destruct Hwf as (Hi & Hrest). rewrite <- Hi in Hidx.
    destruct (topk_known g uid k idx (conj Hi Hrest) Hidx) as (res & Hr & Hl & _ & Hs).
    exists res, idx. done. }
  split; [|split; [done|]].
  - intros Hin. destruct (Hkn Hin) as (res & idx & Hr & _ & Hid & Hs).
    exists res. split; [done|]. intros p Hp Heq.
    destruct (Hs p Hp) as (j & Hne & Hj). rewrite Heq in Hj.
    apply Hne. by eapply NoDup_lookup.
  - intros Hsmall. destruct (decide (uid ∈ user_ids g)) as [Hin|Hn]; [|auto].
    destruct (Hkn Hin) as (res & idx & Hr & Hl & _).
    rewrite Hr. f_equal. apply length_zero_iff_nil. lia.
Qed.
End with_numpy.

Lemma topk_length_and_order_witness :
  exists res,
    topk_for_user sorting_argpartition stable_argsort three_users 1 2 = Some res
    /\ (length res <= 2)%nat /\ descending res.
Proof.
  exact (topk_length_and_order sorting_argpartition stable_argsort
           reference_argpartition_contract reference_argsort_contract
           three_users 1 2 three_users_wf (list_elem_of_here _ _)).
Defined.

Lemma topk_excludes_self_witness :
  exists res,
    topk_for_user sorting_argpartition stable_argsort three_users 1 2 = Some res
    /\ forall p, p ∈ res -> p.1 <> 1%Z.
Proof.
  apply (topk_excludes_self sorting_argpartition stable_argsort
           reference_argpartition_contract reference_argsort_contract
           three_users 1 2 three_users_wf).
  - apply (bool_decide_unpack _). vm_compute. exact I.
  - apply list_elem_of_here.
Defined.

(* C3 as stated fails on ties: with the reference routines the two
   equally similar candidates of user 1 come out as 3, then 2. *)
Lemma topk_ties_descending_id :
  argpartition_contract sorting_argpartition
  /\ argsort_contract stable_argsort
  /\ wf_generator three_users
  /\ topk_for_user sorting_argpartition stable_argsort three_users 1 2
     = Some [(3%Z, Fin 0.5); (2%Z, Fin 0.5)]
  /\ ~ ties_by_ascending_id [(3%Z, Fin 0.5); (2%Z, Fin 0.5)].
Proof.
  split; [apply reference_argpartition_contract|].
  split; [apply reference_argsort_contract|].
  split; [apply three_users_wf|].
  split; [vm_compute; reflexivity|].
  intros H.
  specialize (H 0%nat 1%nat (3%Z, Fin 0.5) (2%Z, Fin 0.5)
                ltac:(lia) eq_refl eq_refl eq_refl eq_refl).
  simpl in H. lia.
Qed.
End recall_facts.

Section pipeline_facts.
Import Recall.


Lemma no_embedding_columns df :
  (forall c, c ∈ df_columns df -> is_embedding_column c = false) ->
  exists msg, find_embedding_columns df = inl (ValueError msg).
Proof.
  intros H. unfold find_embedding_columns.
  assert (E : filter (fun c => startswith "t_" c || startswith "e_" c) (df_columns df) = []).
  { induction (df_columns df) as [|c l IH]; [done|].
    rewrite filter_cons. rewrite decide_False.
    - apply IH. intros c' Hc'. apply H. by apply list_elem_of_further.
    - specialize (H c (list_elem_of_here _ _)). unfold is_embedding_column in H.
      rewrite H. simpl. tauto. }
  rewrite E. rewrite bool_decide_eq_true_2 by done. eauto.
Qed.

(** C8: initialisation of the pipeline fails with the configuration error
    (the ValueError of the code) when the dataset has no user_id column or
    no column named t_* or e_*, and then yields no pipeline. *)
Theorem init_fails_without_columns
    (similarity_table : DataFrame -> list string -> exn + list (list Q))
    (data : DataFrame) (cfg : Ranker.Config) :
  "user_id"%string ∉ df_columns data
  \/ (forall c, c ∈ df_columns data -> is_embedding_column c = false) ->
  (exists msg, Pipeline.init similarity_table data cfg = inl (ValueError msg))
  /\ forall p, Pipeline.init similarity_table data cfg <> inr p.
Proof.
  intros H.
  assert (E : exists msg, Pipeline.init similarity_table data cfg = inl (ValueError msg)).
  { unfold Pipeline.init.
    assert (Hv : forall e, find_embedding_columns data = inl e ->
                   exists msg, e = ValueError msg).
    { unfold find_embedding_columns. intros e.
      destruct (bool_decide _); [|done]. intros He. inversion He. eauto. }
    destruct (find_embedding_columns data) as [e|cols] eqn:Ef;
      [destruct (Hv e eq_refl) as [msg ->]; eauto|].
    destruct H as [H|H].
    - unfold init. rewrite bool_decide_eq_false_2 by done. simpl. eauto.
    - destruct (no_embedding_columns data H) as [msg Hm]. congruence. }
  split; [done|]. destruct E as [msg ->]. done.
Qed.
Lemma init_fails_without_columns_witness :
  exists msg, Pipeline.init no_table no_id_frame empty_config = inl (ValueError msg).
Proof.
  apply (init_fails_without_columns no_table no_id_frame empty_config).
  left. apply (bool_decide_unpack _). vm_compute. exact I.
Defined.

End pipeline_facts.

Section calendar_extra.
Import Py Calendar Features.

Lemma inject_Z_le a b : (a <= b)%Z -> inject_Z a <= inject_Z b.
Proof. intros H. by rewrite <- Zle_Qle. Qed.

(* for a distance the wrap-around can produce, exactly one kernel is active *)
Lemma kernel_score_range d :
  (0 <= d <= 182)%Z -> 0 < kernel_score d /\ kernel_score d <= 0.6.
Proof.
  intros Hd. unfold kernel_score.
  assert (H0 : 0 <= inject_Z d) by (apply (inject_Z_le 0 d); lia).
  assert (H1 : inject_Z d <= 182) by (apply (inject_Z_le d 182); lia).
  destruct (Z_le_gt_dec d 91) as [Hs|Hs].
  - assert (H2 : inject_Z d <= 91) by (apply (inject_Z_le d 91); lia).
    assert (Ha : Qabs (inject_Z d - 182.5) == 182.5 - inject_Z d).
    { rewrite Qabs_neg by lra. lra. }
    set (same := 1 - inject_Z d / 91.25).
    set (opp := 1 - Qabs (inject_Z d - 182.5) / 91.25).
    assert (Hsame : 0 < same /\ same <= 1).
    { subst same. split.
      - apply (Qlt_le_trans _ (1 - 91 / 91.25)); [reflexivity|].
        apply Qplus_le_r. apply Qopp_le_compat.
        apply Qmult_le_compat_r; [lra|discriminate].
      - assert (0 <= inject_Z d / 91.25) by (apply Qmult_le_0_compat; [lra|discriminate]).
        lra. }
    assert (Hopp : opp <= 0).
    { subst opp. rewrite Ha.
      assert (1 <= (182.5 - inject_Z d) / 91.25); [|lra].
      apply Qle_shift_div_l; [reflexivity|]. lra. }
    destruct (py_max_spec same 0) as [[? ->]|[? ->]]; [lra|].
    destruct (py_max_spec opp 0) as [[? ->]|[? ->]].
    + destruct (py_max_spec 0 (0.6 * same + 0.4 * 0)) as [[? ->]|[? ->]];
        destruct (py_min_spec 1 (0.6 * same + 0.4 * 0)) as [[? E]|[? E]];
        try rewrite E; try lra.
      all: destruct (py_min_spec 1 0) as [[? ->]|[? ->]]; lra.
    + destruct (py_max_spec 0 (0.6 * same + 0.4 * opp)) as [[? ->]|[? ->]];
        destruct (py_min_spec 1 (0.6 * same + 0.4 * opp)) as [[? E]|[? E]];
        try rewrite E; try lra.
      all: destruct (py_min_spec 1 0) as [[? ->]|[? ->]]; lra.
  - assert (H2 : 92 <= inject_Z d) by (apply (inject_Z_le 92 d); lia).
    assert (Ha : Qabs (inject_Z d - 182.5) == 182.5 - inject_Z d).
    { rewrite Qabs_neg by lra. lra. }
    set (same := 1 - inject_Z d / 91.25).
    set (opp := 1 - Qabs (inject_Z d - 182.5) / 91.25).
    assert (Hsame : same <= 0).
    { subst same. assert (1 <= inject_Z d / 91.25); [|lra].
      apply Qle_shift_div_l; [reflexivity|]. lra. }
    assert (Hopp : 0 < opp /\ opp <= 1).
    { subst opp. rewrite Ha. split.
      - assert ((182.5 - inject_Z d) / 91.25 <= 90.5 / 91.25).
        { apply Qmult_le_compat_r; [lra|discriminate]. }
        assert (90.5 / 91.25 < 1) by reflexivity. lra.
      - assert (0 <= (182.5 - inject_Z d) / 91.25)
          by (apply Qmult_le_0_compat; [lra|discriminate]).
        lra. }
    destruct (py_max_spec opp 0) as [[? ->]|[? ->]]; [lra|].
    destruct (py_max_spec same 0) as [[? ->]|[? ->]].
    + destruct (py_max_spec 0 (0.6 * 0 + 0.4 * opp)) as [[? ->]|[? ->]];
        destruct (py_min_spec 1 (0.6 * 0 + 0.4 * opp)) as [[? E]|[? E]];
        try rewrite E; try lra.
      all: destruct (py_min_spec 1 0) as [[? ->]|[? ->]]; lra.
    + destruct (py_max_spec 0 (0.6 * same + 0.4 * opp)) as [[? ->]|[? ->]];
        destruct (py_min_spec 1 (0.6 * same + 0.4 * opp)) as [[? E]|[? E]];
        try rewrite E; try lra.
      all: destruct (py_min_spec 1 0) as [[? ->]|[? ->]]; lra.
Qed.

(** X1: vedic_lite_weighted_score never exceeds 0.6, and it is 0 exactly when
    one of the two texts is not a date that strptime accepts: two dates that
    parse always get a positive score. *)
Theorem score_zero_iff_unparsed (a b : string) :
  vedic_lite_weighted_score a b <= 0.6
  /\ (vedic_lite_weighted_score a b == 0
      <-> _parse_date a = None \/ _parse_date b = None).
Proof.
  unfold vedic_lite_weighted_score.
  destruct (_parse_date a) as [da|] eqn:Pa, (_parse_date b) as [db|] eqn:Pb.
  - pose proof (parse_date_yday _ _ Pa). pose proof (parse_date_yday _ _ Pb).
    pose proof (wrapped_diff_range (tm_yday da) (tm_yday db) ltac:(done) ltac:(done)).
    destruct (kernel_score_range (wrapped_diff (tm_yday da) (tm_yday db))) as [Hp Hle]; [done|].
    split; [done|]. split; [intros E; rewrite E in Hp; lra|intros [|]; done].
  - split; [lra|]. split; [auto|reflexivity].
  - split; [lra|]. split; [auto|reflexivity].
  - split; [lra|]. split; [auto|reflexivity].
Qed.
End calendar_extra.

Section iso_extra.
Import Py Calendar.
Local Open Scope Z_scope.

(* a fact about every integer of a short range, checked value by value *)
Lemma each_below (P : Z -> Prop) (bound : nat) :
  (forall k, (k < bound)%nat -> P (Z.of_nat k)) ->
  forall z, 0 <= z < Z.of_nat bound -> P z.
Proof.
  intros H z Hz. rewrite <- (Z2Nat.id z) by lia. apply H. lia.
Qed.

Ltac each_value :=
  match goal with
  | |- forall k : nat, (k < ?bound)%nat -> _ =>
      let k := fresh "k" in
      let Hk := fresh "Hk" in
      intros k Hk;
      do 32 (try (destruct k as [|k]; [first [reflexivity | intros; lia]|]));
      lia
  end.

Lemma digit_of_char n : 0 <= n <= 9 -> digit_of (digit_char n) = Some n.
Proof.
  intros H. revert n H.
  enough (G : forall z, 0 <= z < Z.of_nat 10 -> digit_of (digit_char z) = Some z)
    by (intros n H; apply G; simpl; lia).
  apply each_below. each_value.
Qed.

Lemma match_month_iso m tail :
  1 <= m <= 12 ->
  match_month (String.append (two_digits m) (String "-" tail)) = Some (m, tail).
Proof.
  intros H. revert m H.
  enough (G : forall z, 0 <= z < Z.of_nat 13 -> 1 <= z ->
            match_month (String.append (two_digits z) (String "-" tail))
            = Some (z, tail))
    by (intros m H; apply G; simpl; lia).
  apply (each_below
           (fun z => 1 <= z ->
              match_month (String.append (two_digits z) (String "-" tail))
              = Some (z, tail)) 13).
  each_value.
Qed.

Lemma match_day_iso d :
  1 <= d <= 31 -> match_day (two_digits d) = Some (d, EmptyString).
Proof.
  intros H. revert d H.
  enough (G : forall z, 0 <= z < Z.of_nat 32 -> 1 <= z ->
            match_day (two_digits z) = Some (z, EmptyString))
    by (intros d H; apply G; simpl; lia).
  apply (each_below
           (fun z => 1 <= z -> match_day (two_digits z) = Some (z, EmptyString)) 32).
  each_value.
Qed.

Lemma days_in_month_le y m : days_in_month y m <= 31.
Proof. unfold days_in_month. repeat case_match; lia. Qed.

Lemma make_date_fields y m d dt :
  make_date y m d = Some dt ->
  year dt = y /\ month dt = m /\ day dt = d
  /\ 1 <= y <= 9999 /\ 1 <= m <= 12 /\ 1 <= d <= days_in_month y m.
Proof.
  unfold make_date. destruct (_ && _) eqn:E; [|done]. intros [= <-]. simpl.
  repeat (apply andb_prop in E as [E ?]). lia.
Qed.

(** X3: _parse_date reads back the ISO text of every calendar date: the text
    YYYY-MM-DD with leading zeros has 10 characters and parses to the date it
    was written from. *)
Theorem iso_text_parses_back (y m d : Z) (dt : date) :
  make_date y m d = Some dt ->
  _parse_date (iso_text dt) = Some dt /\ String.length (iso_text dt) = 10%nat.
Proof.
  intros Hm. pose proof (make_date_fields _ _ _ _ Hm) as (Ey & Em & Ed & Hy & Hmo & Hd).
  pose proof (days_in_month_le y m).
  split; [|reflexivity].
  unfold iso_text, _parse_date. rewrite Ey, Em, Ed.
  rewrite !digit_of_char by (Z.to_euclidean_division_equations; lia).
  rewrite match_month_iso by done. rewrite match_day_iso by lia.
  replace (1000 * (y / 1000) + 100 * (y / 100 mod 10) + 10 * (y / 10 mod 10) + y mod 10)
    with y by (Z.to_euclidean_division_equations; lia).
  exact Hm.
Qed.

(** X2: a date that _parse_date returns is a date of the calendar: the year is
    in 1..9999, the month in 1..12, the day within the month's length for that
    year, and the day of the year within 1..365, or 1..366 in a leap year. *)
Theorem parsed_dates_are_calendar_dates (s : string) (dt : date) :
  _parse_date s = Some dt ->
  1 <= year dt <= 9999 /\ 1 <= month dt <= 12
  /\ 1 <= day dt <= days_in_month (year dt) (month dt)
  /\ 1 <= tm_yday dt <= (if is_leap (year dt) then 366 else 365).
Proof.
  intros H. apply parse_date_made in H as (y & m & d & H).
  pose proof (make_date_fields _ _ _ _ H) as (Ey & Em & Ed & Hy & Hm & Hd).
  unfold tm_yday. rewrite Ey, Em, Ed. clear H Ey Em Ed.
  pose proof (days_before_month_bounds y m Hm) as Hb.
  repeat split; try lia.
  unfold days_before_month, days_in_month in *.
  assert (C : m = 1 \/ m = 2 \/ m = 3 \/ m = 4 \/ m = 5 \/ m = 6 \/ m = 7
              \/ m = 8 \/ m = 9 \/ m = 10 \/ m = 11 \/ m = 12) by lia.
  destruct (is_leap y);
    repeat (destruct C as [->|C]; [simpl in *; lia|]); subst; simpl in *; lia.
Qed.
End iso_extra.

Lemma parsed_dates_are_calendar_dates_witness :
  (1 <= Calendar.year may_10_1996 <= 9999)%Z
  /\ (1 <= Calendar.month may_10_1996 <= 12)%Z
  /\ (1 <= Calendar.day may_10_1996 <= 31)%Z
  /\ (1 <= Calendar.tm_yday may_10_1996 <= 366)%Z.
Proof.
  exact (parsed_dates_are_calendar_dates "1996-05-10" may_10_1996 eq_refl).
Defined.

Lemma iso_text_parses_back_witness :
  Calendar._parse_date (iso_text may_10_1996) = Some may_10_1996
  /\ String.length (iso_text may_10_1996) = 10%nat.
Proof.
  exact (iso_text_parses_back 1996 5 10 may_10_1996 eq_refl).
Defined.

Section confidence_extra.
Import Py Calendar Features.


Lemma lat_factor_range lat : 0.6 <= lat_factor lat <= 1.
Proof.
  unfold lat_factor.
  assert (0 <= Qabs lat / 180)
    by (apply Qmult_le_0_compat; [apply Qabs_nonneg|discriminate]).
  destruct (py_max_spec 0.6 (1 - Qabs lat / 180)) as [[? ->]|[? ->]]; lra.
Qed.

Lemma equinox_band_range doy : 0.8 <= equinox_band doy <= 1.
Proof.
  unfold equinox_band.
  assert (Hz : (0 <= Z.abs (doy mod 182 - 91) <= 91)%Z)
    by (Z.to_euclidean_division_equations; lia).
  set (z := Z.abs (doy mod 182 - 91)) in *.
  assert (H0 : 0 <= inject_Z z) by (change 0 with (inject_Z 0); rewrite <- Zle_Qle; lia).
  assert (H1 : inject_Z z <= 91) by (change 91 with (inject_Z 91); rewrite <- Zle_Qle; lia).
  assert (H2 : 0 <= inject_Z z / 91)
    by (apply Qmult_le_0_compat; [done|discriminate]).
  assert (H3 : inject_Z z / 91 <= 1)
    by (apply Qle_shift_div_r; [reflexivity|lra]).
  lra.
Qed.

Lemma confidence_of_range lat doy :
  0.488 <= confidence_of lat doy <= 0.8.
Proof.
  unfold confidence_of.
  pose proof (lat_factor_range lat) as [L1 L2].
  pose proof (equinox_band_range doy) as [B1 B2].
  set (l := lat_factor lat) in *. set (b := equinox_band doy) in *.
  assert (Q1 : 0 <= (l - 0.6) * (b - 0.8)) by (apply Qmult_le_0_compat; lra).
  assert (Q2 : 0 <= (1 - l) * b) by (apply Qmult_le_0_compat; lra).
  assert (E1 : (l - 0.6) * (b - 0.8) == l * b - 0.8 * l - 0.6 * b + 0.48) by ring.
  assert (E2 : (1 - l) * b == b - l * b) by ring.
  rewrite E1 in Q1. rewrite E2 in Q2.
  set (p := l * b) in *.
  assert (P1 : 0.48 <= p) by lra.
  assert (P2 : p <= 1) by lra.
  assert (E3 : 0.6 * l * b + 0.2 == 0.6 * p + 0.2) by (subst p; ring).
  set (x := 0.6 * l * b + 0.2) in *.
  assert (Hx : 0.488 <= x <= 0.8) by lra.
  destruct (py_min_spec 1 x) as [[? ->]|[? ->]]; [|lra].
  destruct (py_max_spec 0 x) as [[? ->]|[? ->]]; lra.
Qed.

(** X4: hindu_date_from_date returns exactly when its date text parses (it
    raises otherwise), whatever the latitude, longitude and time zone; the
    confidence it returns lies in [0.488, 0.8] and the four names are entries
    of the module's tables, so no index goes out of range. *)
Theorem hindu_date_iff_parsed (d : string) (lat lon tz : Q) :
  (is_Some (hindu_date_from_date d lat lon tz) <-> is_Some (_parse_date d))
  /\ forall h, hindu_date_from_date d lat lon tz = Some h ->
       0.488 <= confidence h <= 0.8
       /\ tithi h ∈ TITHIS /\ paksha h ∈ PAKSHAS
       /\ nakshatra h ∈ NAKSHATRAS /\ yoga h ∈ YOGAS.
Proof.
  split.
  - split.
    + intros [h Hh]. destruct (_parse_date d) eqn:E; [by eexists|].
      by rewrite hindu_date_malformed in Hh.
    + intros [dt Hd]. destruct (hindu_date_total d lat lon tz dt Hd) as (h & -> & _).
      by eexists.
  - intros h Hh. unfold hindu_date_from_date in Hh.
    destruct (_parse_date d) as [dt|]; [|done]. simpl in Hh.
    destruct (item TITHIS _) as [t|] eqn:Et; [|done]. simpl in Hh.
    destruct (item PAKSHAS _) as [p|] eqn:Ep; [|done]. simpl in Hh.
    destruct (item NAKSHATRAS _) as [n|] eqn:En; [|done]. simpl in Hh.
    destruct (item YOGAS _) as [y|] eqn:Ey; [|done]. simpl in Hh.
    inversion Hh; subst; simpl. split; [apply confidence_of_range|].
    unfold item in *.
    repeat split; by eapply list_elem_of_lookup_2.
Qed.

(* what the calendar block can return *)
Lemma confidence_try_values u c ud cd ug cg k :
  confidence_try u c ud cd ug cg = Some k ->
  is_Some (_parse_date ud) /\ is_Some (_parse_date cd)
  /\ 0.488 <= k /\ k <= 0.95.
Proof.
  intros Ek. unfold confidence_try in Ek.
  destruct ug as [[ulat ulon] utz], cg as [[clat clon] ctz].
  destruct (_parse_date ud) as [du|] eqn:Pu;
    [|by rewrite (hindu_date_malformed _ _ _ _ Pu) in Ek].
  destruct (hindu_date_total ud ulat ulon utz du Pu) as (hu & Hu & Cu).
  rewrite Hu in Ek. simpl in Ek.
  destruct (_parse_date cd) as [dc|] eqn:Pc;
    [|by rewrite (hindu_date_malformed _ _ _ _ Pc) in Ek].
  destruct (hindu_date_total cd clat clon ctz dc Pc) as (hc & Hc & Cc).
  rewrite Hc in Ek. simpl in Ek.
  destruct (has_birth_time_total u) as [bu Hbu], (has_birth_time_total c) as [bc Hbc].
  rewrite Hbu, Hbc in Ek. simpl in Ek. inversion Ek as [Ek']. clear Ek.
  try subst k.
  split; [by eexists|]. split; [by eexists|].
  pose proof (confidence_of_range ulat (tm_yday du)) as Ru.
  pose proof (confidence_of_range clat (tm_yday dc)) as Rc.
  set (xu := confidence_of ulat (tm_yday du)) in *.
  set (xc := confidence_of clat (tm_yday dc)) in *.
  assert (Bu : 0.488 <= (if bu then Py.min 1 (xu + 0.15) else xu) <= 0.95).
  { destruct bu; [|lra]. destruct (py_min_spec 1 (xu + 0.15)) as [[? ->]|[? ->]]; lra. }
  assert (Bc : 0.488 <= (if bc then Py.min 1 (xc + 0.15) else xc) <= 0.95).
  { destruct bc; [|lra]. destruct (py_min_spec 1 (xc + 0.15)) as [[? ->]|[? ->]]; lra. }
  set (pu := if bu then _ else _) in *. set (pc := if bc then _ else _) in *.
  assert (Bm : 0.488 <= Py.min pu pc <= 0.95)
    by (destruct (py_min_spec pu pc) as [[? ->]|[? ->]]; lra).
  set (m := Py.min pu pc) in *.
  assert (Bk : 0.488 <= Py.max 0 (Py.min 1 m) <= 0.95).
  { destruct (py_min_spec 1 m) as [[? ->]|[? ->]]; [|lra].
    destruct (py_max_spec 0 m) as [[? ->]|[? ->]]; lra. }
  rewrite Cu, Cc. exact Bk.
Qed.

(* what the calendar block can return *)
Lemma vedic_block_values u c s k :
  vedic_block u c = Some (s, k) ->
  (s = 0 /\ k = 0)
  \/ (0 < s /\ s <= 0.6 /\ 0.488 <= k /\ k <= 0.95).
Proof.
  unfold vedic_block. rewrite !normalize_str.
  cbn [mbind option_bind]. fold (dob u); fold (dob c).
  destruct (_ && _) eqn:E; [|intros H; inversion H; subst; left; split; reflexivity].
  destruct (_city_geocode (get u "birth_city")) as [ug|]; [|done].
  destruct (_city_geocode (get c "birth_city")) as [cg|]; [|done].
  cbn [mbind option_bind].
  destruct (confidence_try u c (dob u) (dob c) ug cg) as [k'|] eqn:Ek;
    [|intros H; inversion H; subst; left; split; reflexivity].
  intros H; inversion H; subst; clear H. right.
  destruct (confidence_try_values _ _ _ _ _ _ _ Ek) as ([du Pu] & [dc Pc] & K1 & K2).
  assert (S : 0 < vedic_lite_weighted_score (dob u) (dob c)
              /\ vedic_lite_weighted_score (dob u) (dob c) <= 0.6).
  { unfold vedic_lite_weighted_score. rewrite Pu, Pc.
    apply kernel_score_range. apply wrapped_diff_range; by eapply parse_date_yday. }
  repeat split; try tauto; lra.
Qed.
End confidence_extra.

Lemma hindu_date_iff_parsed_witness :
  exists h,
    Calendar.hindu_date_from_date "1996-05-10" 28.6139 77.2090 5.5 = Some h
    /\ 0.488 <= Calendar.confidence h <= 0.8.
Proof.
  destruct (hindu_date_iff_parsed "1996-05-10" 28.6139 77.2090 5.5) as [[_ Hs] Hr].
  destruct (Hs (ex_intro _ may_10_1996 eq_refl)) as [h Hh].
  exists h. split; [exact Hh|]. exact (proj1 (Hr h Hh)).
Defined.

Section rows_extra.
Import Py Calendar Features.



Lemma opposite_bit a b : (opposite a b = 0 \/ opposite a b = 1)%Z.
Proof. unfold opposite. destruct (_ || _); auto. Qed.

Lemma opposite_sym a b : opposite a b = opposite b a.
Proof.
  unfold opposite.
  destruct (Qle_bool a 0.25), (Qle_bool 0.75 b), (Qle_bool 0.75 a), (Qle_bool b 0.25);
    reflexivity.
Qed.

(* every field of a row that pair_row builds *)
Lemma pair_row_fields uid u us cid sim c mix f row :
  pair_row uid u us cid sim c mix f = Some (Some row) ->
  exists cs, side_of c = Some cs
    /\ filter_gender row = true /\ filter_age row = true /\ filter_city row = true
    /\ tag_overlap row = Z.of_nat (size (s_tags us ∩ s_tags cs))
    /\ age_gap row = Z.abs (s_age us - s_age cs)
    /\ energy_comp row = opposite (s_energy us) (s_energy cs)
    /\ humor_comp row
       = (if (s_dark us && s_wholesome cs) || (s_wholesome us && s_dark cs)
          then 1 else 0)%Z
    /\ risk_comp row = opposite (s_risk us) (s_risk cs)
    /\ comp_index row
       = blend mix (energy_comp row) (humor_comp row) (risk_comp row)
    /\ vedic_block u c = Some (vedic_lite_score row, vedic_confidence row).
Proof.
  unfold pair_row. intros H.
  destruct (_hard_filter_flags u c f) as [fl|]; [|done]. cbn [mbind option_bind] in H.
  destruct (all_pass fl) eqn:Ep; cbn [negb] in H; [|done].
  destruct (side_of c) as [cs|]; [|done]. cbn [mbind option_bind] in H.
  destruct (vedic_block u c) as [[vs vc]|]; [|done]. cbn [mbind option_bind] in H.
  inversion H; subst; clear H. cbn.
  unfold all_pass in Ep. rewrite !andb_true_iff in Ep. destruct Ep as [[-> ->] ->].
  exists cs. repeat split; reflexivity.
Qed.

Lemma candidate_rows_length by_id uid u us cands mix f rows :
  candidate_rows by_id uid u us cands mix f = Some rows ->
  (length rows <= length cands)%nat.
Proof.
  revert rows. induction cands as [|[cid sim] rest IH]; intros rows H; simpl in H.
  - inversion H. simpl. lia.
  - destruct (candidate_rows by_id uid u us rest mix f) as [more|];
      [|by destruct (if falsy_record (by_id !! cid) then _ else _)].
    specialize (IH more eq_refl).
    destruct (if falsy_record (by_id !! cid) then _ else _) as [[r|]|]; [| |done];
      cbn [mbind option_bind] in H; inversion H; subst; simpl; lia.
Qed.


Lemma user_rows_length by_id candidates mix f rows :
  user_rows by_id candidates mix f = Some rows ->
  (length rows <= pair_count candidates)%nat.
Proof.
  revert rows. induction candidates as [|[uid cands] rest IH]; intros rows H; simpl in H.
  - inversion H. simpl. lia.
  - destruct (user_rows by_id rest mix f) as [more|];
      [|by destruct (if falsy_record (by_id !! uid) then _ else _)].
    specialize (IH more eq_refl).
    unfold pair_count in *. cbn [map sum_list sum_list_with snd].
    destruct (falsy_record (by_id !! uid)).
    + cbn [mbind option_bind] in H. inversion H; subst. simpl. lia.
    + destruct (by_id !! uid) as [u|].
      * destruct (side_of u) as [us|]; [|done]. cbn [mbind option_bind] in H.
        destruct (candidate_rows by_id uid u us cands mix f) as [here|] eqn:Eh; [|done].
        cbn [mbind option_bind] in H. inversion H; subst.
        apply candidate_rows_length in Eh. rewrite length_app. simpl. lia.
      * cbn [mbind option_bind] in H. inversion H; subst. simpl. lia.
Qed.

(* a row of the output, traced back to the turn of the loops that built it *)
Lemma build_features_row records candidates mix filters rows row :
  build_features records candidates mix filters = Some rows ->
  row ∈ rows ->
  exists by_id uid cands u us cid sim c,
    index_records records ∅ = Some by_id
    /\ (uid, cands) ∈ candidates /\ (cid, sim) ∈ cands
    /\ by_id !! uid = Some u /\ by_id !! cid = Some c
    /\ side_of u = Some us
    /\ pair_row uid u us cid sim c mix (default ∅ filters) = Some (Some row).
Proof.
  unfold build_features. intros Hb Hin.
  destruct (index_records records ∅) as [by_id|] eqn:Hidx; [|done].
  cbn [mbind option_bind] in Hb.
  destruct (user_rows_sound _ _ _ _ _ _ Hb Hin)
    as (uid & cands & u & us & rs & Hu & Lu & Hs & Hrs & Hin').
  destruct (candidate_rows_sound _ _ _ _ _ _ _ _ _ Hrs Hin')
    as (cid & sim & c & Hc & Lc & Hp).
  exists by_id, uid, cands, u, us, cid, sim, c. done.
Qed.

Lemma build_features_length records candidates mix filters rows :
  build_features records candidates mix filters = Some rows ->
  (length rows <= pair_count candidates)%nat.
Proof.
  unfold build_features. intros Hb.
  destruct (index_records records ∅) as [by_id|]; [|done].
  cbn [mbind option_bind] in Hb. by eapply user_rows_length.
Qed.

(** X5: build_features makes no row up: the output has at most one row per
    pair of the candidate mapping, every row carries a user, a candidate and
    the similarity of a pair of the mapping, and its three filter flags are
    all true. *)
Theorem rows_come_from_passing_pairs
    (records : list pydict) (candidates : list (Z * list (Z * Q)))
    (mix : gmap string Q) (filters : option (gmap string bool))
    (rows : list FeatureRow) :
  build_features records candidates mix filters = Some rows ->
  (length rows <= pair_count candidates)%nat
  /\ forall row, row ∈ rows ->
       filter_gender row = true /\ filter_age row = true /\ filter_city row = true
       /\ exists cands, (user_id row, cands) ∈ candidates
                        /\ (match_id row, base_sim row) ∈ cands.
Proof.
  intros Hb. split.
  - by eapply build_features_length.
  - intros row Hin.
    destruct (build_features_row _ _ _ _ _ _ Hb Hin)
      as (by_id & uid & cands & u & us & cid & sim & c & _ & Hu & Hc & _ & _ & _ & Hp).
    destruct (pair_row_fields _ _ _ _ _ _ _ _ _ Hp) as (cs & _ & Fg & Fa & Fc & _).
    destruct (pair_row_inv _ _ _ _ _ _ _ _ _ Hp) as (Hi & Hm & Hs & _).
    repeat split; try done. exists cands. by rewrite Hi, Hm, Hs.
Qed.

(** X6: the values of a row of build_features: tag_overlap and age_gap are
    not negative, the three complementarity indicators are 0 or 1, comp_index
    is their blend with the weights of comp_mix (0.34, 0.33, 0.33 by default),
    and the calendar pair is either (0, 0) or a score in (0, 0.6] with a
    confidence in [0.488, 0.95]. *)
Theorem row_values_in_range
    (records : list pydict) (candidates : list (Z * list (Z * Q)))
    (mix : gmap string Q) (filters : option (gmap string bool))
    (rows : list FeatureRow) (row : FeatureRow) :
  build_features records candidates mix filters = Some rows ->
  row ∈ rows ->
  (0 <= tag_overlap row)%Z /\ (0 <= age_gap row)%Z
  /\ (energy_comp row = 0 \/ energy_comp row = 1)%Z
  /\ (humor_comp row = 0 \/ humor_comp row = 1)%Z
  /\ (risk_comp row = 0 \/ risk_comp row = 1)%Z
  /\ comp_index row
     = blend mix (energy_comp row) (humor_comp row) (risk_comp row)
  /\ ((vedic_lite_score row = 0 /\ vedic_confidence row = 0)
      \/ (0 < vedic_lite_score row /\ vedic_lite_score row <= 0.6
          /\ 0.488 <= vedic_confidence row /\ vedic_confidence row <= 0.95)).
Proof.
  intros Hb Hin.
  destruct (build_features_row _ _ _ _ _ _ Hb Hin)
    as (by_id & uid & cands & u & us & cid & sim & c & _ & _ & _ & _ & _ & _ & Hp).
  destruct (pair_row_fields _ _ _ _ _ _ _ _ _ Hp)
    as (cs & _ & _ & _ & _ & -> & -> & He & Hh & Hr & Hc & Hv).
  split; [lia|]. split; [lia|].
  split; [rewrite He; apply opposite_bit|].
  split; [rewrite Hh; destruct (_ || _); auto|].
  split; [rewrite Hr; apply opposite_bit|].
  split; [done|]. by eapply vedic_block_values.
Qed.

Lemma user_rows_app by_id l1 l2 mix f :
  user_rows by_id (l1 ++ l2) mix f
  = (r1 ← user_rows by_id l1 mix f;
     r2 ← user_rows by_id l2 mix f;
     Some (r1 ++ r2)).
Proof.
  induction l1 as [|[uid cands] rest IH]; simpl.
  - by destruct (user_rows by_id l2 mix f).
  - rewrite IH.
    destruct (if falsy_record (by_id !! uid) then _ else _) as [here|]; [|done].
    cbn [mbind option_bind].
    destruct (user_rows by_id rest mix f) as [m1|]; [|done].
    cbn [mbind option_bind].
    destruct (user_rows by_id l2 mix f) as [m2|]; [|done].
    cbn [mbind option_bind]. by rewrite app_assoc.
Qed.

(** X7: build_features works through the candidate mapping entry by entry:
    the output for two mappings one after the other is the output for the
    first followed by the output for the second, and it raises when either
    part raises. *)
Theorem build_features_app
    (records : list pydict) (l1 l2 : list (Z * list (Z * Q)))
    (mix : gmap string Q) (filters : option (gmap string bool)) :
  build_features records (l1 ++ l2) mix filters
  = (r1 ← build_features records l1 mix filters;
     r2 ← build_features records l2 mix filters;
     Some (r1 ++ r2)).
Proof.
  unfold build_features.
  destruct (index_records records ∅) as [by_id|]; [|done].
  cbn [mbind option_bind]. apply user_rows_app.
Qed.
End rows_extra.

Lemma rows_come_from_passing_pairs_witness :
  (length sample_rows <= 1)%nat
  /\ exists row, sample_rows !! 0%nat = Some row
       /\ Features.filter_gender row = true /\ Features.filter_age row = true
       /\ Features.filter_city row = true.
Proof.
  destruct (rows_come_from_passing_pairs sample_records sample_candidates ∅
              (Some sample_filters) sample_rows eq_refl) as [Hl Hr].
  split; [exact Hl|].
  eexists. split; [reflexivity|].
  match goal with |- Features.filter_gender ?r = _ /\ _ =>
    destruct (Hr r (list_elem_of_lookup_2 sample_rows 0 r eq_refl))
      as (Hg & Ha & Hc & _)
  end. auto.
Defined.

Lemma row_values_in_range_witness :
  exists row, sample_rows !! 0%nat = Some row
    /\ (0 <= Features.age_gap row)%Z
    /\ Features.comp_index row
       = blend ∅ (Features.energy_comp row) (Features.humor_comp row)
           (Features.risk_comp row).
Proof.
  eexists. split; [reflexivity|].
  match goal with |- (0 <= Features.age_gap ?r)%Z /\ _ =>
    destruct (row_values_in_range sample_records sample_candidates ∅
                (Some sample_filters) sample_rows r eq_refl
                (list_elem_of_lookup_2 sample_rows 0 r eq_refl))
      as (_ & Hg & _ & _ & _ & Hc & _)
  end. auto.
Defined.

Section symmetry_extra.
Import Py Calendar Features.

Lemma score_swap a b :
  vedic_lite_weighted_score a b = vedic_lite_weighted_score b a.
Proof.
  unfold vedic_lite_weighted_score, wrapped_diff.
  destruct (_parse_date a) as [da|], (_parse_date b) as [db|]; try reflexivity.
  by rewrite <- (Z.abs_opp (tm_yday da - tm_yday db)), Z.opp_sub_distr, Z.add_comm.
Qed.

Lemma clamp_min_sym a b :
  Py.max 0 (Py.min 1 (Py.min a b)) == Py.max 0 (Py.min 1 (Py.min b a)).
Proof.
  assert (E : Py.min a b == Py.min b a).
  { destruct (py_min_spec a b) as [[? ->]|[? ->]],
             (py_min_spec b a) as [[? ->]|[? ->]]; lra. }
  set (x := Py.min a b) in *. set (y := Py.min b a) in *.
  destruct (py_min_spec 1 x) as [[? ->]|[? ->]],
           (py_min_spec 1 y) as [[? ->]|[? ->]];
    try lra;
    repeat match goal with
           | |- context [Py.max 0 ?z] =>
               destruct (py_max_spec 0 z) as [[? ->]|[? ->]]
           end; lra.
Qed.

Lemma confidence_try_sym u c ud cd ug cg :
  match confidence_try u c ud cd ug cg, confidence_try c u cd ud cg ug with
  | Some k1, Some k2 => k1 == k2
  | None, None => True
  | _, _ => False
  end.
Proof.
  unfold confidence_try. destruct ug as [[ulat ulon] utz], cg as [[clat clon] ctz].
  destruct (hindu_date_from_date ud ulat ulon utz) as [hu|],
           (hindu_date_from_date cd clat clon ctz) as [hc|];
    cbn [mbind option_bind]; try done.
  destruct (has_birth_time_total u) as [bu ->], (has_birth_time_total c) as [bc ->].
  cbn [mbind option_bind]. apply clamp_min_sym.
Qed.

Lemma vedic_block_sym u c s1 k1 s2 k2 :
  vedic_block u c = Some (s1, k1) -> vedic_block c u = Some (s2, k2) ->
  s1 = s2 /\ k1 == k2.
Proof.
  unfold vedic_block. rewrite !normalize_str. cbn [mbind option_bind].
  fold (dob u); fold (dob c).
  replace (negb (String.eqb (dob c) "") && negb (String.eqb (dob u) "")
           && (String.length (dob c) =? 10)%nat && (String.length (dob u) =? 10)%nat)
    with (negb (String.eqb (dob u) "") && negb (String.eqb (dob c) "")
           && (String.length (dob u) =? 10)%nat && (String.length (dob c) =? 10)%nat)
    by (destruct (negb (String.eqb (dob u) "")), (negb (String.eqb (dob c) "")),
                 (String.length (dob u) =? 10)%nat, (String.length (dob c) =? 10)%nat;
        reflexivity).
  destruct (_ && _).
  2:{ intros H1 H2. inversion H1; inversion H2; subst. split; reflexivity. }
  destruct (_city_geocode (get u "birth_city")) as [ug|]; [|done].
  destruct (_city_geocode (get c "birth_city")) as [cg|]; [|done].
  cbn [mbind option_bind].
  pose proof (confidence_try_sym u c (dob u) (dob c) ug cg) as Hs.
  destruct (confidence_try u c (dob u) (dob c) ug cg) as [x1|],
           (confidence_try c u (dob c) (dob u) cg ug) as [x2|]; try done.
  - intros H1 H2. inversion H1; inversion H2; subst.
    split; [apply score_swap|done].
  - intros H1 H2. inversion H1; inversion H2; subst. split; reflexivity.
Qed.

(** X8: the pair signals do not depend on who is the user and who is the
    candidate: two rows of one output with the ids swapped have the same
    tag_overlap, age_gap, complementarity indicators, comp_index and calendar
    score, and equal calendar confidence. *)
Theorem pair_signals_symmetric
    (records : list pydict) (candidates : list (Z * list (Z * Q)))
    (mix : gmap string Q) (filters : option (gmap string bool))
    (rows : list FeatureRow) (r1 r2 : FeatureRow) :
  build_features records candidates mix filters = Some rows ->
  r1 ∈ rows -> r2 ∈ rows ->
  user_id r1 = match_id r2 -> match_id r1 = user_id r2 ->
  tag_overlap r1 = tag_overlap r2 /\ age_gap r1 = age_gap r2
  /\ energy_comp r1 = energy_comp r2 /\ humor_comp r1 = humor_comp r2
  /\ risk_comp r1 = risk_comp r2 /\ comp_index r1 = comp_index r2
  /\ vedic_lite_score r1 = vedic_lite_score r2
  /\ vedic_confidence r1 == vedic_confidence r2.
Proof.
  intros Hb H1 H2 E1 E2.
  destruct (build_features_row _ _ _ _ _ _ Hb H1)
    as (by1 & uid1 & cands1 & u1 & us1 & cid1 & sim1 & c1
        & I1 & _ & _ & Lu1 & Lc1 & S1 & P1).
  destruct (build_features_row _ _ _ _ _ _ Hb H2)
    as (by2 & uid2 & cands2 & u2 & us2 & cid2 & sim2 & c2
        & I2 & _ & _ & Lu2 & Lc2 & S2 & P2).
  assert (by2 = by1) by congruence. subst by2.
  destruct (pair_row_inv _ _ _ _ _ _ _ _ _ P1) as (A1 & B1 & _).
  destruct (pair_row_inv _ _ _ _ _ _ _ _ _ P2) as (A2 & B2 & _).
  assert (u2 = c1) by congruence. assert (c2 = u1) by congruence. subst u2 c2.
  destruct (pair_row_fields _ _ _ _ _ _ _ _ _ P1)
    as (cs1 & C1 & _ & _ & _ & T1 & G1 & En1 & Hu1 & R1 & Ci1 & V1).
  destruct (pair_row_fields _ _ _ _ _ _ _ _ _ P2)
    as (cs2 & C2 & _ & _ & _ & T2 & G2 & En2 & Hu2 & R2 & Ci2 & V2).
  assert (us2 = cs1) by congruence. assert (cs2 = us1) by congruence. subst us2 cs2.
  assert (Ee : energy_comp r1 = energy_comp r2)
    by (rewrite En1, En2; apply opposite_sym).
  assert (Eh : humor_comp r1 = humor_comp r2).
  { rewrite Hu1, Hu2.
    destruct (s_dark us1), (s_wholesome us1), (s_dark cs1), (s_wholesome cs1);
      reflexivity. }
  assert (Er : risk_comp r1 = risk_comp r2)
    by (rewrite R1, R2; apply opposite_sym).
  destruct (vedic_block_sym _ _ _ _ _ _ V1 V2) as [Vs Vk].
  split; [rewrite T1, T2; f_equal; f_equal; apply (comm_L (∩))|].
  split; [rewrite G1, G2; lia|].
  repeat split; try done. by rewrite Ci1, Ci2, Ee, Eh, Er.
Qed.
End symmetry_extra.

Lemma pair_signals_symmetric_witness :
  exists r1 r2, mutual_rows !! 0%nat = Some r1 /\ mutual_rows !! 1%nat = Some r2
    /\ Features.comp_index r1 = Features.comp_index r2
    /\ Features.vedic_lite_score r1 = Features.vedic_lite_score r2
    /\ Features.vedic_confidence r1 == Features.vedic_confidence r2.
Proof.
  eexists. eexists. split; [reflexivity|]. split; [reflexivity|].
  match goal with |- Features.comp_index ?r1 = Features.comp_index ?r2 /\ _ =>
    destruct (pair_signals_symmetric sample_records mutual_candidates ∅
                (Some sample_filters) mutual_rows r1 r2 eq_refl
                (list_elem_of_lookup_2 mutual_rows 0 r1 eq_refl)
                (list_elem_of_lookup_2 mutual_rows 1 r2 eq_refl)
                eq_refl eq_refl)
      as (_ & _ & _ & _ & _ & Hc & Hs & Hk)
  end. auto.
Defined.

Section ranker_extra.
Import Features Ranker.

Lemma has_column_assign df n vals name :
  name <> n -> has_column (assign df n vals) name = has_column df name.
Proof.
  intros Hne. unfold assign. unfold has_column at 1. cbn [columns].
  destruct (has_column df n); [reflexivity|].
  unfold has_column. apply bool_decide_ext.
  rewrite elem_of_app, list_elem_of_singleton. tauto.
Qed.

Lemma length_assign df n vals :
  length vals = length (rows df) -> length (rows (assign df n vals)) = length (rows df).
Proof. intros H. unfold assign; simpl. rewrite length_zip_with. lia. Qed.

(* the final score of any frame, whatever columns it has *)
Lemma score_formula self df i r :
  rows df !! i = Some r ->
  final_score_at (score self df) i
  = Some (w_sim self * cell_or df r "base_sim" 0.0
          + w_comp self * cell_or df r "comp_index" 0.0
          + calendar_weight self (cell_or df r "vedic_confidence" 0)
            * cell_or df r "vedic_lite_score" 0.0
          - age_penalty self * cell_or df r "age_gap" 0).
Proof.
  intros H0.
  set (df1 := assign_scalar df "novelty" (novelty_value self)).
  set (df2 := assign_scalar df1 "prior" (prior_value self)).
  pose proof (assign_scalar_lookup df "novelty" (novelty_value self) i _ H0) as H1.
  fold df1 in H1.
  pose proof (assign_scalar_lookup df1 "prior" (prior_value self) i _ H1) as H2.
  fold df2 in H2.
  assert (Hc : forall name, name <> "novelty"%string -> name <> "prior"%string ->
                 has_column df2 name = has_column df name).
  { intros name N1 N2. subst df2 df1. unfold assign_scalar.
    by rewrite !has_column_assign. }
  assert (Hr : forall name, name <> "novelty"%string -> name <> "prior"%string ->
    (<["prior"%string := prior_value self]>
       (<["novelty"%string := novelty_value self]> r)) !! name = r !! name).
  { intros name N1 N2. by rewrite !lookup_insert_ne. }
  erewrite final_score_at_row; [apply lookup_insert_eq|].
  unfold score. fold df1; fold df2.
  apply assign_lookup; [exact H2|].
  rewrite !lookup_zip_with. unfold scale. rewrite !lookup_map.
  rewrite !(get_lookup _ _ _ _ _ H2).
  unfold cell_or, calendar_weight.
  rewrite !Hc, !Hr by done.
  destruct (has_column df "vedic_confidence") eqn:Ev.
  - rewrite (series_lookup _ _ _ _ H2), Hr by done. reflexivity.
  - rewrite lookup_map, H2. reflexivity.
Qed.

(* the score of a row of a frame of feature rows *)
Lemma feature_row_score self l i r :
  l !! i = Some r ->
  final_score_at (score self (frame_of l)) i
  = Some (w_sim self * base_sim r + w_comp self * comp_index r
          + calendar_weight self (vedic_confidence r) * vedic_lite_score r
          - age_penalty self * inject_Z (age_gap r)).
Proof.
  intros Hl. destruct l as [|r0 l']; [by rewrite lookup_nil in Hl|].
  assert (H0 : rows (frame_of (r0 :: l')) !! i = Some (cells r))
    by (change (rows (frame_of (r0 :: l'))) with (map cells (r0 :: l'));
        by rewrite lookup_map, Hl).
  rewrite (score_formula self _ i _ H0). reflexivity.
Qed.

Lemma calendar_weight_range self conf :
  0 <= w_vedic self -> 0 <= vedic_low_shrink self <= 1 ->
  0 <= calendar_weight self conf <= w_vedic self.
Proof.
  intros Hw [S0 S1]. unfold calendar_weight.
  destruct (Qle_bool _ _); [lra|].
  assert (0 <= w_vedic self * vedic_low_shrink self)
    by (by apply Qmult_le_0_compat).
  assert (0 <= w_vedic self * (1 - vedic_low_shrink self))
    by (apply Qmult_le_0_compat; lra).
  assert (E : w_vedic self * (1 - vedic_low_shrink self)
              == w_vedic self - w_vedic self * vedic_low_shrink self) by ring.
  rewrite E in *. lra.
Qed.

Lemma scaled_range w x lo :
  0 <= w -> lo <= x <= 1 -> lo <= 0 -> w * lo <= w * x /\ w * x <= w.
Proof.
  intros Hw [X0 X1] Hlo.
  assert (A : 0 <= w * (x - lo)) by (apply Qmult_le_0_compat; lra).
  assert (B : 0 <= w * (1 - x)) by (apply Qmult_le_0_compat; lra).
  assert (EA : w * (x - lo) == w * x - w * lo) by ring.
  assert (EB : w * (1 - x) == w - w * x) by ring.
  rewrite EA in A. rewrite EB in B. lra.
Qed.

(* a row after scoring: the three cells set, the others kept *)
Lemma score_row_cells self df i r :
  rows df !! i = Some r ->
  exists v,
    final_score_at (score self df) i = Some v
    /\ rows (score self df) !! i
       = Some (<["final_score"%string := v]>
                 (<["prior"%string := prior_value self]>
                    (<["novelty"%string := novelty_value self]> r))).
Proof.
  intros H0.
  pose proof (score_formula self df i r H0) as Hf.
  eexists. split; [exact Hf|].
  unfold final_score_at in Hf.
  destruct (rows (score self df) !! i) as [r'|] eqn:E; [|done].
  cbn [mbind option_bind] in Hf.
  pose proof (assign_scalar_lookup df "novelty" (novelty_value self) i _ H0) as H1.
  pose proof (assign_scalar_lookup _ "prior" (prior_value self) i _ H1) as H2.
  unfold score in E.
  set (final := zip_with Qminus _ _) in E.
  destruct (final !! i) as [v|] eqn:Ev.
  - rewrite (assign_lookup _ _ _ _ _ _ H2 Ev) in E. inversion E; subst r'.
    rewrite lookup_insert_eq in Hf. by inversion Hf.
  - unfold assign in E. cbn [rows] in E.
    rewrite lookup_zip_with, H2, Ev in E. done.
Qed.

Lemma length_get df name d : length (get df name d) = length (rows df).
Proof. unfold get, series. destruct (has_column df name); by rewrite length_map. Qed.

Lemma length_assign_scalar df n v :
  length (rows (assign_scalar df n v)) = length (rows df).
Proof.
  unfold assign_scalar, assign. cbn [rows].
  rewrite length_zip_with, length_map. lia.
Qed.

Lemma length_score self df : length (rows (score self df)) = length (rows df).
Proof.
  unfold score.
  set (df2 := assign_scalar (assign_scalar df _ _) _ _).
  assert (L : length (rows df2) = length (rows df))
    by (unfold df2; by rewrite !length_assign_scalar).
  assert (Hc : forall c : bool,
            length (if c then series df2 "vedic_confidence"
                    else map (fun _ => 0) (rows df2)) = length (rows df2))
    by (intros []; unfold series; by rewrite length_map).
  unfold assign. cbn [rows].
  rewrite !length_zip_with. unfold scale.
  rewrite !length_map, !length_get, Hc. lia.
Qed.

(** X9: AdditiveRanker.score keeps the rows of the frame, in their order: it
    sets the cells novelty, prior and final_score of every row and leaves
    every other cell as it was. *)
Theorem score_keeps_rows (self : AdditiveRanker) (df : Frame) :
  length (rows (score self df)) = length (rows df)
  /\ forall i r, rows df !! i = Some r ->
       exists r', rows (score self df) !! i = Some r'
         /\ r' !! "novelty"%string = Some (novelty_value self)
         /\ r' !! "prior"%string = Some (prior_value self)
         /\ is_Some (r' !! "final_score"%string)
         /\ forall name, name <> "novelty"%string -> name <> "prior"%string ->
              name <> "final_score"%string -> r' !! name = r !! name.
Proof.
  split; [apply length_score|].
  intros i r H0. destruct (score_row_cells self df i r H0) as (v & _ & Hr).
  eexists. split; [exact Hr|].
  split; [by rewrite lookup_insert_ne, lookup_insert_ne, lookup_insert_eq|].
  split; [by rewrite lookup_insert_ne, lookup_insert_eq|].
  split; [rewrite lookup_insert_eq; by eexists|].
  intros name N1 N2 N3. by rewrite !lookup_insert_ne.
Qed.

(** X10: AdditiveRanker.score works on a frame with any columns: a column
    among base_sim, comp_index, vedic_lite_score, vedic_confidence and age_gap
    that the frame lacks counts as 0 in the final score of every row. *)
Theorem missing_columns_count_zero (self : AdditiveRanker) (df : Frame)
    (i : nat) (r : gmap string Q) :
  rows df !! i = Some r ->
  exists v, final_score_at (score self df) i = Some v
    /\ v == w_sim self * cell_or df r "base_sim" 0
            + w_comp self * cell_or df r "comp_index" 0
            + calendar_weight self (cell_or df r "vedic_confidence" 0)
              * cell_or df r "vedic_lite_score" 0
            - age_penalty self * cell_or df r "age_gap" 0.
Proof.
  intros H0. eexists. split; [by apply score_formula|].
  unfold cell_or.
  destruct (has_column df "base_sim"), (has_column df "comp_index"),
           (has_column df "vedic_lite_score"); ring.
Qed.

(** X11: what the confidence threshold costs: of two feature rows that differ
    only in the calendar confidence, one at or above vedic_min_conf and one
    below it, the first scores higher by
    w_vedic * (1 - vedic_low_shrink) * vedic_lite_score. *)
Theorem confidence_gating_difference (self : AdditiveRanker)
    (l1 l2 : list FeatureRow) (i j : nat) (hi lo : FeatureRow) (v1 v2 : Q) :
  l1 !! i = Some hi -> l2 !! j = Some lo ->
  base_sim hi = base_sim lo -> comp_index hi = comp_index lo ->
  vedic_lite_score hi = vedic_lite_score lo -> age_gap hi = age_gap lo ->
  vedic_min_conf self <= vedic_confidence hi ->
  vedic_confidence lo < vedic_min_conf self ->
  final_score_at (score self (frame_of l1)) i = Some v1 ->
  final_score_at (score self (frame_of l2)) j = Some v2 ->
  v1 - v2 == w_vedic self * (1 - vedic_low_shrink self) * vedic_lite_score hi.
Proof.
  intros H1 H2 Eb Ec Es Eg Chi Clo F1 F2.
  rewrite (feature_row_score self l1 i hi H1) in F1.
  rewrite (feature_row_score self l2 j lo H2) in F2.
  inversion F1; inversion F2; subst v1 v2.
  unfold calendar_weight.
  apply Qle_bool_iff in Chi. rewrite Chi.
  destruct (Qle_bool (vedic_min_conf self) (vedic_confidence lo)) eqn:E;
    [apply Qle_bool_iff in E; lra|].
  rewrite Eb, Ec, Es, Eg. ring.
Qed.

(** X12: with weights that are not negative, a shrink factor in [0,1], a
    similarity in [-1,1] and the other signals in [0,1], the final score of a
    feature row is at most w_sim + w_comp + w_vedic and at least
    -w_sim - age_penalty * age_gap. *)
Theorem final_score_bounds (self : AdditiveRanker) (l : list FeatureRow)
    (i : nat) (r : FeatureRow) (v : Q) :
  l !! i = Some r ->
  0 <= w_sim self -> 0 <= w_comp self -> 0 <= w_vedic self ->
  0 <= vedic_low_shrink self <= 1 -> 0 <= age_penalty self ->
  -1 <= base_sim r <= 1 -> 0 <= comp_index r <= 1 ->
  0 <= vedic_lite_score r <= 1 -> (0 <= age_gap r)%Z ->
  final_score_at (score self (frame_of l)) i = Some v ->
  v <= w_sim self + w_comp self + w_vedic self
  /\ - w_sim self - age_penalty self * inject_Z (age_gap r) <= v.
Proof.
  intros Hl Ws Wc Wv Sh Pen Bs Bc Bv Bg F.
  rewrite (feature_row_score self l i r Hl) in F. inversion F; subst v; clear F.
  pose proof (calendar_weight_range self (vedic_confidence r) Wv Sh) as [K0 K1].
  set (k := calendar_weight self (vedic_confidence r)) in *.
  destruct (scaled_range (w_sim self) (base_sim r) (-1) Ws Bs ltac:(lra)) as [A0 A1].
  assert (B0 : 0 <= w_comp self * comp_index r) by (apply Qmult_le_0_compat; lra).
  destruct (scaled_range (w_comp self) (comp_index r) 0 Wc Bc ltac:(lra)) as [_ B1].
  assert (C0 : 0 <= k * vedic_lite_score r) by (apply Qmult_le_0_compat; lra).
  destruct (scaled_range k (vedic_lite_score r) 0 K0 Bv ltac:(lra)) as [_ C1].
  assert (G : 0 <= inject_Z (age_gap r))
    by (change 0 with (inject_Z 0); by rewrite <- Zle_Qle).
  assert (D0 : 0 <= age_penalty self * inject_Z (age_gap r))
    by (by apply Qmult_le_0_compat).
  assert (EA : w_sim self * -1 == - w_sim self) by ring.
  rewrite EA in A0. split; lra.
Qed.
End ranker_extra.

Lemma score_keeps_rows_witness :
  length (Ranker.rows (Ranker.score (Ranker.init empty_config)
                         (Ranker.frame_of [sample_row]))) = 1%nat
  /\ exists r', Ranker.rows (Ranker.score (Ranker.init empty_config)
                               (Ranker.frame_of [sample_row])) !! 0%nat = Some r'
       /\ r' !! "base_sim"%string = Some 0.9.
Proof.
  destruct (score_keeps_rows (Ranker.init empty_config) (Ranker.frame_of [sample_row]))
    as [Hl Hr].
  split; [exact Hl|].
  destruct (Hr 0%nat (Ranker.cells sample_row) eq_refl) as (r' & H0 & _ & _ & _ & Hk).
  exists r'. split; [exact H0|].
  rewrite (Hk "base_sim"%string) by discriminate. reflexivity.
Defined.

Lemma missing_columns_count_zero_witness :
  exists v, Ranker.final_score_at (Ranker.score (Ranker.init empty_config) bare_frame) 0
            = Some v
    /\ v == 0.30 * 0.5.
Proof.
  destruct (missing_columns_count_zero (Ranker.init empty_config) bare_frame 0
              bare_row eq_refl) as (v & Hv & Heq).
  exists v. split; [exact Hv|]. rewrite Heq. reflexivity.
Defined.

Lemma confidence_gating_difference_witness :
  exists v1 v2,
    Ranker.final_score_at (Ranker.score (Ranker.init empty_config)
                             (Ranker.frame_of [confident_row])) 0 = Some v1
    /\ Ranker.final_score_at (Ranker.score (Ranker.init empty_config)
                                (Ranker.frame_of [sample_row])) 0 = Some v2
    /\ v1 - v2 == 0.50 * (1 - 0.5) * 0.5.
Proof.
  eexists. eexists. split; [reflexivity|]. split; [reflexivity|].
  apply (confidence_gating_difference (Ranker.init empty_config)
           [confident_row] [sample_row] 0 0 confident_row sample_row);
    try reflexivity.
  - discriminate.
Defined.

Lemma final_score_bounds_witness :
  exists v,
    Ranker.final_score_at (Ranker.score (Ranker.init empty_config)
                             (Ranker.frame_of [sample_row])) 0 = Some v
    /\ v <= 0.30 + 0.20 + 0.50.
Proof.
  eexists. split; [reflexivity|].
  refine (proj1 (final_score_bounds (Ranker.init empty_config) [sample_row] 0
                   sample_row _ eq_refl _ _ _ _ _ _ _ _ _ eq_refl));
    try (split; discriminate); discriminate.
Defined.

Section gating_extra.
Import Py Calendar Features Ranker.

(** X13: with a confidence threshold of at most 0.488 (the default is 0.30)
    the low-confidence shrink changes no score of a row that build_features
    produced: such a row has a confidence of at least 0.488, or a calendar
    score of 0, so its final score is
    w_sim * base_sim + w_comp * comp_index + w_vedic * vedic_lite_score
    - age_penalty * age_gap. *)
Theorem shrink_inert_below_floor (self : AdditiveRanker)
    (records : list pydict) (candidates : list (Z * list (Z * Q)))
    (mix : gmap string Q) (filters : option (gmap string bool))
    (rows : list FeatureRow) (i : nat) (r : FeatureRow) :
  build_features records candidates mix filters = Some rows ->
  rows !! i = Some r ->
  vedic_min_conf self <= 0.488 ->
  exists v, final_score_at (score self (frame_of rows)) i = Some v
    /\ v == w_sim self * base_sim r + w_comp self * comp_index r
            + w_vedic self * vedic_lite_score r
            - age_penalty self * inject_Z (age_gap r).
Proof.
  intros Hb Hi Hc. eexists. split; [by apply feature_row_score|].
  destruct (build_features_row _ _ _ _ _ _ Hb (list_elem_of_lookup_2 _ _ _ Hi))
    as (by_id & uid & cands & u & us & cid & sim & c & _ & _ & _ & _ & _ & _ & Hp).
  destruct (pair_row_fields _ _ _ _ _ _ _ _ _ Hp)
    as (cs & _ & _ & _ & _ & _ & _ & _ & _ & _ & _ & Hv).
  apply vedic_block_values in Hv as [[Hs Hk]|(_ & _ & Hk & _)].
  - rewrite Hs. ring.
  - unfold calendar_weight.
    destruct (Qle_bool (vedic_min_conf self) (vedic_confidence r)) eqn:E; [ring|].
    assert (Hle : vedic_min_conf self <= vedic_confidence r) by lra.
    apply Qle_bool_iff in Hle. congruence.
Qed.
End gating_extra.

Lemma shrink_inert_below_floor_witness :
  exists row v, sample_rows !! 0%nat = Some row
    /\ Ranker.final_score_at (Ranker.score (Ranker.init empty_config)
                                (Ranker.frame_of sample_rows)) 0 = Some v
    /\ v == 0.30 * Features.base_sim row + 0.20 * Features.comp_index row
            + 0.50 * Features.vedic_lite_score row
            - 0.0 * inject_Z (Features.age_gap row).
Proof.
  eexists. 
  match goal with |- exists v, _ !! _ = Some ?r /\ _ =>
    destruct (shrink_inert_below_floor (Ranker.init empty_config) sample_records
                sample_candidates ∅ (Some sample_filters) sample_rows 0 r
                eq_refl eq_refl) as (v & Hv & Heq); [discriminate|]
  end.
  exists v. split; [reflexivity|]. split; [exact Hv|exact Heq].
Defined.

Section recall_extra.
Import Recall.

Lemma Forall2_fst_eq {A B} (l : list A) (k : list (A * B)) :
  Forall2 (fun x y => y.1 = x) l k -> map fst k = l.
Proof. induction 1 as [|x y l k H _ IH]; simpl; [done|]. by rewrite H, IH. Qed.

Section with_numpy.
Variable argpartition : list sim -> nat -> list nat.
Variable argsort : list sim -> list nat.
Hypothesis Hpart : argpartition_contract argpartition.
Hypothesis Hsort : argsort_contract argsort.

(* the rows topk_for_user picks: their positions [top], pairwise distinct,
   none the user's own, and no row left out is more similar than a picked one *)
Lemma topk_anatomy g uid k idx row :
  wf_generator g -> id_to_idx g !! uid = Some idx ->
  sim_matrix g !! idx = Some row ->
  exists res top,
    topk_for_user argpartition argsort g uid k = Some res
    /\ length res = Z.to_nat (Z.min k (Z.of_nat (length (user_ids g)) - 1))
    /\ NoDup top /\ (idx ∉ top)
    /\ Forall2 (fun t p => user_ids g !! t = Some p.1
                           /\ exists q, row !! t = Some q /\ p.2 = Fin q) top res
    /\ forall j q, j <> idx -> j ∉ top -> row !! j = Some q ->
         forall p, p ∈ res -> sim_le (Fin q) p.2 = true.
Proof.
  intros (Hidx & Hlen & Hrows) Hk Hrow.
  set (N := length (user_ids g)) in *.
  assert (Hid : user_ids g !! idx = Some uid)
    by (apply index_ids_lookup; by rewrite <- Hidx).
  assert (HidxN : (idx < N)%nat) by (by eapply lookup_lt_Some).
  assert (Hrowlen : length row = N).
  { rewrite Forall_forall in Hrows. apply Hrows. by eapply list_elem_of_lookup_2. }
  unfold topk_for_user. rewrite Hk, Hrow. cbn [mbind option_bind].
  assert (Hlt : (idx <? length row)%nat = true) by (apply Nat.ltb_lt; lia).
  rewrite Hlt. cbn [negb].
  set (sims := <[idx := NegInf]> (map Fin row)).
  assert (Hsl : length sims = N) by (subst sims; by rewrite length_insert, length_map).
  rewrite Hsl. fold N.
  destruct (Z.min k (Z.of_nat N - 1) <=? 0)%Z eqn:Ek.
  { apply Z.leb_le in Ek. exists [], []. repeat split.
    - simpl. lia.
    - constructor.
    - apply not_elem_of_nil.
    - constructor.
    - intros j q _ _ _ p Hp. by apply elem_of_nil in Hp. }
  apply Z.leb_gt in Ek.
  set (ke := Z.to_nat (Z.min k (Z.of_nat N - 1))).
  assert (Hke : (1 <= ke <= N - 1)%nat) by lia.
  destruct (Hpart sims (N - ke)%nat) as [Pperm Psplit]; [lia|].
  set (part := argpartition sims (N - ke)) in *.
  assert (Hpl : length part = N) by (by rewrite Pperm, length_seq).
  assert (Hpnd : NoDup part) by (rewrite Pperm; apply NoDup_seq).
  rewrite Hpl.
  set (top_idx := drop (N - ke) part).
  assert (Htl : length top_idx = ke) by (subst top_idx; rewrite length_drop; lia).
  assert (Hpart_lt : forall i t, part !! i = Some t -> (t < N)%nat).
  { intros i t Ht. apply list_elem_of_lookup_2 in Ht. rewrite Pperm in Ht.
    apply elem_of_seq in Ht. lia. }
  assert (Hsims_self : sims !! idx = Some NegInf)
    by (subst sims; apply list_lookup_insert_eq; rewrite length_map; lia).
  assert (Hsims_other : forall t, t <> idx -> sims !! t = Fin <$> row !! t).
  { intros t Hne. subst sims. rewrite list_lookup_insert_ne by done.
    change (map Fin row) with (Fin <$> row). by rewrite list_lookup_fmap. }
  assert (Htop : forall r t, top_idx !! r = Some t -> (t < N)%nat /\ t <> idx).
  { intros r t Ht. subst top_idx. rewrite lookup_drop in Ht.
    split; [by eapply Hpart_lt|]. intros ->.
    destruct (lookup_lt_is_Some_2 part 0) as [p0 Hp0]; [lia|].
    assert (p0 <> idx).
    { intros ->. assert (0 = N - ke + r)%nat; [|lia].
      eapply NoDup_lookup; [exact Hpnd|exact Hp0|exact Ht]. }
    destruct (lookup_lt_is_Some_2 row p0) as [q Hq];
      [rewrite Hrowlen; by eapply Hpart_lt|].
    assert (Hsq : sims !! p0 = Some (Fin q)) by (by rewrite Hsims_other, Hq).
    pose proof (Psplit 0%nat (N - ke + r)%nat p0 idx (Fin q) NegInf
                  ltac:(lia) ltac:(lia) Hp0 Ht Hsq Hsims_self) as Hle.
    done. }
  assert (Hv0 : is_Some (take_at sims top_idx)).
  { unfold take_at. apply mapM_is_Some_2. apply Forall_forall.
    intros t Ht. apply list_elem_of_lookup in Ht as [r Hr].
    apply lookup_lt_is_Some. rewrite Hsl. by apply (Htop r). }
  destruct Hv0 as [vals Hvals]. rewrite Hvals. cbn [mbind option_bind].
  pose proof (Hvals' := Hvals). unfold take_at in Hvals'. apply mapM_Some in Hvals'.
  assert (Hvl : length vals = ke) by (by rewrite <- (Forall2_length _ _ _ Hvals')).
  destruct (Hsort vals) as [Sperm Ssorted].
  assert (Hal : length (argsort vals) = ke) by (by rewrite Sperm, length_seq).
  assert (Ht0 : is_Some (take_at top_idx (reverse (argsort vals)))).
  { unfold take_at. apply mapM_is_Some_2. apply Forall_forall. intros r Hr.
    assert (Hr' : r ∈ seq 0 (length vals))
      by (rewrite <- Sperm; by apply elem_of_reverse).
    apply elem_of_seq in Hr'. apply lookup_lt_is_Some. lia. }
  destruct Ht0 as [top_sorted Hts]. rewrite Hts. cbn [mbind option_bind].
  pose proof (Hts' := Hts). unfold take_at in Hts'. apply mapM_Some in Hts'.
  assert (Htsl : length top_sorted = ke)
    by (by rewrite <- (Forall2_length _ _ _ Hts'), length_reverse).
  set (f := fun j : nat => user_ids g !! j ≫= fun uid0 => sims !! j ≫= fun s => Some (uid0, s)).
  assert (Hts_in : forall i t, top_sorted !! i = Some t ->
            exists r, top_idx !! r = Some t /\ reverse (argsort vals) !! i = Some r).
  { intros i t Hi. destruct (Forall2_lookup_r _ _ _ _ _ Hts' Hi) as (r & ? & ?). eauto. }
  assert (Hres0 : is_Some (mapM f top_sorted)).
  { apply mapM_is_Some_2. apply Forall_forall. intros t Ht.
    apply list_elem_of_lookup in Ht as [i Hi].
    destruct (Hts_in i t Hi) as (r & Hr & _).
    destruct (Htop r t Hr) as [HtN Hne].
    destruct (lookup_lt_is_Some_2 (user_ids g) t) as [u Hu]; [done|].
    destruct (lookup_lt_is_Some_2 row t) as [q Hq]; [lia|].
    exists (u, Fin q). unfold f. rewrite Hu, Hsims_other, Hq by done. done. }
  destruct Hres0 as [res Hres]. exists res, top_sorted.
  split; [exact Hres|].
  pose proof (Hres' := Hres). apply mapM_Some in Hres'.
  split; [by rewrite <- (Forall2_length _ _ _ Hres')|].
  assert (Hrnd : NoDup (reverse (argsort vals))).
  { rewrite reverse_Permutation, Sperm. apply NoDup_seq. }
  assert (Htnd : NoDup top_idx)
    by (subst top_idx; eapply sublist_NoDup; [exact Hpnd|apply sublist_drop]).
  split.
  { apply NoDup_alt. intros i j t Hi Hj.
    destruct (Hts_in i t Hi) as (ri & Hri & Hi').
    destruct (Hts_in j t Hj) as (rj & Hrj & Hj').
    assert (ri = rj) by (eapply NoDup_lookup; [exact Htnd|exact Hri|exact Hrj]).
    subst rj. eapply NoDup_lookup; [exact Hrnd|exact Hi'|exact Hj']. }
  split.
  { intros Hin. apply list_elem_of_lookup in Hin as [i Hi].
    destruct (Hts_in i idx Hi) as (r & Hr & _). by destruct (Htop r idx Hr). }
  assert (Hat : forall i p, res !! i = Some p ->
            exists t r, top_sorted !! i = Some t /\ top_idx !! r = Some t
              /\ user_ids g !! t = Some p.1 /\ sims !! t = Some p.2).
  { intros i p Hp.
    destruct (Forall2_lookup_r _ _ _ _ _ Hres' Hp) as (t & Ht & Hf).
    destruct (Hts_in i t Ht) as (r & Hr & _).
    unfold f in Hf. destruct (user_ids g !! t) as [u|] eqn:Eu; [|done].
    cbn [mbind option_bind] in Hf.
    destruct (sims !! t) as [s|] eqn:Es; [|done]. cbn [mbind option_bind] in Hf.
    inversion Hf; subst p. exists t, r. done. }
  split.
  { apply Forall2_same_length_lookup_2; [by apply Forall2_length in Hres'|].
    intros i t p Ht Hp.
    destruct (Hat i p Hp) as (t' & r & Ht' & Hr & Hu & Hs).
    assert (t' = t) by congruence. subst t'.
    split; [done|]. destruct (Htop r t Hr) as [_ Hne].
    rewrite Hsims_other in Hs by done.
    destruct (row !! t) as [q|]; [|done]. inversion Hs. eauto. }
  intros j q Hj Hnot Hq p Hp.
  assert (HjN : (j < N)%nat) by (rewrite <- Hrowlen; by eapply lookup_lt_Some).
  assert (Hjin : j ∈ part) by (rewrite Pperm; apply elem_of_seq; lia).
  apply list_elem_of_lookup in Hjin as [pj Hpj].
  assert (Hsj : sims !! j = Some (Fin q)) by (by rewrite Hsims_other, Hq).
  apply list_elem_of_lookup in Hp as [i Hi].
  destruct (Hat i p Hi) as (t & r & Ht & Hr & _ & Hs).
  assert (Hr' : part !! (N - ke + r)%nat = Some t)
    by (subst top_idx; by rewrite lookup_drop in Hr).
  destruct (decide (pj < N - ke)%nat) as [Hlow|Hhigh].
  - exact (Psplit pj (N - ke + r)%nat j t (Fin q) p.2 Hlow ltac:(lia) Hpj Hr' Hsj Hs).
  - exfalso. apply Hnot.
    assert (Hpjl : (pj < N)%nat) by (rewrite <- Hpl; by eapply lookup_lt_Some).
    assert (Hrj : top_idx !! (pj - (N - ke))%nat = Some j).
    { subst top_idx. rewrite lookup_drop. by replace (N - ke + (pj - (N - ke)))%nat with pj by lia. }
    assert (Hin : (pj - (N - ke))%nat ∈ reverse (argsort vals)).
    { apply elem_of_reverse. rewrite Sperm. apply elem_of_seq. lia. }
    apply list_elem_of_lookup in Hin as [i' Hi'].
    destruct (Forall2_lookup_l _ _ _ _ _ Hts' Hi') as (t' & Ht' & Htr).
    assert (t' = j) by congruence. subst t'.
    by eapply list_elem_of_lookup_2.
Qed.

(** X14: for a known user topk_for_user returns exactly min(k, N-1) candidates
    (none when that is not positive), taken from pairwise distinct rows of the
    table other than the user's own, each with its similarity to the user, and
    no row left out is more similar to the user than a returned one. *)
Theorem topk_returns_the_best (g : CandidateGenerator) (uid k : Z)
    (idx : nat) (row : list Q) :
  wf_generator g -> id_to_idx g !! uid = Some idx ->
  sim_matrix g !! idx = Some row ->
  exists res top,
    topk_for_user argpartition argsort g uid k = Some res
    /\ length res = Z.to_nat (Z.min k (Z.of_nat (length (user_ids g)) - 1))
    /\ NoDup top /\ (idx ∉ top)
    /\ Forall2 (fun t p => user_ids g !! t = Some p.1
                           /\ exists q, row !! t = Some q /\ p.2 = Fin q) top res
    /\ forall j q, j <> idx -> j ∉ top -> row !! j = Some q ->
         forall p, p ∈ res -> sim_le (Fin q) p.2 = true.
Proof. apply topk_anatomy. Qed.

(* every user gets an entry, and the entry is the user's own top k *)
Lemma topk_for_all_entries (g : CandidateGenerator) (k : Z) :
  wf_generator g ->
  exists res,
    topk_for_all argpartition argsort g k = Some res
    /\ map fst res = user_ids g
    /\ forall uid l, (uid, l) ∈ res ->
         topk_for_user argpartition argsort g uid k = Some l
         /\ length l = Z.to_nat (Z.min k (Z.of_nat (length (user_ids g)) - 1)).
Proof.
  intros Hwf. unfold topk_for_all.
  set (f := fun uid : Z =>
              topk_for_user argpartition argsort g uid k ≫= fun r => Some (uid, r)).
  assert (Hall : forall uid, uid ∈ user_ids g ->
            exists l, topk_for_user argpartition argsort g uid k = Some l
              /\ length l = Z.to_nat (Z.min k (Z.of_nat (length (user_ids g)) - 1))).
  { intros uid Hin. destruct (index_ids_known _ _ Hin) as [idx Hidx].
    destruct Hwf as (Hi & Hrest). rewrite <- Hi in Hidx.
    destruct (topk_known argpartition argsort Hpart Hsort g uid k idx
                (conj Hi Hrest) Hidx) as (l & Hl & Hlen & _).
    eauto. }
  destruct (mapM_is_Some_2 f (user_ids g)) as [res Hres].
  { apply Forall_forall. intros uid Hin. destruct (Hall uid Hin) as (l & Hl & _).
    exists (uid, l). unfold f. by rewrite Hl. }
  exists res. split; [exact Hres|].
  apply mapM_Some in Hres.
  assert (Hf : forall uid p, f uid = Some p ->
                 p.1 = uid /\ topk_for_user argpartition argsort g uid k = Some p.2).
  { intros uid p Hp. unfold f in Hp.
    destruct (topk_for_user argpartition argsort g uid k) as [l|]; [|done].
    cbn [mbind option_bind] in Hp. by inversion Hp. }
  split.
  - apply Forall2_fst_eq. eapply Forall2_impl; [exact Hres|].
    intros uid p Hp. by destruct (Hf _ _ Hp).
  - intros uid l Hin. apply list_elem_of_lookup in Hin as [i Hi].
    destruct (Forall2_lookup_r _ _ _ _ _ Hres Hi) as (uid' & Hu & Hp).
    destruct (Hf _ _ Hp) as [E1 E2]. simpl in E1, E2. subst uid'.
    split; [done|].
    destruct (Hall uid) as (l' & Hl' & Hlen); [by eapply list_elem_of_lookup_2|].
    congruence.
Qed.

(** X15: with unique user ids (the dict then has one key per row)
    topk_for_all returns one entry per user, in the order of the rows, and
    each entry is what topk_for_user returns for that user, min(k, N-1)
    candidates long. *)
Theorem topk_for_all_covers_users (g : CandidateGenerator) (k : Z) :
  wf_generator g -> NoDup (user_ids g) ->
  exists res,
    topk_for_all argpartition argsort g k = Some res
    /\ map fst res = user_ids g
    /\ forall uid l, (uid, l) ∈ res ->
         topk_for_user argpartition argsort g uid k = Some l
         /\ length l = Z.to_nat (Z.min k (Z.of_nat (length (user_ids g)) - 1)).
Proof. intros Hwf _. by apply topk_for_all_entries. Qed.
End with_numpy.

Lemma index_ids_snoc ids x uid :
  index_ids (ids ++ [x]) !! uid
  = if decide (x = uid) then Some (length ids) else index_ids ids !! uid.
Proof.
  unfold index_ids. rewrite imap_app, foldl_app. simpl.
  rewrite Nat.add_0_r. destruct (decide (x = uid)) as [->|Hne].
  - by rewrite lookup_insert_eq.
  - by rewrite lookup_insert_ne.
Qed.

(** X16: the index that __init__ builds maps an id to the last row that
    carries it: id_to_idx[uid] = i exactly when row i has the id and no later
    row has. *)
Theorem index_ids_last_position (ids : list Z) (uid : Z) (i : nat) :
  index_ids ids !! uid = Some i
  <-> ids !! i = Some uid /\ forall j, (i < j)%nat -> ids !! j <> Some uid.
Proof.
  revert i. induction ids as [|x ids IH] using rev_ind; intros i.
  - unfold index_ids. simpl. split.
    + intros H. by rewrite lookup_empty in H.
    + intros [H _]. by rewrite lookup_nil in H.
  - rewrite index_ids_snoc. destruct (decide (x = uid)) as [->|Hne].
    + split.
      * intros [= <-]. split; [by rewrite list_lookup_middle|].
        intros j Hj. rewrite lookup_ge_None_2; [done|]. rewrite length_app. simpl. lia.
      * intros [Hi Hlast]. f_equal.
        destruct (decide (i = length ids)) as [->|Hd]; [done|exfalso].
        assert (i < length ids)%nat.
        { apply lookup_lt_Some in Hi. rewrite length_app in Hi. simpl in Hi. lia. }
        apply (Hlast (length ids)); [done|]. by rewrite list_lookup_middle.
    + rewrite IH. split.
      * intros [Hi Hlast]. split; [by apply lookup_app_l_Some|].
        intros j Hj Hc. apply lookup_snoc_Some in Hc as [[_ Hc]|[_ Hc]]; [|done].
        by apply (Hlast j).
      * intros [Hi Hlast].
        apply lookup_snoc_Some in Hi as [[Hl Hi]|[_ Hi]]; [|done].
        split; [done|]. intros j Hj Hc. apply (Hlast j Hj).
        by apply lookup_app_l_Some.
Qed.

Lemma insert_sorted_perm c l : insert_sorted c l ≡ₚ c :: l.
Proof.
  induction l as [|x r IH]; simpl; [done|].
  destruct (String.leb c x); [done|]. rewrite IH. apply Permutation_swap.
Qed.

Lemma insert_sorted_ordered c l :
  Sorted (fun a b => String.leb a b = true) l ->
  Sorted (fun a b => String.leb a b = true) (insert_sorted c l).
Proof.
  induction 1 as [|x r Hr IH Hx]; simpl.
  - repeat constructor.
  - destruct (String.leb c x) eqn:E.
    + repeat constructor; done.
    + constructor; [done|].
      assert (Hxc : String.leb x c = true)
        by (destruct (String.leb_total c x); congruence).
      destruct r as [|y r']; simpl; [by constructor|].
      destruct (String.leb c y); constructor; try done.
      by inversion Hx.
Qed.

Lemma sorted_perm l : sorted l ≡ₚ l.
Proof.
  unfold sorted. induction l as [|c l IH]; simpl; [done|].
  by rewrite insert_sorted_perm, IH.
Qed.

Lemma sorted_ordered l : Sorted (fun a b => String.leb a b = true) (sorted l).
Proof.
  unfold sorted. induction l as [|c l IH]; simpl; [constructor|].
  by apply insert_sorted_ordered.
Qed.

(** X17: when find_embedding_columns returns, its result is not empty, is in
    ascending order, and holds exactly the columns of the frame that start
    with t_ or e_, each as often as the frame has it. *)
Theorem embedding_columns_sorted (df : DataFrame) (cols : list string) :
  find_embedding_columns df = inr cols ->
  Sorted (fun a b => String.leb a b = true) cols
  /\ cols ≡ₚ filter (fun c => is_embedding_column c = true) (df_columns df)
  /\ cols <> []
  /\ forall c, c ∈ cols <-> c ∈ df_columns df /\ is_embedding_column c = true.
Proof.
  unfold find_embedding_columns.
  set (emb := filter _ (df_columns df)).
  assert (Hemb : emb = filter (fun c => is_embedding_column c = true) (df_columns df)).
  { subst emb. apply list_filter_iff. intros c. unfold is_embedding_column.
    by destruct (_ || _). }
  destruct (bool_decide (emb = [])) eqn:E; [done|].
  apply bool_decide_eq_false in E. intros [= <-].
  split; [apply sorted_ordered|]. split; [by rewrite sorted_perm, Hemb|].
  split.
  - intros Hs. apply E. apply Permutation_nil_r. by rewrite <- sorted_perm, Hs.
  - intros c. rewrite sorted_perm, Hemb, list_elem_of_filter. tauto.
Qed.
End recall_extra.

Lemma topk_returns_the_best_witness :
  exists res,
    Recall.topk_for_user Recall.sorting_argpartition Recall.stable_argsort
      three_users 1 1 = Some res
    /\ length res = 1%nat.
Proof.
  destruct (topk_returns_the_best Recall.sorting_argpartition Recall.stable_argsort
              reference_argpartition_contract reference_argsort_contract
              three_users 1 1 0 [1; 0.5; 0.5] three_users_wf eq_refl eq_refl)
    as (res & top & H & L & _).
  exists res. split; [exact H|exact L].
Defined.

Lemma topk_for_all_covers_users_witness :
  exists res,
    Recall.topk_for_all Recall.sorting_argpartition Recall.stable_argsort
      three_users 2 = Some res
    /\ map fst res = [1; 2; 3]%Z.
Proof.
  assert (Hnd : NoDup (Recall.user_ids three_users))
    by (apply (bool_decide_unpack _); vm_compute; exact I).
  destruct (topk_for_all_covers_users Recall.sorting_argpartition
              Recall.stable_argsort reference_argpartition_contract
              reference_argsort_contract three_users 2 three_users_wf Hnd)
    as (res & H & M & _).
  exists res. split; [exact H|exact M].
Defined.

Lemma embedding_columns_sorted_witness :
  Sorted (fun a b => String.leb a b = true) ["e_0"; "t_0"; "t_1"]%string
  /\ ["e_0"; "t_0"; "t_1"]%string
     ≡ₚ filter (fun c => is_embedding_column c = true)
          (Recall.df_columns mixed_frame).
Proof.
  destruct (embedding_columns_sorted mixed_frame ["e_0"; "t_0"; "t_1"]%string
              eq_refl) as (Hs & Hp & _).
  split; [exact Hs|exact Hp].
Defined.

Section recommend_facts.
Import Features Ranker Recall Pipeline Recommender.

Lemma take_at_map {A} (d : A) (l : list A) idx rs :
  take_at l idx = Some rs -> rs = map (fun i => default d (l !! i)) idx.
Proof.
  unfold take_at. intros H. apply mapM_Some in H.
  induction H as [|i r idx rs H _ IH]; simpl; [done|]. rewrite H. simpl. by f_equal.
Qed.

Lemma map_lookup_seq {A} (d : A) (l : list A) :
  map (fun i => default d (l !! i)) (seq 0 (length l)) = l.
Proof.
  apply list_eq. intros i. rewrite lookup_map.
  destruct (decide (i < length l)%nat) as [Hi|Hi].
  - rewrite lookup_seq_lt by done. simpl.
    destruct (lookup_lt_is_Some_2 l i Hi) as [x Hx]. by rewrite Hx.
  - rewrite lookup_seq_ge by lia. simpl. symmetry. apply lookup_ge_None. lia.
Qed.

Lemma take_at_perm {A} (l : list A) idx rs :
  take_at l idx = Some rs -> idx ≡ₚ seq 0 (length l) -> rs ≡ₚ l.
Proof.
  intros H Hp. destruct l as [|d l'].
  - simpl in Hp. apply Permutation_nil_r in Hp. subst idx.
    unfold take_at in H. simpl in H. by inversion H.
  - rewrite (take_at_map d _ _ _ H).
    pose proof (fmap_Permutation (fun i => default d ((d :: l') !! i)) _ _ Hp) as X.
    change (?f <$> ?x) with (map f x) in X. by rewrite map_lookup_seq in X.
Qed.

Lemma take_at_total {A} (l : list A) idx :
  idx ≡ₚ seq 0 (length l) -> is_Some (take_at l idx).
Proof.
  intros Hp. unfold take_at. apply mapM_is_Some_2, Forall_forall.
  intros i Hi. rewrite Hp in Hi. apply elem_of_seq in Hi.
  apply lookup_lt_is_Some_2. lia.
Qed.


Lemma filter_of_map {A B} (f : A -> B) (P : B -> Prop) `{!forall x, Decision (P x)}
    (l : list A) :
  filter P (map f l) = map f (filter (fun x => P (f x)) l).
Proof.
  induction l as [|a l IH]; simpl; [done|]. rewrite !filter_cons.
  destruct (decide (P (f a))); simpl; by rewrite IH.
Qed.

(* the frame of feature rows after scoring, row by row *)
Lemma score_frame_rows self feats :
  rows (score self (frame_of feats)) = map (scored_cells self) feats.
Proof.
  apply list_eq. intros i. rewrite lookup_map.
  destruct (feats !! i) as [row|] eqn:E.
  - assert (H0 : rows (frame_of feats) !! i = Some (cells row))
      by (unfold frame_of; cbn [rows]; by rewrite lookup_map, E).
    destruct (score_row_cells self _ i _ H0) as (v & Hv & Hr).
    rewrite (feature_row_score self feats i row E) in Hv.
    inversion Hv; subst v. exact Hr.
  - change (rows (score self (frame_of feats)) !! i = None).
    apply lookup_ge_None. rewrite length_score. unfold frame_of. cbn [rows].
    rewrite length_map. by apply lookup_ge_None.
Qed.

Lemma scored_cells_final self row :
  scored_cells self row !! "final_score"%string = Some (row_score self row).
Proof. unfold scored_cells. by rewrite lookup_insert_eq. Qed.

Lemma head_rows df n :
  exists m, rows (head df n) = take m (rows df)
            /\ ((0 <= n)%Z -> m = Z.to_nat n).
Proof.
  unfold head. cbn [rows]. destruct (0 <=? n)%Z eqn:E.
  - eexists. split; [reflexivity|done].
  - eexists. split; [reflexivity|]. intros H. apply Z.leb_gt in E. lia.
Qed.

Lemma select_user_rows df uid mine :
  select_user df uid = Some mine ->
  columns mine = columns df
  /\ rows mine = filter (fun r => Qeq_bool (default 0 (r !! "user_id"%string))
                                          (inject_Z uid) = true) (rows df).
Proof.
  unfold select_user. destruct (negb _); [done|]. intros H. by inversion H.
Qed.

Lemma has_column_assigned df n vals : has_column (assign df n vals) n = true.
Proof.
  unfold assign. unfold has_column at 1. cbn [columns].
  destruct (has_column df n) eqn:E; [exact E|].
  apply bool_decide_eq_true. rewrite elem_of_app, list_elem_of_singleton. auto.
Qed.

(* the columns recommend_for_user reads are there after scoring *)
Lemma scored_columns self f0 feats :
  has_column (score self (frame_of (f0 :: feats))) "user_id" = true
  /\ has_column (score self (frame_of (f0 :: feats))) "final_score" = true.
Proof.
  split.
  - unfold score, assign_scalar. rewrite !has_column_assign by done. reflexivity.
  - unfold score. apply has_column_assigned.
Qed.

(* the cells of a recommended row *)
Lemma recommended_cells_lookup self row :
  recommended_cells self row !! "user_id"%string = Some (inject_Z (user_id row))
  /\ recommended_cells self row !! "match_id"%string = Some (inject_Z (match_id row))
  /\ recommended_cells self row !! "filter_gender"%string = Some (b2q (filter_gender row))
  /\ recommended_cells self row !! "filter_age"%string = Some (b2q (filter_age row))
  /\ recommended_cells self row !! "filter_city"%string = Some (b2q (filter_city row))
  /\ recommended_cells self row !! "final_score"%string = None
  /\ recommended_cells self row !! "compatibility_score"%string
     = Some (row_score self row).
Proof.
  unfold recommended_cells, scored_cells.
  repeat split;
    repeat first [ rewrite lookup_insert_eq
                 | rewrite lookup_delete_eq
                 | rewrite lookup_insert_ne by done
                 | rewrite lookup_delete_ne by done ];
    reflexivity.
Qed.

Lemma recommended_cells_score self row :
  cell (recommended_cells self row) "compatibility_score"
  = w_sim self * cell (recommended_cells self row) "base_sim"
    + w_comp self * cell (recommended_cells self row) "comp_index"
    + calendar_weight self (cell (recommended_cells self row) "vedic_confidence")
      * cell (recommended_cells self row) "vedic_lite_score"
    - age_penalty self * cell (recommended_cells self row) "age_gap".
Proof.
  unfold cell, recommended_cells, scored_cells.
  repeat first [ rewrite lookup_insert_eq
               | rewrite lookup_insert_ne by done
               | rewrite lookup_delete_ne by done ].
  reflexivity.
Qed.

Section with_libraries.
Variable argpartition : list sim -> nat -> list nat.
Variable argsort : list sim -> list nat.
Variable argsort_descending : list Q -> list nat.
Hypothesis Hpart : argpartition_contract argpartition.
Hypothesis Hsort : argsort_contract argsort.
Hypothesis Hdesc : argsort_descending_contract argsort_descending.

(* the sorted frame: the same rows, the keys not increasing *)
Lemma sort_values_spec df key :
  has_column df key = true ->
  exists s, sort_values argsort_descending df key = Some s
    /\ columns s = columns df /\ rows s ≡ₚ rows df
    /\ forall i j ri rj, (i <= j)%nat ->
         rows s !! i = Some ri -> rows s !! j = Some rj ->
         cell rj key <= cell ri key.
Proof.
  intros Hc. unfold sort_values. rewrite Hc. simpl.
  destruct (Hdesc (series df key)) as [Hp Ho].
  assert (Hl : length (series df key) = length (rows df))
    by (unfold series; by rewrite length_map).
  rewrite Hl in Hp.
  destruct (take_at_total (rows df) _ Hp) as [rs Hrs].
  rewrite Hrs. cbn [mbind option_bind].
  eexists. split; [reflexivity|]. cbn [columns rows].
  split; [done|]. split; [by eapply take_at_perm|].
  intros i j ri rj Hij Hi Hj.
  unfold take_at in Hrs. apply mapM_Some in Hrs.
  destruct (Forall2_lookup_r _ _ _ _ _ Hrs Hi) as (pi & Hpi & Hri).
  destruct (Forall2_lookup_r _ _ _ _ _ Hrs Hj) as (pj & Hpj & Hrj).
  apply (Ho i j pi pj _ _ Hij Hpi Hpj); by apply series_lookup.
Qed.

Lemma sort_values_columns df key s :
  sort_values argsort_descending df key = Some s -> has_column df key = true.
Proof. unfold sort_values. by destruct (has_column df key). Qed.

(* the candidates of a user: found, all with a finite similarity, no more
   than min(k, N-1), and each the id of a row other than the user's own *)
Lemma found_finite g uid k :
  wf_generator g ->
  exists found cands,
    topk_for_user argpartition argsort g uid k = Some found
    /\ finite found = Some cands
    /\ map fst cands = map fst found
    /\ (length found
        <= Z.to_nat (Z.min k (Z.of_nat (length (user_ids g)) - 1)))%nat
    /\ (uid ∉ user_ids g -> found = [])
    /\ forall p, p ∈ found ->
         exists idx j, user_ids g !! idx = Some uid /\ j <> idx
                       /\ user_ids g !! j = Some p.1.
Proof.
  intros Hwf. destruct (id_to_idx g !! uid) as [idx|] eqn:E.
  - pose proof Hwf as (Hi & Hlen & Hrows).
    assert (Hu : user_ids g !! idx = Some uid)
      by (apply index_ids_lookup; by rewrite <- Hi).
    pose proof (lookup_lt_Some _ _ _ Hu) as Hlt.
    destruct (lookup_lt_is_Some_2 (sim_matrix g) idx) as [row Hrow]; [lia|].
    destruct (topk_anatomy argpartition argsort Hpart Hsort g uid k idx row
                Hwf E Hrow) as (res & top & Hres & Hl & Hnd & Hnot & HF & _).
    assert (Hfin : forall p, p ∈ res -> exists q, p.2 = Fin q).
    { intros p Hp. apply list_elem_of_lookup in Hp as [i Hp].
      destruct (Forall2_lookup_r _ _ _ _ _ HF Hp) as (t & _ & _ & q & _ & Hq).
      eauto. }
    destruct (mapM_is_Some_2
                (fun p : Z * sim => match p.2 with
                                    | Fin q => Some (p.1, q)
                                    | NegInf => None
                                    end) res) as [cands Hc].
    { apply Forall_forall. intros p Hp. destruct (Hfin p Hp) as [q Hq].
      unfold compose. rewrite Hq. by eexists. }
    exists res, cands. split; [exact Hres|]. split; [exact Hc|].
    split.
    { apply mapM_Some in Hc. clear -Hc.
      induction Hc as [|p c l k' H _ IH]; simpl; [done|].
      destruct (p.2); [done|]. inversion H; subst. simpl. by f_equal. }
    split; [lia|].
    split.
    { intros Hn. exfalso. apply Hn. by eapply list_elem_of_lookup_2. }
    intros p Hp. apply list_elem_of_lookup in Hp as [i Hp].
    destruct (Forall2_lookup_r _ _ _ _ _ HF Hp) as (t & Ht & Hid & _).
    exists idx, t. split; [done|]. split; [|done].
    intros ->. apply Hnot. by eapply list_elem_of_lookup_2.
  - exists [], []. unfold topk_for_user. rewrite E.
    repeat split; try done; simpl; try lia.
    intros p Hp. by apply elem_of_nil in Hp.
Qed.

(* the rows of a returned recommendation: feature rows of the user's
   candidates, scored, the best first, cut at topn *)
Lemma recommended_rows self uid topn res :
  recommend_for_user argpartition argsort argsort_descending self uid topn
  = Returned res ->
  exists found cands feats picked,
    topk_for_user argpartition argsort (cand_gen self) uid (recall_k self)
    = Some found
    /\ finite found = Some cands
    /\ build_features (df_records (df self)) [(uid, cands)]
         (default ∅ (cfg_comp_mix (config self)))
         (Some (default ∅ (cfg_filters (config self)))) = Some feats
    /\ rows res = map (recommended_cells (ranker self)) picked
    /\ (length picked <= length feats)%nat
    /\ ((0 <= topn)%Z -> (length picked <= Z.to_nat topn)%nat)
    /\ (forall row, row ∈ picked -> row ∈ feats)
    /\ forall i j ri rj, (i <= j)%nat ->
         picked !! i = Some ri -> picked !! j = Some rj ->
         row_score (ranker self) rj <= row_score (ranker self) ri.
Proof.
  unfold recommend_for_user. intros H.
  destruct (topk_for_user _ _ _ _ _) as [found|] eqn:Ef; [|done].
  destruct (finite found) as [cands|] eqn:Ec; [|done].
  destruct (build_features _ _ _ _) as [feats|] eqn:Eb; [|done].
  exists found, cands, feats.
  destruct feats as [|f0 feats'].
  { inversion H; subst res. exists [].
    split; [done|]. split; [done|]. split; [done|]. split; [done|].
    split; [simpl; lia|]. split; [simpl; lia|]. split; [done|].
    intros i j ri rj _ Hi. by rewrite lookup_nil in Hi. }
  set (feats := f0 :: feats') in *.
  destruct (select_user _ uid) as [mine|] eqn:Em; [|done].
  cbn [mbind option_bind] in H.
  destruct (sort_values _ mine _) as [sorted|] eqn:Es; [|done].
  inversion H; subst res. clear H.
  apply select_user_rows in Em as [_ Hm].
  rewrite score_frame_rows, filter_of_map in Hm.
  destruct (sort_values_spec mine "final_score" (sort_values_columns _ _ _ Es))
    as (s' & Es' & _ & Hp & Ho).
  rewrite Es in Es'. inversion Es'; subst s'. clear Es'.
  rewrite Hm in Hp.
  apply Permutation_map_inv in Hp as (kept & Hk & Hperm).
  destruct (head_rows sorted topn) as (m & Hh & Hm').
  exists (take m kept).
  split; [done|]. split; [done|]. split; [done|].
  split.
  { unfold rename. cbn [rows]. rewrite Hh, Hk.
    change (map ?f ?x) with (f <$> x). rewrite <- fmap_take, <- list_fmap_compose.
    apply list_fmap_ext. intros _ row _. unfold compose.
    rewrite scored_cells_final. reflexivity. }
  assert (Hlen : (length kept <= length feats)%nat).
  { rewrite <- Hperm. apply length_filter. }
  split; [rewrite length_take; lia|].
  split; [intros Hn; rewrite length_take, (Hm' Hn); lia|].
  split.
  { intros row Hin. apply elem_of_take in Hin as (i & Hin & _).
    apply list_elem_of_lookup_2 in Hin. rewrite <- Hperm in Hin.
    by apply list_elem_of_filter in Hin as [_ Hin]. }
  intros i j ri rj Hij Hi Hj.
  apply lookup_take_Some in Hi as [Hi _]. apply lookup_take_Some in Hj as [Hj _].
  assert (Hsi : rows sorted !! i = Some (scored_cells (ranker self) ri))
    by (rewrite Hk, lookup_map, Hi; reflexivity).
  assert (Hsj : rows sorted !! j = Some (scored_cells (ranker self) rj))
    by (rewrite Hk, lookup_map, Hj; reflexivity).
  pose proof (Ho i j _ _ Hij Hsi Hsj) as Hc.
  unfold cell in Hc. by rewrite !scored_cells_final in Hc.
Qed.

(** X18: for a generator as __init__ leaves it, recommend_for_user never
    hands a similarity of -inf to the feature engine, and on records whose
    cells have the types of the schema it returns a frame, whatever the user
    id and topn, for any argpartition, argsort and descending sort that keep
    their contracts. *)
Theorem recommend_for_user_returns (self : RecommenderPipeline) (uid topn : Z) :
  wf_generator (cand_gen self) ->
  recommend_for_user argpartition argsort argsort_descending self uid topn
  <> Unmodelled
  /\ (Forall typed_record (df_records (df self)) ->
      exists res,
        recommend_for_user argpartition argsort argsort_descending self uid topn
        = Returned res).
Proof.
  intros Hwf.
  destruct (found_finite (cand_gen self) uid (recall_k self) Hwf)
    as (found & cands & Hf & Hc & _).
  assert (Hrun : forall feats,
            build_features (df_records (df self)) [(uid, cands)]
              (default ∅ (cfg_comp_mix (config self)))
              (Some (default ∅ (cfg_filters (config self)))) = Some feats ->
            exists res,
              recommend_for_user argpartition argsort argsort_descending
                self uid topn = Returned res).
  { intros feats Hb. unfold recommend_for_user. rewrite Hf, Hc, Hb.
    destruct feats as [|f0 feats']; [by eexists|].
    destruct (scored_columns (ranker self) f0 feats') as [Hu Hs].
    unfold select_user. rewrite Hu. cbn [negb mbind option_bind].
    match goal with |- context [sort_values _ ?m _] =>
      destruct (sort_values_spec m "final_score" Hs) as (s & -> & _)
    end.
    by eexists. }
  split.
  - destruct (build_features (df_records (df self)) [(uid, cands)]
                (default ∅ (cfg_comp_mix (config self)))
                (Some (default ∅ (cfg_filters (config self))))) as [feats|] eqn:Eb.
    + destruct (Hrun feats eq_refl) as [res ->]. done.
    + unfold recommend_for_user. by rewrite Hf, Hc, Eb.
  - intros Ht.
    destruct (build_features_total (df_records (df self)) [(uid, cands)]
                (default ∅ (cfg_comp_mix (config self)))
                (Some (default ∅ (cfg_filters (config self)))) Ht) as [feats Hb].
    by apply (Hrun feats).
Qed.

(** X19: for a user id that is not in the dataset recommend_for_user returns
    the empty frame with the eight result columns, unless the feature engine
    raises on the records; on records of the schema's types it returns that
    frame. *)
Theorem recommend_unknown_user (self : RecommenderPipeline) (uid topn : Z) :
  wf_generator (cand_gen self) -> uid ∉ user_ids (cand_gen self) ->
  (recommend_for_user argpartition argsort argsort_descending self uid topn
   = Returned no_recommendation
   \/ recommend_for_user argpartition argsort argsort_descending self uid topn
      = Raised)
  /\ (Forall typed_record (df_records (df self)) ->
      recommend_for_user argpartition argsort argsort_descending self uid topn
      = Returned no_recommendation).
Proof.
  intros Hwf Hn.
  destruct (found_finite (cand_gen self) uid (recall_k self) Hwf)
    as (found & cands & Hf & Hc & Hm & _ & He & _).
  rewrite (He Hn) in *. destruct cands; [|done].
  assert (Hrun : forall feats,
            build_features (df_records (df self)) [(uid, [])]
              (default ∅ (cfg_comp_mix (config self)))
              (Some (default ∅ (cfg_filters (config self)))) = Some feats ->
            recommend_for_user argpartition argsort argsort_descending
              self uid topn = Returned no_recommendation).
  { intros feats Hb. unfold recommend_for_user. rewrite Hf, Hc, Hb.
    apply build_features_length in Hb. unfold pair_count in Hb.
    destruct feats; [done|simpl in Hb; lia]. }
  split.
  - destruct (build_features (df_records (df self)) [(uid, [])]
                (default ∅ (cfg_comp_mix (config self)))
                (Some (default ∅ (cfg_filters (config self))))) as [feats|] eqn:Eb.
    + left. by apply (Hrun feats).
    + right. unfold recommend_for_user. by rewrite Hf, Hc, Eb.
  - intros Ht.
    destruct (build_features_total (df_records (df self)) [(uid, [])]
                (default ∅ (cfg_comp_mix (config self)))
                (Some (default ∅ (cfg_filters (config self)))) Ht) as [feats Hb].
    by apply (Hrun feats).
Qed.

(** X20: what recommend_for_user returns, with unique user ids: at most
    min(recall_k, N-1) rows, and at most topn when topn is not negative; every
    row is of the asked user, its match_id is another user of the dataset,
    its three filter flags are 1, and its score sits in compatibility_score,
    the column final_score being gone. *)
Theorem recommend_for_user_rows (self : RecommenderPipeline) (uid topn : Z)
    (res : Frame) :
  wf_generator (cand_gen self) -> NoDup (user_ids (cand_gen self)) ->
  recommend_for_user argpartition argsort argsort_descending self uid topn
  = Returned res ->
  (length (rows res)
   <= Z.to_nat (Z.min (recall_k self)
                  (Z.of_nat (length (user_ids (cand_gen self))) - 1)))%nat
  /\ ((0 <= topn)%Z -> (length (rows res) <= Z.to_nat topn)%nat)
  /\ forall r, r ∈ rows res ->
       r !! "user_id"%string = Some (inject_Z uid)
       /\ (exists m, r !! "match_id"%string = Some (inject_Z m)
                     /\ m <> uid /\ m ∈ user_ids (cand_gen self))
       /\ r !! "filter_gender"%string = Some 1
       /\ r !! "filter_age"%string = Some 1
       /\ r !! "filter_city"%string = Some 1
       /\ r !! "final_score"%string = None
       /\ is_Some (r !! "compatibility_score"%string).
Proof.
  intros Hwf Hnd Hres.
  destruct (recommended_rows self uid topn res Hres)
    as (found & cands & feats & picked & Hf & Hc & Hb & Hrows & Hlen & Htop & Hin & _).
  destruct (found_finite (cand_gen self) uid (recall_k self) Hwf)
    as (found' & cands' & Hf' & Hc' & Hm & Hl & _ & Hp).
  rewrite Hf in Hf'. inversion Hf'; subst found'. clear Hf'.
  rewrite Hc in Hc'. inversion Hc'; subst cands'. clear Hc'.
  assert (Hlc : length cands = length found)
    by (rewrite <- (length_map fst cands), Hm; apply length_map).
  pose proof (build_features_length _ _ _ _ _ Hb) as Hbl.
  unfold pair_count in Hbl. simpl in Hbl.
  rewrite Hrows, length_map.
  split; [lia|]. split; [exact Htop|].
  intros r Hr. apply list_elem_of_fmap_1 in Hr as (row & -> & Hrow).
  specialize (Hin row Hrow).
  destruct (build_features_row _ _ _ _ _ _ Hb Hin)
    as (by_id & uid' & cs & u & us & cid & sim & c & _ & Hu & Hcid & _ & _ & _ & Hpr).
  apply list_elem_of_singleton in Hu. inversion Hu; subst uid' cs. clear Hu.
  destruct (pair_row_fields _ _ _ _ _ _ _ _ _ Hpr) as (cs & _ & Fg & Fa & Fc & _).
  destruct (pair_row_inv _ _ _ _ _ _ _ _ _ Hpr) as (Iu & Im & _).
  destruct (recommended_cells_lookup (ranker self) row)
    as (L1 & L2 & L3 & L4 & L5 & L6 & L7).
  rewrite L1, L2, L3, L4, L5, L6, L7, Iu, Im, Fg, Fa, Fc.
  split; [done|]. split; [|by repeat split; try done; eexists].
  exists cid. split; [done|].
  assert (Hcf : cid ∈ map fst found).
  { rewrite <- Hm. change (map fst cands) with (fst <$> cands).
    apply list_elem_of_fmap. by exists (cid, sim). }
  change (map fst found) with (fst <$> found) in Hcf.
  apply list_elem_of_fmap_1 in Hcf as (p & Hp1 & Hpin).
  destruct (Hp p Hpin) as (idx & j & Hidx & Hne & Hj). rewrite <- Hp1 in Hj.
  split; [|by eapply list_elem_of_lookup_2].
  intros ->. apply Hne. by eapply NoDup_lookup.
Qed.

(** X21: in the frame recommend_for_user returns the compatibility_score of
    every row is the additive score of the row's own cells,
    w_sim*base_sim + w_comp*comp_index + w_cal*vedic_lite_score
    - age_penalty*age_gap, and the rows come in descending order of it. *)
Theorem recommend_for_user_order (self : RecommenderPipeline) (uid topn : Z)
    (res : Frame) :
  recommend_for_user argpartition argsort argsort_descending self uid topn
  = Returned res ->
  (forall r, r ∈ rows res ->
     cell r "compatibility_score"
     = w_sim (ranker self) * cell r "base_sim"
       + w_comp (ranker self) * cell r "comp_index"
       + calendar_weight (ranker self) (cell r "vedic_confidence")
         * cell r "vedic_lite_score"
       - age_penalty (ranker self) * cell r "age_gap")
  /\ forall i j ri rj, (i <= j)%nat ->
       rows res !! i = Some ri -> rows res !! j = Some rj ->
       cell rj "compatibility_score" <= cell ri "compatibility_score".
Proof.
  intros Hres.
  destruct (recommended_rows self uid topn res Hres)
    as (found & cands & feats & picked & _ & _ & _ & Hrows & _ & _ & _ & Ho).
  rewrite Hrows. split.
  - intros r Hr. apply list_elem_of_fmap_1 in Hr as (row & -> & _).
    apply recommended_cells_score.
  - intros i j ri rj Hij Hi Hj.
    rewrite lookup_map in Hi, Hj.
    destruct (picked !! i) as [xi|] eqn:Ei; [|done].
    destruct (picked !! j) as [xj|] eqn:Ej; [|done].
    inversion Hi; inversion Hj; subst ri rj.
    destruct (recommended_cells_lookup (ranker self) xi) as (_ & _ & _ & _ & _ & _ & Li).
    destruct (recommended_cells_lookup (ranker self) xj) as (_ & _ & _ & _ & _ & _ & Lj).
    unfold cell. rewrite Li, Lj. simpl. by eapply Ho.
Qed.

End with_libraries.

Lemma reference_descending_contract :
  argsort_descending_contract reference_descending.
Proof.
  intros a. unfold reference_descending.
  destruct (reference_argsort_contract (map Fin a)) as [Hp Ho].
  rewrite length_map in Hp. split; [by rewrite reverse_Permutation|].
  intros i j pi pj x y Hij Hi Hj Hx Hy.
  apply reverse_lookup_Some in Hi as [Hi Hli].
  apply reverse_lookup_Some in Hj as [Hj Hlj].
  assert (Hle : sim_le (Fin y) (Fin x) = true).
  { eapply (Ho _ _ pj pi); [|exact Hj|exact Hi| |].
    - lia.
    - by rewrite lookup_map, Hy.
    - by rewrite lookup_map, Hx. }
  simpl in Hle. by apply Qle_bool_iff in Hle.
Qed.

Lemma sample_pipeline_wf : wf_generator (cand_gen sample_pipeline).
Proof. repeat split. repeat constructor. Qed.

Lemma sample_records_typed : Forall typed_record sample_records.
Proof.
  assert (Ht : forall r z, r !! "user_id"%string = Some (Py.PInt z) ->
            Forall (fun k => text_cell (Py.get r k)) text_columns ->
            int_cell (Py.get r "age") -> typed_record r)
    by (intros r z H1 H2 H3; split; [by exists z|by split]).
  unfold sample_records.
  apply Forall_cons_2; [|apply Forall_cons_2; [|apply Forall_nil_2]].
  - apply (Ht liam 1%Z); [reflexivity| |exact I].
    unfold text_columns. repeat (apply Forall_cons_2; [exact I|]). apply Forall_nil_2.
  - apply (Ht emma 2%Z); [reflexivity| |exact I].
    unfold text_columns. repeat (apply Forall_cons_2; [exact I|]). apply Forall_nil_2.
Qed.

End recommend_facts.

Lemma recommend_for_user_returns_witness :
  exists res,
    Recommender.recommend_for_user Recall.sorting_argpartition
      Recall.stable_argsort reference_descending sample_pipeline 1 10
    = Recommender.Returned res.
Proof.
  exact (proj2 (recommend_for_user_returns Recall.sorting_argpartition
                  Recall.stable_argsort reference_descending
                  reference_argpartition_contract reference_argsort_contract
                  reference_descending_contract sample_pipeline 1 10
                  sample_pipeline_wf) sample_records_typed).
Defined.

Lemma recommend_unknown_user_witness :
  Recommender.recommend_for_user Recall.sorting_argpartition
    Recall.stable_argsort reference_descending sample_pipeline 7 10
  = Recommender.Returned Recommender.no_recommendation.
Proof.
  refine (proj2 (recommend_unknown_user Recall.sorting_argpartition
                   Recall.stable_argsort reference_descending
                   reference_argpartition_contract reference_argsort_contract
                   sample_pipeline 7 10 sample_pipeline_wf _)
            sample_records_typed).
  apply (bool_decide_unpack _). vm_compute. exact I.
Defined.

Lemma recommend_for_user_rows_witness :
  exists res,
    Recommender.recommend_for_user Recall.sorting_argpartition
      Recall.stable_argsort reference_descending sample_pipeline 1 10
    = Recommender.Returned res
    /\ (length (Ranker.rows res) <= 1)%nat.
Proof.
  eexists. split; [reflexivity|].
  match goal with |- (length (Ranker.rows ?res) <= _)%nat =>
    assert (Hnd : NoDup (Recall.user_ids (Pipeline.cand_gen sample_pipeline)))
      by (apply (bool_decide_unpack _); vm_compute; exact I);
    exact (proj1 (recommend_for_user_rows Recall.sorting_argpartition
                    Recall.stable_argsort reference_descending
                    reference_argpartition_contract reference_argsort_contract
                    reference_descending_contract sample_pipeline 1 10 res
                    sample_pipeline_wf Hnd eq_refl))
  end.
Defined.

Lemma recommend_for_user_order_witness :
  exists res,
    Recommender.recommend_for_user Recall.sorting_argpartition
      Recall.stable_argsort reference_descending sample_pipeline 1 10
    = Recommender.Returned res
    /\ forall i j ri rj, (i <= j)%nat ->
         Ranker.rows res !! i = Some ri -> Ranker.rows res !! j = Some rj ->
         cell rj "compatibility_score" <= cell ri "compatibility_score".
Proof.
  eexists. split; [reflexivity|].
  match goal with |- forall i j ri rj, _ -> Ranker.rows ?res !! _ = _ -> _ =>
    exact (proj2 (recommend_for_user_order Recall.sorting_argpartition
                    Recall.stable_argsort reference_descending
                    reference_descending_contract sample_pipeline 1 10 res
                    eq_refl))
  end.
Defined.

Section recommend_all_facts.
Import Features Ranker Recall Pipeline Recommender.

Lemma dict_set_fresh {A} (d : list (Z * A)) k v :
  k ∉ map fst d -> dict_set d k v = d ++ [(k, v)].
Proof.
  induction d as [|[k' v'] d IH]; simpl; intros Hn; [done|].
  destruct (Z.eqb_spec k k') as [->|Hne].
  - exfalso. apply Hn. apply list_elem_of_here.
  - rewrite IH; [done|]. intros Hin. apply Hn. by apply list_elem_of_further.
Qed.

Lemma dict_fold_fresh {A} (l d : list (Z * A)) :
  NoDup (map fst (d ++ l)) ->
  foldl (fun d p => dict_set d p.1 p.2) d l = d ++ l.
Proof.
  revert d. induction l as [|[k v] l IH]; intros d Hnd; simpl.
  - by rewrite app_nil_r.
  - rewrite dict_set_fresh.
    + rewrite IH; rewrite <- app_assoc; [done|]. exact Hnd.
    + rewrite map_app in Hnd. simpl in Hnd.
      apply NoDup_app in Hnd as (_ & Hd & _).
      intros Hin. apply (Hd k Hin). apply list_elem_of_here.
Qed.

(* with distinct keys the dict holds the assignments as they come *)
Lemma dict_items_nodup {A} (l : list (Z * A)) :
  NoDup (map fst l) -> dict_items l = l.
Proof. intros H. unfold dict_items. by rewrite dict_fold_fresh. Qed.

Lemma dict_set_Forall {A} (P : Z * A -> Prop) d k v :
  Forall P d -> P (k, v) -> Forall P (dict_set d k v).
Proof.
  induction d as [|[k' v'] d IH]; simpl; intros Hd Hp.
  - by constructor.
  - apply Forall_cons in Hd as [H1 H2].
    destruct (k =? k')%Z; constructor; auto.
Qed.

Lemma dict_items_Forall {A} (P : Z * A -> Prop) l :
  Forall P l -> Forall P (dict_items l).
Proof.
  unfold dict_items. intros H.
  assert (G : forall d, Forall P d -> Forall P (foldl (fun d p => dict_set d p.1 p.2) d l)).
  { induction H as [|[k v] l Hp Hl IH]; intros d Hd; simpl; [done|].
    apply IH. by apply dict_set_Forall. }
  apply G. constructor.
Qed.

(* without a column user_id the two-key sort raises *)
Lemma no_rows_no_column self :
  has_column (score self (frame_of [])) "user_id" = false.
Proof. reflexivity. Qed.

Lemma inject_Z_eqb a b : Qeq_bool (inject_Z a) (inject_Z b) = true <-> a = b.
Proof.
  rewrite Qeq_bool_iff. unfold Qeq. simpl. lia.
Qed.

Lemma lookup_strongly_sorted {A} (R : relation A) (l : list A) :
  (forall i j x y, (i < j)%nat -> l !! i = Some x -> l !! j = Some y -> R x y) ->
  StronglySorted R l.
Proof.
  induction l as [|a l IH]; intros H; constructor.
  - apply IH. intros i j x y Hij Hi Hj. by apply (H (S i) (S j) x y); [lia| |].
  - apply Forall_forall. intros y Hy. apply list_elem_of_lookup in Hy as [j Hj].
    by apply (H 0%nat (S j) a y); [lia| |].
Qed.

(* groupby("user_id").head(n) on scored feature rows: a selection of the
   rows in their order, at most n per user *)
Lemma first_of_each_map self n seen kept :
  exists picked,
    first_of_each "user_id" n seen (map (scored_cells self) kept)
    = map (scored_cells self) picked
    /\ (forall row, row ∈ picked -> row ∈ kept)
    /\ (forall R : relation FeatureRow, StronglySorted R kept -> StronglySorted R picked)
    /\ forall u,
         (length (filter (fun row => user_id row = u) picked)
          <= n - length (filter (fun x => Qeq_bool x (inject_Z u) = true) seen))%nat.
Proof.
  revert seen. induction kept as [|r kept IH]; intros seen.
  - exists []. repeat split; try done. intros u. simpl. lia.
  - cbn [map first_of_each].
    change (default 0 (scored_cells self r !! "user_id"%string))
      with (inject_Z (user_id r)).
    destruct (IH (inject_Z (user_id r) :: seen)) as (picked & E & Hin & Hs & Hc).
    assert (Hcount : forall u,
      length (filter (fun x => Qeq_bool x (inject_Z u) = true)
                (inject_Z (user_id r) :: seen))
      = ((if decide (user_id r = u) then 1 else 0)
         + length (filter (fun x => Qeq_bool x (inject_Z u) = true) seen))%nat).
    { intros u. rewrite filter_cons.
      destruct (decide (Qeq_bool (inject_Z (user_id r)) (inject_Z u) = true)) as [Hq|Hq];
        destruct (decide (user_id r = u)) as [Hu|Hu]; simpl; try lia.
      - apply inject_Z_eqb in Hq. done.
      - apply inject_Z_eqb in Hu. done. }
    destruct (_ <? n)%nat eqn:Eb.
    + apply Nat.ltb_lt in Eb. exists (r :: picked). rewrite E.
      split; [done|]. split.
      { intros row Hrow. apply elem_of_cons in Hrow as [->|Hrow];
          [apply list_elem_of_here|by apply list_elem_of_further, Hin]. }
      split.
      { intros R HR. apply StronglySorted_inv in HR as [HR HF].
        constructor; [by apply Hs|].
        apply Forall_forall. intros y Hy. rewrite Forall_forall in HF.
        apply HF, Hin, Hy. }
      intros u. specialize (Hc u). rewrite Hcount in Hc. rewrite filter_cons.
      destruct (decide (user_id r = u)) as [Hu|Hu]; [subst u|]; simpl; lia.
    + apply Nat.ltb_ge in Eb. exists picked.
      split; [done|]. split.
      { intros row Hrow. by apply list_elem_of_further, Hin. }
      split.
      { intros R HR. apply StronglySorted_inv in HR as [HR _]. by apply Hs. }
      intros u. specialize (Hc u). rewrite Hcount in Hc.
      destruct (decide (user_id r = u)); lia.
Qed.

(* a scored row after the two renames and the choice of three columns *)
Lemma final_cells self row :
  filter (fun kv : string * Q =>
            kv.1 ∈ ["user_id"; "match_id"; "compatibility_score"]%string)
    (match (match scored_cells self row !! "match_id"%string with
            | Some v => <["match_id"%string := v]>
                          (delete "match_id"%string (scored_cells self row))
            | None => scored_cells self row
            end) !! "final_score"%string with
     | Some v => <["compatibility_score"%string := v]>
                   (delete "final_score"%string
                      (match scored_cells self row !! "match_id"%string with
                       | Some v => <["match_id"%string := v]>
                                     (delete "match_id"%string (scored_cells self row))
                       | None => scored_cells self row
                       end))
     | None => match scored_cells self row !! "match_id"%string with
               | Some v => <["match_id"%string := v]>
                             (delete "match_id"%string (scored_cells self row))
               | None => scored_cells self row
               end
     end)
  = pair_cells self row.
Proof. reflexivity. Qed.

Lemma count_pair_cells self u picked :
  length (filter (fun r => Qeq_bool (cell r "user_id") (inject_Z u) = true)
            (map (pair_cells self) picked))
  = length (filter (fun row => user_id row = u) picked).
Proof.
  induction picked as [|row picked IH]; [done|].
  cbn [map]. rewrite !filter_cons.
  change (cell (pair_cells self row) "user_id") with (inject_Z (user_id row)).
  destruct (decide (Qeq_bool (inject_Z (user_id row)) (inject_Z u) = true)) as [Hq|Hq];
    destruct (decide (user_id row = u)) as [Hu|Hu]; simpl; try lia.
  - apply inject_Z_eqb in Hq. done.
  - apply inject_Z_eqb in Hu. done.
Qed.

(* the feature rows of a mapping are those of its entries, one after the
   other: none at all exactly when no entry has one *)
Lemma build_features_none records cands mix f feats :
  Forall typed_record records ->
  build_features records cands mix f = Some feats ->
  feats = [] <->
  forall uid cs, (uid, cs) ∈ cands ->
    build_features records [(uid, cs)] mix f = Some [].
Proof.
  intros Ht. revert feats. induction cands as [|[uid cs] rest IH]; intros feats Hb.
  - unfold build_features in Hb.
    destruct (index_records records ∅) as [by_id|]; [|done].
    cbn [mbind option_bind] in Hb. simpl in Hb. inversion Hb.
    split; [|done]. intros _ u c Hin. by apply elem_of_nil in Hin.
  - destruct (build_features_total records [(uid, cs)] mix f Ht) as [r1 H1].
    destruct (build_features_total records rest mix f Ht) as [r2 H2].
    assert (Hf : feats = r1 ++ r2).
    { unfold build_features in *.
      destruct (index_records records ∅) as [by_id|]; [|done].
      cbn [mbind option_bind] in *.
      change ((uid, cs) :: rest) with ([(uid, cs)] ++ rest) in Hb.
      rewrite user_rows_app, H1, H2 in Hb. cbn [mbind option_bind] in Hb.
      by inversion Hb. }
    subst feats. specialize (IH r2 H2). split.
    + intros Hnil. apply app_eq_nil in Hnil as [-> ->].
      intros u c Hin. apply elem_of_cons in Hin as [Heq|Hin].
      * by inversion Heq; subst.
      * by apply IH.
    + intros Hall.
      assert (r1 = []) as ->
        by (specialize (Hall uid cs (list_elem_of_here _ _)); congruence).
      simpl. apply IH. intros u c Hin. apply Hall. by apply list_elem_of_further.
Qed.

Lemma user_then_score_leb_spec x y :
  user_then_score_leb x y = true
  <-> x.1 < y.1 \/ (x.1 == y.1 /\ y.2 <= x.2).
Proof.
  unfold user_then_score_leb.
  rewrite orb_true_iff, andb_true_iff, negb_true_iff, Qeq_bool_iff, Qle_bool_iff.
  split; intros [H|H]; auto.
  - left. apply Qnot_le_lt. intros Hle. apply Qle_bool_iff in Hle. congruence.
  - left. destruct (Qle_bool y.1 x.1) eqn:E; [|done].
    apply Qle_bool_iff in E. lra.
Qed.

Lemma reference_lexsort_contract : lexsort_contract reference_lexsort.
Proof.
  intros a. unfold reference_lexsort.
  set (R := fun i j : nat =>
              user_then_score_leb (pair_key a i) (pair_key a j) = true).
  assert (Htrans : Transitive R).
  { intros i j k. unfold R. rewrite !user_then_score_leb_spec.
    intros [H1|[H1 H1']] [H2|[H2 H2']]; [left; lra|left; lra|left; lra|].
    right. split; [by rewrite H1|lra]. }
  assert (Htotal : Total R).
  { intros i j. unfold R. rewrite !user_then_score_leb_spec.
    destruct (Qlt_le_dec (pair_key a i).1 (pair_key a j).1) as [Hl|Hl]; [auto|].
    destruct (Qlt_le_dec (pair_key a j).1 (pair_key a i).1) as [Hl'|Hl']; [auto|].
    assert (He : (pair_key a i).1 == (pair_key a j).1) by lra.
    destruct (Qlt_le_dec (pair_key a i).2 (pair_key a j).2) as [Hs|Hs].
    - right. right. split; [by symmetry|lra].
    - left. right. split; [done|lra]. }
  split; [apply merge_sort_Permutation|].
  intros i j pi pj x y Hij Hi Hj Hx Hy.
  assert (Hxy : user_then_score_leb x y = true).
  { destruct (decide (i = j)) as [->|Hne].
    - rewrite Hi in Hj. inversion Hj; subst pj. rewrite Hx in Hy. inversion Hy; subst y.
      apply user_then_score_leb_spec. right. split; [reflexivity|apply Qle_refl].
    - pose proof (strongly_sorted_lookup _ _ i j pi pj
                    (@StronglySorted_merge_sort nat R _ Htrans Htotal _)
                    ltac:(lia) Hi Hj) as H.
      unfold R, pair_key in H. by rewrite Hx, Hy in H. }
  apply user_then_score_leb_spec in Hxy as [H|[H1 H2]]; split; lra.
Qed.

Lemma lonely_pipeline_wf : wf_generator (cand_gen lonely_pipeline).
Proof. repeat split. repeat constructor. Qed.

Section with_libraries.
Variable argpartition : list sim -> nat -> list nat.
Variable argsort : list sim -> list nat.
Variable lexsort_indexer : list (Q * Q) -> list nat.
Variable head_negative : Frame -> string -> Z -> Frame.
Variable argsort_descending : list Q -> list nat.
Hypothesis Hpart : argpartition_contract argpartition.
Hypothesis Hsort : argsort_contract argsort.
Hypothesis Hlex : lexsort_contract lexsort_indexer.

(* the frame sorted by two keys: the same rows, in the promised order *)
Lemma sort_values_by_two_spec df k1 k2 :
  has_column df k1 = true -> has_column df k2 = true ->
  exists s, sort_values_by_two lexsort_indexer df k1 k2 = Some s
    /\ columns s = columns df /\ rows s ≡ₚ rows df
    /\ forall i j ri rj, (i <= j)%nat ->
         rows s !! i = Some ri -> rows s !! j = Some rj ->
         cell ri k1 <= cell rj k1
         /\ (cell ri k1 == cell rj k1 -> cell rj k2 <= cell ri k2).
Proof.
  intros H1 H2. unfold sort_values_by_two. rewrite H1, H2. simpl.
  destruct (Hlex (zip (series df k1) (series df k2))) as [Hp Ho].
  assert (Hl : length (zip (series df k1) (series df k2)) = length (rows df)).
  { rewrite length_zip_with. unfold series. rewrite !length_map. lia. }
  rewrite Hl in Hp.
  destruct (take_at_total (rows df) _ Hp) as [rs Hrs].
  rewrite Hrs. cbn [mbind option_bind].
  eexists. split; [reflexivity|]. cbn [columns rows].
  split; [done|]. split; [by eapply take_at_perm|].
  intros i j ri rj Hij Hi Hj.
  unfold take_at in Hrs. apply mapM_Some in Hrs.
  destruct (Forall2_lookup_r _ _ _ _ _ Hrs Hi) as (pi & Hpi & Hri).
  destruct (Forall2_lookup_r _ _ _ _ _ Hrs Hj) as (pj & Hpj & Hrj).
  assert (Hz : forall p r, rows df !! p = Some r ->
            zip (series df k1) (series df k2) !! p = Some (cell r k1, cell r k2)).
  { intros p r Hr. apply lookup_zip_with_Some.
    exists (cell r k1), (cell r k2). split; [done|].
    split; by apply series_lookup. }
  apply (Ho i j pi pj (cell ri k1, cell ri k2) (cell rj k1, cell rj k2) Hij Hpi Hpj);
    by apply Hz.
Qed.

Lemma sort_values_by_two_columns df k1 k2 s :
  sort_values_by_two lexsort_indexer df k1 k2 = Some s ->
  has_column df k1 = true /\ has_column df k2 = true.
Proof.
  unfold sort_values_by_two.
  destruct (has_column df k1), (has_column df k2); done.
Qed.

(* the rows of a returned recommend_all: scored feature rows, sorted by
   user and score, the first topn of every user, cut to three cells *)
Lemma recommended_all_rows self topn res :
  (0 <= topn)%Z ->
  recommend_all argpartition argsort lexsort_indexer head_negative self topn
  = Returned res ->
  exists assignments cands feats picked,
    topk_for_all argpartition argsort (cand_gen self) (recall_k self)
    = Some assignments
    /\ mapM (fun p : Z * list (Z * sim) => c ← finite p.2; Some (p.1, c))
         (dict_items assignments) = Some cands
    /\ build_features (df_records (df self)) cands
         (default ∅ (cfg_comp_mix (config self)))
         (Some (default ∅ (cfg_filters (config self)))) = Some feats
    /\ columns res = ["user_id"; "match_id"; "compatibility_score"]%string
    /\ rows res = map (pair_cells (ranker self)) picked
    /\ (forall row, row ∈ picked -> row ∈ feats)
    /\ StronglySorted (by_user_then_score (ranker self)) picked
    /\ forall u, (length (filter (fun row => user_id row = u) picked)
                  <= Z.to_nat topn)%nat.
Proof.
  intros Hn. unfold recommend_all. intros H.
  destruct (topk_for_all _ _ _ _) as [assignments|] eqn:Ea; [|done].
  destruct (mapM _ (dict_items assignments)) as [cands|] eqn:Ec; [|done].
  destruct (build_features _ _ _ _) as [feats|] eqn:Eb; [|done].
  exists assignments, cands, feats.
  destruct (sort_values_by_two _ _ _ _) as [sorted|] eqn:Es; [|done].
  cbn [mbind option_bind] in H.
  destruct (sort_values_by_two_columns _ _ _ _ Es) as [Hu Hf].
  destruct (sort_values_by_two_spec _ _ _ Hu Hf) as (s' & Es' & Hcols & Hp & Ho).
  rewrite Es in Es'. inversion Es'; subst s'. clear Es'.
  assert (Hne : feats <> []).
  { intros ->. by rewrite no_rows_no_column in Hu. }
  unfold groupby_head in H.
  assert (Hus : has_column sorted "user_id" = true)
    by (unfold has_column in *; by rewrite Hcols).
  rewrite Hus in H. cbn [negb] in H.
  destruct (0 <=? topn)%Z eqn:E0; [|apply Z.leb_gt in E0; lia].
  cbn [mbind option_bind] in H.
  rewrite score_frame_rows in Hp.
  apply Permutation_map_inv in Hp as (kept & Hk & Hperm).
  destruct (first_of_each_map (ranker self) (Z.to_nat topn) [] kept)
    as (picked & Hpick & Hin & Hsorted & Hcount).
  unfold select_columns in H.
  destruct (forallb _ _); [|done].
  inversion H; subst res. clear H. cbn [columns rows].
  exists picked.
  split; [done|]. split; [done|]. split; [done|]. split; [done|].
  split.
  { rewrite Hk, Hpick. change (map ?f ?x) with (f <$> x).
    rewrite <- !list_fmap_compose. apply list_fmap_ext. intros _ row _.
    unfold compose. apply final_cells. }
  split.
  { intros row Hrow. rewrite Hperm. by apply Hin. }
  split.
  { apply Hsorted. apply lookup_strongly_sorted.
    intros i j x y Hij Hi Hj.
    assert (Hsi : rows sorted !! i = Some (scored_cells (ranker self) x))
      by (rewrite Hk, lookup_map, Hi; reflexivity).
    assert (Hsj : rows sorted !! j = Some (scored_cells (ranker self) y))
      by (rewrite Hk, lookup_map, Hj; reflexivity).
    destruct (Ho i j _ _ ltac:(lia) Hsi Hsj) as [O1 O2].
    change (cell (scored_cells (ranker self) x) "user_id")
      with (inject_Z (user_id x)) in O1, O2.
    change (cell (scored_cells (ranker self) y) "user_id")
      with (inject_Z (user_id y)) in O1, O2.
    unfold cell in O2. rewrite !scored_cells_final in O2. simpl in O2.
    split; [by rewrite Zle_Qle|].
    intros Heq. apply O2. by rewrite Heq. }
  intros u. specialize (Hcount u). simpl in Hcount. lia.
Qed.

(** X22: recommend_all raises whenever recall_k is not positive or the
    dataset has at most one user: no candidate pair is left, the feature
    frame has no column, and the sort by user_id fails, where
    recommend_for_user returns an empty frame. *)
Theorem recommend_all_needs_a_pair (self : RecommenderPipeline) (topn : Z) :
  wf_generator (cand_gen self) ->
  (recall_k self <= 0)%Z \/ (length (user_ids (cand_gen self)) <= 1)%nat ->
  recommend_all argpartition argsort lexsort_indexer head_negative self topn
  = Raised.
Proof.
  intros Hwf Hk.
  destruct (topk_for_all_entries argpartition argsort Hpart Hsort
              (cand_gen self) (recall_k self) Hwf) as (res & Hres & _ & Hent).
  assert (Hnil : Forall (fun p : Z * list (Z * sim) => p.2 = []) res).
  { apply Forall_forall. intros [uid l] Hin. destruct (Hent uid l Hin) as [_ Hl].
    simpl. apply nil_length_inv. rewrite Hl. lia. }
  apply dict_items_Forall in Hnil.
  unfold recommend_all. rewrite Hres.
  set (items := dict_items res) in *.
  assert (Hc : mapM (fun p : Z * list (Z * sim) => c ← finite p.2; Some (p.1, c)) items
               = Some (map (fun p => (p.1, [])) items)).
  { clear -Hnil. induction Hnil as [|[uid l] items Hl _ IH]; [done|].
    simpl in Hl. subst l. cbn [mapM]. rewrite IH. reflexivity. }
  rewrite Hc.
  destruct (build_features _ _ _ _) as [feats|] eqn:Eb; [|done].
  apply build_features_length in Eb.
  assert (Hz : pair_count (map (fun p : Z * list (Z * sim) => (p.1, @nil (Z * Q))) items) = 0%nat).
  { unfold pair_count. clear. induction items as [|p items IH]; [done|]. simpl. exact IH. }
  rewrite Hz in Eb. destruct feats; [|simpl in Eb; lia].
  unfold sort_values_by_two. rewrite no_rows_no_column. reflexivity.
Qed.

(* a pair of the mapping recommend_all hands to the feature engine: two
   different users of the population *)
Lemma all_candidates_known g k assignments cands uid cs cid sim0 :
  wf_generator g -> NoDup (user_ids g) ->
  topk_for_all argpartition argsort g k = Some assignments ->
  mapM (fun p : Z * list (Z * sim) => c ← finite p.2; Some (p.1, c))
    (dict_items assignments) = Some cands ->
  (uid, cs) ∈ cands -> (cid, sim0) ∈ cs ->
  uid <> cid /\ uid ∈ user_ids g /\ cid ∈ user_ids g.
Proof.
  intros Hwf Hnd Ha Hc Hu Hcid.
  destruct (topk_for_all_entries argpartition argsort Hpart Hsort g k Hwf)
    as (res & Hres & Hfst & Hent).
  rewrite Ha in Hres. inversion Hres; subst res. clear Hres.
  rewrite dict_items_nodup in Hc by (by rewrite Hfst).
  apply mapM_Some in Hc.
  apply list_elem_of_lookup in Hu as [i Hu].
  destruct (Forall2_lookup_r _ _ _ _ _ Hc Hu) as ([uid' found] & Hp & Hf).
  simpl in Hf. destruct (finite found) as [cs'|] eqn:Ef; [|done].
  cbn [mbind option_bind] in Hf. inversion Hf; subst uid' cs'. clear Hf.
  destruct (Hent uid found (list_elem_of_lookup_2 _ _ _ Hp)) as [Ht _].
  destruct (found_finite argpartition argsort Hpart Hsort g uid k Hwf)
    as (found' & cs' & Ht' & Ef' & Hm & _ & _ & Hall).
  rewrite Ht in Ht'. inversion Ht'; subst found'. clear Ht'.
  rewrite Ef in Ef'. inversion Ef'; subst cs'. clear Ef'.
  assert (Hin : cid ∈ map fst found).
  { rewrite <- Hm. change (map fst cs) with (fst <$> cs).
    apply list_elem_of_fmap. by exists (cid, sim0). }
  change (map fst found) with (fst <$> found) in Hin.
  apply list_elem_of_fmap_1 in Hin as (p & Hp1 & Hpin).
  destruct (Hall p Hpin) as (idx & j & Hidx & Hne & Hj). rewrite <- Hp1 in Hj.
  split; [|split; by eapply list_elem_of_lookup_2].
  intros <-. apply Hne. by eapply NoDup_lookup.
Qed.

(** X23: what recommend_all returns for a topn that is not negative, with
    unique user ids: a frame of the three columns user_id, match_id and
    compatibility_score; every row pairs two different users of the dataset;
    no user has more than topn rows; the rows are in ascending order of the
    user and, for one user, in descending order of the score. *)
Theorem recommend_all_rows (self : RecommenderPipeline) (topn : Z) (res : Frame) :
  wf_generator (cand_gen self) -> NoDup (user_ids (cand_gen self)) ->
  (0 <= topn)%Z ->
  recommend_all argpartition argsort lexsort_indexer head_negative self topn
  = Returned res ->
  columns res = ["user_id"; "match_id"; "compatibility_score"]%string
  /\ (forall r, r ∈ rows res ->
        exists u m v,
          r = list_to_map [("user_id", inject_Z u); ("match_id", inject_Z m);
                           ("compatibility_score", v)]%string
          /\ u <> m /\ u ∈ user_ids (cand_gen self)
          /\ m ∈ user_ids (cand_gen self))
  /\ (forall u,
        (length (filter (fun r => Qeq_bool (cell r "user_id") (inject_Z u) = true)
                   (rows res)) <= Z.to_nat topn)%nat)
  /\ forall i j ri rj, (i <= j)%nat ->
       rows res !! i = Some ri -> rows res !! j = Some rj ->
       cell ri "user_id" <= cell rj "user_id"
       /\ (cell ri "user_id" == cell rj "user_id" ->
           cell rj "compatibility_score" <= cell ri "compatibility_score").
Proof.
  intros Hwf Hnd Hn Hres.
  destruct (recommended_all_rows self topn res Hn Hres)
    as (assignments & cands & feats & picked & Ha & Hc & Hb & Hcols & Hrows
        & Hin & Hsorted & Hcount).
  split; [exact Hcols|]. rewrite Hrows. split; [|split].
  - intros r Hr. apply list_elem_of_fmap_1 in Hr as (row & -> & Hrow).
    exists (user_id row), (match_id row), (row_score (ranker self) row).
    split; [reflexivity|].
    destruct (build_features_row _ _ _ _ _ _ Hb (Hin row Hrow))
      as (by_id & uid & cs & u & us & cid & sim0 & c & _ & Hu & Hcid & _ & _ & _ & Hpr).
    destruct (pair_row_inv _ _ _ _ _ _ _ _ _ Hpr) as (-> & -> & _).
    by eapply all_candidates_known.
  - intros u. rewrite count_pair_cells. apply Hcount.
  - intros i j ri rj Hij Hi Hj. rewrite lookup_map in Hi, Hj.
    destruct (picked !! i) as [x|] eqn:Ei; [|done].
    destruct (picked !! j) as [y|] eqn:Ej; [|done].
    inversion Hi; inversion Hj; subst ri rj.
    change (cell (pair_cells (ranker self) x) "user_id") with (inject_Z (user_id x)).
    change (cell (pair_cells (ranker self) y) "user_id") with (inject_Z (user_id y)).
    change (cell (pair_cells (ranker self) x) "compatibility_score")
      with (row_score (ranker self) x).
    change (cell (pair_cells (ranker self) y) "compatibility_score")
      with (row_score (ranker self) y).
    destruct (decide (i = j)) as [->|Hne].
    + rewrite Ei in Ej. inversion Ej; subst y. split; [apply Qle_refl|].
      intros _. apply Qle_refl.
    + destruct (strongly_sorted_lookup _ _ i j x y Hsorted ltac:(lia) Ei Ej)
        as [S1 S2].
      split; [by rewrite <- Zle_Qle|].
      intros Heq. apply S2. unfold Qeq in Heq. simpl in Heq. lia.
Qed.

(* the mapping recommend_all builds: one entry per user, the user's own
   candidates *)
Lemma all_candidates g k :
  wf_generator g -> NoDup (user_ids g) ->
  exists assignments cands,
    topk_for_all argpartition argsort g k = Some assignments
    /\ mapM (fun p : Z * list (Z * sim) => c ← finite p.2; Some (p.1, c))
         (dict_items assignments) = Some cands
    /\ (forall uid, uid ∈ user_ids g ->
          exists found cs, topk_for_user argpartition argsort g uid k = Some found
                           /\ finite found = Some cs /\ (uid, cs) ∈ cands)
    /\ forall uid cs, (uid, cs) ∈ cands ->
         uid ∈ user_ids g
         /\ exists found, topk_for_user argpartition argsort g uid k = Some found
                          /\ finite found = Some cs.
Proof.
  intros Hwf Hnd.
  destruct (topk_for_all_entries argpartition argsort Hpart Hsort g k Hwf)
    as (res & Hres & Hfst & Hent).
  exists res. rewrite dict_items_nodup by (by rewrite Hfst).
  set (f := fun p : Z * list (Z * sim) => finite p.2 ≫= fun c => Some (p.1, c)).
  assert (Hf : forall uid found, (uid, found) ∈ res ->
            topk_for_user argpartition argsort g uid k = Some found
            /\ exists cs, finite found = Some cs /\ f (uid, found) = Some (uid, cs)).
  { intros uid found Hin. destruct (Hent uid found Hin) as [Ht _].
    split; [done|].
    destruct (found_finite argpartition argsort Hpart Hsort g uid k Hwf)
      as (found' & cs & Ht' & Ef & _).
    rewrite Ht in Ht'. inversion Ht'; subst found'.
    exists cs. split; [done|]. unfold f. simpl. by rewrite Ef. }
  destruct (mapM_is_Some_2 f res) as [cands Hc].
  { apply Forall_forall. intros [uid found] Hin.
    destruct (Hf uid found Hin) as (_ & cs & _ & E).
    unfold compose. rewrite E. by eexists. }
  exists cands. split; [done|]. split; [exact Hc|].
  apply mapM_Some in Hc. split.
  - intros uid Hin. rewrite <- Hfst in Hin.
    change (map fst res) with (fst <$> res) in Hin.
    apply list_elem_of_fmap_1 in Hin as ([uid' found] & Heq & Hin).
    simpl in Heq. subst uid'.
    destruct (Hf uid found Hin) as (Ht & cs & Ef & Hfp).
    exists found, cs. split; [done|]. split; [done|].
    apply list_elem_of_lookup in Hin as [i Hi].
    destruct (Forall2_lookup_l _ _ _ _ _ Hc Hi) as (c & Hci & Hfc).
    rewrite Hfp in Hfc. inversion Hfc; subst c. by eapply list_elem_of_lookup_2.
  - intros uid cs Hin. apply list_elem_of_lookup in Hin as [i Hi].
    destruct (Forall2_lookup_r _ _ _ _ _ Hc Hi) as ([uid' found] & Hp & Hfp).
    pose proof (list_elem_of_lookup_2 _ _ _ Hp) as Hin.
    destruct (Hf uid' found Hin) as (Ht & cs' & Ef & Hfp').
    rewrite Hfp in Hfp'. inversion Hfp'; subst uid' cs'.
    split.
    + rewrite <- Hfst. change (map fst res) with (fst <$> res).
      apply list_elem_of_fmap. by exists (uid, found).
    + by exists found.
Qed.

(* with a feature row recommend_all runs through *)
Lemma recommend_all_runs self topn assignments cands f0 feats :
  (0 <= topn)%Z ->
  topk_for_all argpartition argsort (cand_gen self) (recall_k self)
  = Some assignments ->
  mapM (fun p : Z * list (Z * sim) => c ← finite p.2; Some (p.1, c))
    (dict_items assignments) = Some cands ->
  build_features (df_records (df self)) cands
    (default ∅ (cfg_comp_mix (config self)))
    (Some (default ∅ (cfg_filters (config self)))) = Some (f0 :: feats) ->
  exists res,
    recommend_all argpartition argsort lexsort_indexer head_negative self topn
    = Returned res.
Proof.
  intros Hn Ea Ec Eb. unfold recommend_all. rewrite Ea, Ec, Eb.
  destruct (scored_columns (ranker self) f0 feats) as [Hu Hf].
  destruct (sort_values_by_two_spec _ _ _ Hu Hf) as (s & -> & Hcols & _).
  cbn [mbind option_bind]. unfold groupby_head.
  assert (Hus : has_column s "user_id" = true)
    by (unfold has_column in *; by rewrite Hcols).
  rewrite Hus. cbn [negb].
  destruct (0 <=? topn)%Z eqn:E0; [|apply Z.leb_gt in E0; lia].
  cbn [mbind option_bind]. unfold select_columns.
  match goal with |- context [forallb ?f ?l] =>
    assert (Hall : forallb f l = true)
      by (unfold rename, has_column; cbn [columns]; rewrite Hcols; reflexivity)
  end.
  rewrite Hall. by eexists.
Qed.

(* recommend_for_user has nothing to recommend exactly when the user's
   candidates give no feature row *)
Lemma recommend_for_user_none self uid topn found cs :
  topk_for_user argpartition argsort (cand_gen self) uid (recall_k self)
  = Some found ->
  finite found = Some cs ->
  recommend_for_user argpartition argsort argsort_descending self uid topn
  = Returned no_recommendation
  <-> build_features (df_records (df self)) [(uid, cs)]
        (default ∅ (cfg_comp_mix (config self)))
        (Some (default ∅ (cfg_filters (config self)))) = Some [].
Proof.
  intros Ef Ec. unfold recommend_for_user. rewrite Ef, Ec.
  destruct (build_features _ _ _ _) as [[|f0 feats]|]; [done| |done].
  split; [|done]. intros H.
  destruct (select_user _ uid) as [mine|] eqn:Em; [|done].
  cbn [mbind option_bind] in H.
  destruct (sort_values _ mine _) as [sorted|] eqn:Es; [|done].
  exfalso. inversion H as [[Hcols Hrows]]. clear H Hrows.
  apply select_user_rows in Em as [Hm _].
  unfold sort_values in Es. destruct (negb _); [done|].
  destruct (take_at _ _); [|done]. cbn [mbind option_bind] in Es.
  inversion Es; subst sorted. cbn [columns] in Hcols.
  rewrite Hm in Hcols. discriminate Hcols.
Qed.

(** X24: on records of the schema's types, with unique user ids and a topn
    that is not negative, recommend_all raises exactly when
    recommend_for_user has nothing to recommend to any user of the dataset;
    it never hands a similarity of -inf to the feature engine. *)
Theorem recommend_all_raises_iff (self : RecommenderPipeline) (topn : Z) :
  wf_generator (cand_gen self) -> NoDup (user_ids (cand_gen self)) ->
  Forall typed_record (df_records (df self)) -> (0 <= topn)%Z ->
  recommend_all argpartition argsort lexsort_indexer head_negative self topn
  <> Unmodelled
  /\ (recommend_all argpartition argsort lexsort_indexer head_negative self topn
      = Raised
      <-> forall uid, uid ∈ user_ids (cand_gen self) ->
            recommend_for_user argpartition argsort argsort_descending
              self uid topn = Returned no_recommendation).
Proof.
  intros Hwf Hnd Ht Hn.
  destruct (all_candidates (cand_gen self) (recall_k self) Hwf Hnd)
    as (assignments & cands & Ea & Ec & Hknown & Hback).
  destruct (build_features_total (df_records (df self)) cands
              (default ∅ (cfg_comp_mix (config self)))
              (Some (default ∅ (cfg_filters (config self)))) Ht) as [feats Eb].
  pose proof (build_features_none _ _ _ _ _ Ht Eb) as Hnone.
  assert (Hempty : feats = [] ->
            recommend_all argpartition argsort lexsort_indexer head_negative
              self topn = Raised).
  { intros ->. unfold recommend_all. rewrite Ea, Ec, Eb.
    unfold sort_values_by_two. by rewrite no_rows_no_column. }
  split.
  - destruct feats as [|f0 feats'].
    + by rewrite Hempty.
    + destruct (recommend_all_runs self topn _ _ _ _ Hn Ea Ec Eb) as [res ->]. done.
  - split.
    + intros HR uid Hin.
      assert (Hf : feats = []).
      { destruct feats as [|f0 feats']; [done|].
        destruct (recommend_all_runs self topn _ _ _ _ Hn Ea Ec Eb) as [res Hres].
        congruence. }
      destruct (Hknown uid Hin) as (found & cs & Ef & Ecs & Hc).
      apply (recommend_for_user_none self uid topn found cs Ef Ecs).
      by apply (proj1 Hnone Hf).
    + intros Hall. apply Hempty. apply Hnone. intros uid cs Hin.
      destruct (Hback uid cs Hin) as (Hu & found & Ef & Ecs).
      apply (recommend_for_user_none self uid topn found cs Ef Ecs).
      by apply Hall.
Qed.

End with_libraries.
End recommend_all_facts.

Lemma recommend_all_needs_a_pair_witness :
  Recommender.recommend_all Recall.sorting_argpartition Recall.stable_argsort
    reference_lexsort same_frame lonely_pipeline 10
  = Recommender.Raised.
Proof.
  apply (recommend_all_needs_a_pair Recall.sorting_argpartition
           Recall.stable_argsort reference_lexsort same_frame
           reference_argpartition_contract reference_argsort_contract
           lonely_pipeline 10 lonely_pipeline_wf).
  right. apply le_n.
Defined.

Lemma recommend_all_rows_witness :
  exists res,
    Recommender.recommend_all Recall.sorting_argpartition Recall.stable_argsort
      reference_lexsort same_frame sample_pipeline 10
    = Recommender.Returned res
    /\ Ranker.columns res = ["user_id"; "match_id"; "compatibility_score"]%string.
Proof.
  eexists. split; [reflexivity|].
  match goal with |- Ranker.columns ?res = _ =>
    assert (Hnd : NoDup (Recall.user_ids (Pipeline.cand_gen sample_pipeline)))
      by (apply (bool_decide_unpack _); vm_compute; exact I);
    exact (proj1 (recommend_all_rows Recall.sorting_argpartition
                    Recall.stable_argsort reference_lexsort same_frame
                    reference_argpartition_contract reference_argsort_contract
                    reference_lexsort_contract sample_pipeline 10 res
                    sample_pipeline_wf Hnd (Zle_bool_imp_le 0 10 eq_refl) eq_refl))
  end.
Defined.

Lemma recommend_all_raises_iff_witness :
  Recommender.recommend_all Recall.sorting_argpartition Recall.stable_argsort
    reference_lexsort same_frame lonely_pipeline 10
  = Recommender.Raised
  <-> forall uid, uid ∈ [1%Z] ->
        Recommender.recommend_for_user Recall.sorting_argpartition
          Recall.stable_argsort reference_descending lonely_pipeline uid 10
        = Recommender.Returned Recommender.no_recommendation.
Proof.
  assert (Hnd : NoDup (Recall.user_ids (Pipeline.cand_gen lonely_pipeline)))
    by (apply (bool_decide_unpack _); vm_compute; exact I).
  assert (Ht : Forall typed_record (Recall.df_records (Pipeline.df lonely_pipeline)))
    by (apply Forall_cons_2; [exact (Forall_inv sample_records_typed)|apply Forall_nil_2]).
  exact (proj2 (recommend_all_raises_iff Recall.sorting_argpartition
                  Recall.stable_argsort reference_lexsort same_frame
                  reference_descending
                  reference_argpartition_contract reference_argsort_contract
                  reference_lexsort_contract
                  lonely_pipeline 10 lonely_pipeline_wf Hnd Ht
                  (Zle_bool_imp_le 0 10 eq_refl))).
Defined.
